(** * Genial investor-flow dashboard: the normalisation and aggregation pipeline

    A shallow embedding of [GenialDashboard] (dashboard_claude.py): the
    methods [load_data], [_clean_data], [_process_data] and
    [get_top_bottom_sectors], over a small model of the data frames they
    manipulate.

    Modelling choices.
    - A cell of a frame is a null, a string or a number.  Python floats are
      modelled by exact rationals ([Q]); statements about numbers use [Qeq].
    - A frame is a list of column labels and a list of labelled rows.  Frames
      are rectangular ([wf_frame]) and, as the Excel reader delivers them,
      have distinct column labels; label lookup takes the first match.
    - The object holding the views is a record; a method is a function from
      that record to an outcome and the record it leaves behind, so that what
      a method had already assigned when it raised stays visible.
    - Of the table library the model keeps what the methods rely on: a sum
      skips nulls, adds numbers, concatenates strings and raises on a mix;
      dividing a string raises; a grouping drops the rows whose key is null
      (a null date included) and lists its groups in key order; an empty
      frame groups and pivots to empty results; sorting compares values
      pairwise and keeps tied rows in their order. *)

From Stdlib Require Import List String Ascii ZArith QArith Bool Lia.
From Stdlib Require Import Qround Permutation Sorted OrderedTypeEx.
Import ListNotations.

Local Open Scope string_scope.
Local Open Scope list_scope.

(** ** Outcomes *)

Inductive exn : Type :=
| FileNotFoundError
| ReadError
| KeyError (k : string)
| TypeError
| ValueError.

Inductive result (A : Type) : Type :=
| Ok (a : A)
| Raise (e : exn).

Arguments Ok {A} a.
Arguments Raise {A} e.

Definition rbind {A B} (r : result A) (f : A -> result B) : result B :=
  match r with
  | Ok a => f a
  | Raise e => Raise e
  end.

Fixpoint traverse {A B} (f : A -> result B) (l : list A) : result (list B) :=
  match l with
  | [] => Ok []
  | x :: l' =>
      match f x with
      | Raise e => Raise e
      | Ok y =>
          match traverse f l' with
          | Raise e => Raise e
          | Ok ys => Ok (y :: ys)
          end
      end
  end.

(** ** Cells and row labels *)

Inductive cell : Type :=
| NaN
| Str (s : string)
| Num (q : Q).

(** Row labels: the positions of a freshly read frame, or the time stamps
    [_clean_data] installs ([NaT] is the null stamp). *)
Inductive label : Type :=
| Pos (i : nat)
| Stamp (t : Z)
| NaT.

Definition isna (c : cell) : bool :=
  match c with
  | NaN => true
  | _ => false
  end.

Definition is_num (c : cell) : bool :=
  match c with
  | Num _ => true
  | _ => false
  end.

(** Elementwise [==]: a null equals nothing, itself included. *)
Definition cell_eqb (a b : cell) : bool :=
  match a, b with
  | Str s, Str t => String.eqb s t
  | Num p, Num q => Qeq_bool p q
  | _, _ => false
  end.

(** Python's [+] on two non-null cells. *)
Definition py_add (a b : cell) : result cell :=
  match a, b with
  | Num p, Num q => Ok (Num (p + q))
  | Str s, Str t => Ok (Str (s ++ t))
  | _, _ => Raise TypeError
  end.

Fixpoint py_sum_from (acc : cell) (l : list cell) : result cell :=
  match l with
  | [] => Ok acc
  | v :: l' =>
      match py_add acc v with
      | Ok a => py_sum_from a l'
      | Raise e => Raise e
      end
  end.

(** The [sum] reduction of one group: nulls are skipped, the first value
    starts the accumulator, and an all-null group sums to zero. *)
Definition py_sum (l : list cell) : result cell :=
  match filter (fun c => negb (isna c)) l with
  | [] => Ok (Num 0)
  | c :: l' => py_sum_from c l'
  end.

(** [x / 1_000_000] on one cell. *)
Definition scale_cell (c : cell) : result cell :=
  match c with
  | Num q => Ok (Num (q / 1000000))
  | Str _ => Raise TypeError
  | NaN => Ok NaN
  end.

(** ** Group keys

    [groupby] and [pivot_table] order their keys and drop the null ones.
    Numbers sort before strings; a tuple key is ordered lexicographically
    and is null as soon as one component is. *)

Class Key (K : Type) : Type := {
  kcmp : K -> K -> comparison;
  kna : K -> bool
}.

Class KeyLaws (K : Type) `{Key K} : Prop := {
  kcmp_refl : forall a, kcmp a a = Eq;
  kcmp_antisym : forall a b, kcmp b a = CompOpp (kcmp a b);
  kcmp_trans : forall a b c, kcmp a b = Lt -> kcmp b c = Lt -> kcmp a c = Lt;
  kcmp_eq_l : forall a b c, kcmp a b = Eq -> kcmp a c = kcmp b c;
  kna_eq : forall a b, kcmp a b = Eq -> kna a = kna b
}.

Definition keq {K} `{Key K} (a b : K) : bool :=
  match kcmp a b with
  | Eq => true
  | _ => false
  end.

Definition cell_compare (a b : cell) : comparison :=
  match a, b with
  | Num p, Num q => (p ?= q)%Q
  | Num _, _ => Lt
  | Str _, Num _ => Gt
  | Str s, Str t => String.compare s t
  | Str _, NaN => Lt
  | NaN, NaN => Eq
  | NaN, _ => Gt
  end.

Definition label_compare (a b : label) : comparison :=
  match a, b with
  | Pos i, Pos j => Nat.compare i j
  | Pos _, _ => Lt
  | Stamp _, Pos _ => Gt
  | Stamp s, Stamp t => Z.compare s t
  | Stamp _, NaT => Lt
  | NaT, NaT => Eq
  | NaT, _ => Gt
  end.

Definition isnat (l : label) : bool :=
  match l with
  | NaT => true
  | _ => false
  end.

#[export] Instance cell_Key : Key cell :=
  {| kcmp := cell_compare; kna := isna |}.

#[export] Instance label_Key : Key label :=
  {| kcmp := label_compare; kna := isnat |}.

#[export] Instance pair_Key {A B} `{Key A} `{Key B} : Key (A * B) :=
  {| kcmp := fun x y =>
       match kcmp (fst x) (fst y) with
       | Eq => kcmp (snd x) (snd y)
       | c => c
       end;
     kna := fun x => kna (fst x) || kna (snd x) |}.

Section SortUniq.
Context {K : Type} `{Key K}.

(** Insertion into an ordered duplicate-free list; of two equal keys the
    one met first in the data is kept. *)
Fixpoint insert_uniq (x : K) (l : list K) : list K :=
  match l with
  | [] => [x]
  | y :: l' =>
      match kcmp x y with
      | Lt => x :: l
      | Eq => x :: l'
      | Gt => y :: insert_uniq x l'
      end
  end.

Definition sort_uniq (l : list K) : list K :=
  fold_right insert_uniq [] l.

Fixpoint lookup_key {V} (k : K) (l : list (K * V)) : option V :=
  match l with
  | [] => None
  | (k', v) :: l' => if keq k' k then Some v else lookup_key k l'
  end.

(** The rows a grouping keeps, and the values of one group. *)
Definition live (keys : list K) (vals : list cell) : list (K * cell) :=
  filter (fun p => negb (kna (fst p))) (combine keys vals).

Definition group_of (k : K) (kv : list (K * cell)) : list cell :=
  map snd (filter (fun p => keq (fst p) k) kv).

(** [groupby(keys)[values].sum()]: rows with a null key are dropped, the
    groups come in key order. *)
Definition groupby_sum (keys : list K) (vals : list cell)
  : result (list (K * cell)) :=
  let kv := live keys vals in
  traverse
    (fun k => rbind (py_sum (group_of k kv)) (fun s => Ok (k, s)))
    (sort_uniq (map fst kv)).

(** Strictly before, in key order. *)
Definition klt (a b : K) : Prop := kcmp a b = Lt.
End SortUniq.

(** ** Frames *)

Record DataFrame : Type := mkDF {
  columns : list string;
  rows : list (label * list cell)
}.

Definition wf_frame (df : DataFrame) : Prop :=
  Forall (fun r => List.length (snd r) = List.length (columns df)) (rows df).

Fixpoint find_col (name : string) (cols : list string) : option nat :=
  match cols with
  | [] => None
  | c :: cols' =>
      if String.eqb c name then Some O
      else option_map S (find_col name cols')
  end.

Definition has_col (name : string) (df : DataFrame) : bool :=
  match find_col name (columns df) with
  | Some _ => true
  | None => false
  end.

(** The cell of a row under a column label ([NaN] when the label is unknown). *)
Definition at_col (cols : list string) (name : string) (r : list cell) : cell :=
  match find_col name cols with
  | Some p => nth p r NaN
  | None => NaN
  end.

(** [df[name]] *)
Definition getitem (df : DataFrame) (name : string) : result (list cell) :=
  match find_col name (columns df) with
  | Some p => Ok (map (fun r => nth p (snd r) NaN) (rows df))
  | None => Raise (KeyError name)
  end.

Fixpoint upd (p : nat) (v : cell) (r : list cell) : list cell :=
  match r, p with
  | [], _ => []
  | _ :: r', O => v :: r'
  | c :: r', S p' => c :: upd p' v r'
  end.

(** [df[name] = col], the column being as long as the frame. *)
Definition setitem (df : DataFrame) (name : string) (col : list cell)
  : DataFrame :=
  match find_col name (columns df) with
  | Some p =>
      mkDF (columns df)
           (map (fun rv => (fst (fst rv), upd p (snd rv) (snd (fst rv))))
                (combine (rows df) col))
  | None =>
      mkDF (columns df ++ [name])
           (map (fun rv => (fst (fst rv), snd (fst rv) ++ [snd rv]))
                (combine (rows df) col))
  end.

(** [df.index = idx] *)
Definition set_index (df : DataFrame) (idx : list label) : DataFrame :=
  mkDF (columns df)
       (map (fun lr => (fst lr, snd (snd lr))) (combine idx (rows df))).

Definition keep_cols (name : string) (cols : list string) (r : list cell)
  : list cell :=
  map snd (filter (fun cv => negb (String.eqb (fst cv) name)) (combine cols r)).

(** [df.drop(columns=[name])] *)
Definition drop_column (df : DataFrame) (name : string) : result DataFrame :=
  if has_col name df then
    Ok (mkDF (filter (fun c => negb (String.eqb c name)) (columns df))
             (map (fun r => (fst r, keep_cols name (columns df) (snd r)))
                  (rows df)))
  else Raise (KeyError name).

Fixpoint assoc (k : string) (m : list (string * string)) : option string :=
  match m with
  | [] => None
  | (k', v) :: m' => if String.eqb k' k then Some v else assoc k m'
  end.

Definition relabel (m : list (string * string)) (c : string) : string :=
  match assoc c m with
  | Some c' => c'
  | None => c
  end.

(** [df.rename(columns=m)]: labels without an entry stay. *)
Definition rename (m : list (string * string)) (df : DataFrame) : DataFrame :=
  mkDF (map (relabel m) (columns df)) (rows df).

Definition fill_cell (v c : cell) : cell :=
  if isna c then v else c.

(** [df.fillna(v)]: every null cell of every column. *)
Definition fillna (v : cell) (df : DataFrame) : DataFrame :=
  mkDF (columns df)
       (map (fun r => (fst r, map (fill_cell v) (snd r))) (rows df)).

Definition replace_cell (m : list (string * string)) (c : cell) : cell :=
  match c with
  | Str s => Str (relabel m s)
  | _ => c
  end.

(** [series.replace(m)] *)
Definition replace (m : list (string * string)) (col : list cell)
  : list cell :=
  map (replace_cell m) col.

Definition isin_cell (vals : list string) (c : cell) : bool :=
  match c with
  | Str s => existsb (String.eqb s) vals
  | _ => false
  end.

(** [series.isin(vals)] *)
Definition isin (vals : list string) (col : list cell) : list bool :=
  map (isin_cell vals) col.

(** [df[mask]] *)
Definition select (df : DataFrame) (mask : list bool) : DataFrame :=
  mkDF (columns df)
       (map fst (filter (fun rb => snd rb) (combine (rows df) mask))).

(** ** Views *)

Record SummaryRow : Type := mkRow {
  sr_inv : cell;
  sr_sector : cell;
  sr_net : cell
}.

(** A pivoted table: one row of cells per index label, one cell per column
    key in each. *)
Record Pivot (K : Type) : Type := mkPivot {
  pv_index : list label;
  pv_columns : list K;
  pv_values : list (list cell)
}.

Arguments mkPivot {K} _ _ _.
Arguments pv_index {K} _.
Arguments pv_columns {K} _.
Arguments pv_values {K} _.

Definition or_nan (o : option cell) : cell :=
  match o with
  | Some c => c
  | None => NaN
  end.

(** [unstack]: the entries of a two-level grouping spread over the ordered
    labels of the first level and the ordered keys of the second; a pair
    without an entry is null. *)
Definition unstack {K} `{Key K} (agged : list (label * K * cell)) : Pivot K :=
  let index := sort_uniq (map (fun e => fst (fst e)) agged) in
  let keys := sort_uniq (map (fun e => snd (fst e)) agged) in
  mkPivot index keys
    (map (fun d => map (fun k => or_nan (lookup_key (d, k) agged)) keys)
         index).

(** [pivot_table(values, index, columns, aggfunc='sum')]: the sums of the
    (index, column) groups, unstacked. *)
Definition pivot_table {K} `{Key K}
  (idx : list label) (cols : list K) (vals : list cell) : result (Pivot K) :=
  rbind (groupby_sum (combine idx cols) vals) (fun agged =>
    Ok (unstack agged)).

Definition pivot_fillna {K} (v : cell) (p : Pivot K) : Pivot K :=
  mkPivot (pv_index p) (pv_columns p)
          (map (map (fill_cell v)) (pv_values p)).

Definition pivot_scale {K} (p : Pivot K) : result (Pivot K) :=
  rbind (traverse (traverse scale_cell) (pv_values p)) (fun vs =>
    Ok (mkPivot (pv_index p) (pv_columns p) vs)).

Definition series_scale {K} (s : list (K * cell)) : result (list (K * cell)) :=
  traverse (fun kv => rbind (scale_cell (snd kv)) (fun v => Ok (fst kv, v))) s.

Definition summary_of (s : list (cell * cell * cell)) : list SummaryRow :=
  map (fun e => mkRow (fst (fst e)) (snd (fst e)) (snd e)) s.

Definition summary_scale (s : list SummaryRow) : result (list SummaryRow) :=
  traverse (fun r => rbind (scale_cell (sr_net r))
                           (fun v => Ok (mkRow (sr_inv r) (sr_sector r) v))) s.

(** The place of a key in a list of keys. *)
Fixpoint position {K} `{Key K} (k : K) (l : list K) : option nat :=
  match l with
  | [] => None
  | k' :: l' => if keq k' k then Some O else option_map S (position k l')
  end.

(** The cell of a pivot at an index label and a column key. *)
Definition pivot_get {K} `{Key K} (p : Pivot K) (d : label) (k : K)
  : option cell :=
  match position d (pv_index p), position k (pv_columns p) with
  | Some i, Some j =>
      match nth_error (pv_values p) i with
      | Some r => nth_error r j
      | None => None
      end
  | _, _ => None
  end.

(** ** Ranking helpers *)

(** Python's [<] on two non-null cells. *)
Definition py_lt (a b : cell) : result bool :=
  match a, b with
  | Num p, Num q => Ok match (p ?= q)%Q with Lt => true | _ => false end
  | Str s, Str t => Ok (String.ltb s t)
  | _, _ => Raise TypeError
  end.

Fixpoint insert_desc (x : SummaryRow) (l : list SummaryRow)
  : result (list SummaryRow) :=
  match l with
  | [] => Ok [x]
  | y :: l' =>
      rbind (py_lt (sr_net x) (sr_net y)) (fun b =>
        if b then rbind (insert_desc x l') (fun l'' => Ok (y :: l''))
        else Ok (x :: l))
  end.

Fixpoint sort_desc (l : list SummaryRow) : result (list SummaryRow) :=
  match l with
  | [] => Ok []
  | x :: l' => rbind (sort_desc l') (insert_desc x)
  end.

(** [sort_values(by='NET R$', ascending=False)]: rows with a null value go
    last, the others are compared pairwise. *)
Definition sort_values_desc (l : list SummaryRow) : result (list SummaryRow) :=
  rbind (sort_desc (filter (fun r => negb (isna (sr_net r))) l)) (fun s =>
    Ok (s ++ filter (fun r => isna (sr_net r)) l)).

(** [df.head(n)] and [df.tail(n)] for any integer [n]. *)
Definition head {A} (n : Z) (l : list A) : list A :=
  if (0 <=? n)%Z then firstn (Z.to_nat n) l
  else firstn (List.length l - Z.to_nat (- n)) l.

Definition tail {A} (n : Z) (l : list A) : list A :=
  if (0 <=? n)%Z then skipn (List.length l - Z.to_nat n) l
  else skipn (Z.to_nat (- n)) l.

(** ** The dashboard object *)

Record Dashboard : Type := mkDash {
  data : option DataFrame;
  net_sector_summary : option (list SummaryRow);
  daily_evolution : option (Pivot cell);
  evol_sector : option (Pivot (cell * cell));
  total_net_by_type : option (list (cell * cell));
  volume_total_by_type : option (list (cell * cell))
}.

(** [__init__] *)
Definition init : Dashboard := mkDash None None None None None None.

(** The five views, in the order [_process_data] assigns them. *)
Definition views (st : Dashboard) :=
  (net_sector_summary st, total_net_by_type st, volume_total_by_type st,
   daily_evolution st, evol_sector st).

(** A method: an outcome and the object as the method leaves it. *)
Definition M (A : Type) : Type := Dashboard -> result A * Dashboard.

Definition ret {A} (a : A) : M A := fun st => (Ok a, st).

Definition bind {A B} (m : M A) (f : A -> M B) : M B :=
  fun st =>
    match m st with
    | (Ok a, st') => f a st'
    | (Raise e, st') => (Raise e, st')
    end.

Definition lift {A} (r : result A) : M A := fun st => (r, st).

Notation "x <- m ;; k" := (bind m (fun x => k))
  (at level 61, m at next level, right associativity).
Notation "m ;;; k" := (bind m (fun _ => k))
  (at level 61, right associativity).

Definition get_data : M DataFrame :=
  fun st =>
    match data st with
    | Some df => (Ok df, st)
    | None => (Raise TypeError, st)
    end.

Definition with_data (df : DataFrame) (st : Dashboard) : Dashboard :=
  mkDash (Some df) (net_sector_summary st) (daily_evolution st)
         (evol_sector st) (total_net_by_type st) (volume_total_by_type st).

Definition set_data (df : DataFrame) : M unit :=
  fun st => (Ok tt, with_data df st).

Definition set_net_sector_summary (v : list SummaryRow) : M unit :=
  fun st =>
    (Ok tt, mkDash (data st) (Some v) (daily_evolution st) (evol_sector st)
                   (total_net_by_type st) (volume_total_by_type st)).

Definition set_daily_evolution (v : Pivot cell) : M unit :=
  fun st =>
    (Ok tt, mkDash (data st) (net_sector_summary st) (Some v) (evol_sector st)
                   (total_net_by_type st) (volume_total_by_type st)).

Definition set_evol_sector (v : Pivot (cell * cell)) : M unit :=
  fun st =>
    (Ok tt, mkDash (data st) (net_sector_summary st) (daily_evolution st)
                   (Some v) (total_net_by_type st) (volume_total_by_type st)).

Definition set_total_net_by_type (v : list (cell * cell)) : M unit :=
  fun st =>
    (Ok tt, mkDash (data st) (net_sector_summary st) (daily_evolution st)
                   (evol_sector st) (Some v) (volume_total_by_type st)).

Definition set_volume_total_by_type (v : list (cell * cell)) : M unit :=
  fun st =>
    (Ok tt, mkDash (data st) (net_sector_summary st) (daily_evolution st)
                   (evol_sector st) (total_net_by_type st) (Some v)).

Definition column_mapping : list (string * string) :=
  [("CD_SETOR", "SECTOR"); ("CD_SUBSETOR", "SUB-SECTOR");
   ("CD_SEGMENTO", "SEGMENT"); ("CONTA", "INV TYPE");
   ("VL_COMPRA", "BUY R$"); ("VL_VENDA", "SELL R$");
   ("VL_NET", "NET R$"); ("VL_TOTAL", "TOTAL")].

Definition sector_mapping : list (string * string) :=
  [("FII", "Others"); ("IBOV", "Others")].

Definition investor_mapping : list (string * string) :=
  [("ESTRANGEIRO", "FOREIGNERS"); ("LOCAL INSTITUCIONAL", "LOCALS");
   ("GENIAL", "RETAIL")].

Definition valid_investors : list string :=
  ["LOCALS"; "FOREIGNERS"; "RETAIL"].

(** [_process_data], one block per view. *)
Definition _process_data : M unit :=
  df <- get_data ;;
  inv <- lift (getitem df "INV TYPE") ;;
  sec <- lift (getitem df "SECTOR") ;;
  net <- lift (getitem df "NET R$") ;;
  sums <- lift (groupby_sum (combine inv sec) net) ;;
  set_net_sector_summary (summary_of sums) ;;;
  scaled <- lift (summary_scale (summary_of sums)) ;;
  set_net_sector_summary scaled ;;;
  tot <- lift (rbind (groupby_sum inv net) series_scale) ;;
  set_total_net_by_type tot ;;;
  total <- lift (getitem df "TOTAL") ;;
  vol <- lift (rbind (groupby_sum inv total) series_scale) ;;
  set_volume_total_by_type vol ;;;
  daily <- lift (pivot_table (map fst (rows df)) inv net) ;;
  set_daily_evolution daily ;;;
  set_daily_evolution (pivot_fillna (Num 0) daily) ;;;
  daily' <- lift (pivot_scale (pivot_fillna (Num 0) daily)) ;;
  set_daily_evolution daily' ;;;
  evol <- lift (pivot_table (map fst (rows df)) (combine inv sec) net) ;;
  set_evol_sector evol ;;;
  set_evol_sector (pivot_fillna (Num 0) evol) ;;;
  evol' <- lift (pivot_scale (pivot_fillna (Num 0) evol)) ;;
  set_evol_sector evol'.

(** [get_top_bottom_sectors(inv_type, n)] *)
Definition get_top_bottom_sectors (st : Dashboard) (inv_type : cell) (n : Z)
  : result (list SummaryRow * list SummaryRow) :=
  match net_sector_summary st with
  | None => Raise TypeError
  | Some summary =>
      rbind (sort_values_desc
               (filter (fun r => cell_eqb (sr_inv r) inv_type) summary))
            (fun filtered => Ok (head n filtered, tail n filtered))
  end.

(** [_clean_data], second block: renaming, null filling and the two
    value remappings. *)
Definition _clean_data_remap : M unit :=
  df <- get_data ;;
  set_data (rename column_mapping df) ;;;
  df <- get_data ;;
  set_data (fillna (Str "Others") df) ;;;
  df <- get_data ;;
  sec <- lift (getitem df "SECTOR") ;;
  set_data (setitem df "SECTOR" (replace sector_mapping sec)) ;;;
  df <- get_data ;;
  inv <- lift (getitem df "INV TYPE") ;;
  set_data (setitem df "INV TYPE" (replace investor_mapping inv)).

(** [_clean_data], last block: only the three investor types stay. *)
Definition _clean_data_filter : M unit :=
  df <- get_data ;;
  inv <- lift (getitem df "INV TYPE") ;;
  set_data (select df (isin valid_investors inv)).

Section Pipeline.
(** The conversion of one non-null cell of the date column to a time stamp
    (nanoseconds), [None] where the library rejects it. *)
Variable to_datetime_scalar : cell -> option Z.

Definition to_datetime_cell (c : cell) : result label :=
  match c with
  | NaN => Ok NaT
  | _ =>
      match to_datetime_scalar c with
      | Some t => Ok (Stamp t)
      | None => Raise ValueError
      end
  end.

(** [pd.to_datetime(series)] *)
Definition to_datetime (col : list cell) : result (list label) :=
  traverse to_datetime_cell col.

(** [_clean_data], first block: the trade date becomes the row label
    and leaves the columns. *)
Definition _clean_data_index : M unit :=
  df <- get_data ;;
  dates <- lift (getitem df "DT_NEGOCIO") ;;
  idx <- lift (to_datetime dates) ;;
  set_data (set_index df idx) ;;;
  df <- get_data ;;
  df' <- lift (drop_column df "DT_NEGOCIO") ;;
  set_data df'.

(** [_clean_data]: the frame in [self.data] is updated block by block. *)
Definition _clean_data : M unit :=
  _clean_data_index ;;;
  _clean_data_remap ;;;
  _clean_data_filter.

(** [load_data]; [src] is the outcome of locating and reading the newest
    workbook. *)
Definition load_data (src : result DataFrame) : Dashboard -> bool * Dashboard :=
  fun st =>
    match (raw <- lift src ;;
           set_data raw ;;;
           _clean_data ;;;
           _process_data) st with
    | (Ok _, st') => (true, st')
    | (Raise _, st') => (false, st')
    end.
End Pipeline.

(** A conversion for worked examples: a number is its own stamp. *)
Definition stamp_of_number (c : cell) : option Z :=
  match c with
  | Num q => Some (Qfloor q)
  | _ => None
  end.

Definition D1 : cell := Num 1.
Definition D2 : cell := Num 2.

(** The scenario of the specification, with all nine columns. *)
Definition scenario_raw : DataFrame :=
  mkDF ["DT_NEGOCIO"; "CD_SETOR"; "CD_SUBSETOR"; "CD_SEGMENTO"; "CONTA";
        "VL_COMPRA"; "VL_VENDA"; "VL_NET"; "VL_TOTAL"]
       [(Pos 0, [D1; Str "BANK"; NaN; NaN; Str "GENIAL";
                 Num 3500000; Num 1500000; Num 2000000; Num 5000000]);
        (Pos 1, [D1; Str "FII"; NaN; NaN; Str "ESTRANGEIRO";
                 Num 0; Num 1000000; Num (-1000000); Num 1000000]);
        (Pos 2, [D2; Str "BANK"; NaN; NaN; Str "LOCAL INSTITUCIONAL";
                 Num 500000; Num 0; Num 500000; Num 500000])].

(** ** Reference quantities

    The amount a cell stands for, and the plain sum of the amounts of the
    rows under one key: what a view's entry is compared with. *)

Definition num (c : cell) : Q :=
  match c with
  | Num q => q
  | _ => 0%Q
  end.

Definition qsum (l : list Q) : Q := fold_right Qplus 0%Q l.

Definition amount_under {K} `{Key K} (k : K) (kv : list (K * cell)) : Q :=
  qsum (map (fun p => num (snd p)) (filter (fun p => keq (fst p) k) kv)).

(** The frame the first block of [_clean_data] leaves, [idx] being the
    converted dates. *)
Definition indexed_frame (df : DataFrame) (idx : list label) : DataFrame :=
  mkDF (filter (fun c => negb (String.eqb c "DT_NEGOCIO")) (columns df))
       (map (fun lr => (fst lr, keep_cols "DT_NEGOCIO" (columns df) (snd (snd lr))))
            (combine idx (rows df))).

(** What the second block of [_clean_data] does to one row, the renamed
    sector and investor columns standing at positions [pS] and [pI]. *)
Definition remap_row (pS pI : nat) (r : list cell) : list cell :=
  let r1 := map (fill_cell (Str "Others")) r in
  let r2 := upd pS (replace_cell sector_mapping (nth pS r1 NaN)) r1 in
  upd pI (replace_cell investor_mapping (nth pI r2 NaN)) r2.

Definition remap_frame (pS pI : nat) (df : DataFrame) : DataFrame :=
  mkDF (map (relabel column_mapping) (columns df))
       (map (fun r => (fst r, remap_row pS pI (snd r))) (rows df)).

(** The rows the last block keeps. *)
Definition valid_row (pI : nat) (r : label * list cell) : bool :=
  isin_cell valid_investors (nth pI (snd r) NaN).

(** A canonical table: rectangular, without a null cell, every row of one
    of the three investor types. *)
Definition canonical (df : DataFrame) : Prop :=
  wf_frame df /\
  Forall (fun r =>
            Forall (fun c => isna c = false) (snd r) /\
            isin_cell valid_investors
                      (at_col (columns df) "INV TYPE" (snd r)) = true)
         (rows df).

(** The five views [_process_data] computes from a frame. *)
Definition views_of (df : DataFrame)
  (v : option (list SummaryRow) * option (list (cell * cell))
       * option (list (cell * cell)) * option (Pivot cell)
       * option (Pivot (cell * cell))) : Prop :=
  exists inv sec net total sums scaled s1 tot s2 vol daily daily' evol evol',
    getitem df "INV TYPE" = Ok inv /\
    getitem df "SECTOR" = Ok sec /\
    getitem df "NET R$" = Ok net /\
    getitem df "TOTAL" = Ok total /\
    groupby_sum (combine inv sec) net = Ok sums /\
    summary_scale (summary_of sums) = Ok scaled /\
    groupby_sum inv net = Ok s1 /\ series_scale s1 = Ok tot /\
    groupby_sum inv total = Ok s2 /\ series_scale s2 = Ok vol /\
    pivot_table (map fst (rows df)) inv net = Ok daily /\
    pivot_scale (pivot_fillna (Num 0) daily) = Ok daily' /\
    pivot_table (map fst (rows df)) (combine inv sec) net = Ok evol /\
    pivot_scale (pivot_fillna (Num 0) evol) = Ok evol' /\
    v = (Some scaled, Some tot, Some vol, Some daily', Some evol').

(** The object after [_clean_data] ran on the scenario. *)
Definition scenario_clean : Dashboard :=
  Eval vm_compute in
    snd (_clean_data stamp_of_number (with_data scenario_raw init)).

(** A table whose only row comes from an account outside the three types. *)
Definition unknown_raw : DataFrame :=
  mkDF ["DT_NEGOCIO"; "CD_SETOR"; "CD_SUBSETOR"; "CD_SEGMENTO"; "CONTA";
        "VL_COMPRA"; "VL_VENDA"; "VL_NET"; "VL_TOTAL"]
       [(Pos 0, [D1; Str "BANK"; NaN; NaN; Str "UNKNOWN_DESK";
                 Num 700000; Num 0; Num 700000; Num 700000])].

(** The scenario with the net amount of its first row absent. *)
Definition null_net_raw : DataFrame :=
  mkDF ["DT_NEGOCIO"; "CD_SETOR"; "CD_SUBSETOR"; "CD_SEGMENTO"; "CONTA";
        "VL_COMPRA"; "VL_VENDA"; "VL_NET"; "VL_TOTAL"]
       [(Pos 0, [D1; Str "BANK"; NaN; NaN; Str "GENIAL";
                 Num 3500000; Num 1500000; NaN; Num 5000000]);
        (Pos 1, [D1; Str "FII"; NaN; NaN; Str "ESTRANGEIRO";
                 Num 0; Num 1000000; Num (-1000000); Num 1000000])].

(** The objects [_clean_data] leaves on the two other tables, the second one
    before and after the filter. *)
Definition null_net_clean : Dashboard :=
  Eval vm_compute in
    snd (_clean_data stamp_of_number (with_data null_net_raw init)).

Definition unknown_remapped : Dashboard :=
  Eval vm_compute in
    snd ((_clean_data_index stamp_of_number ;;; _clean_data_remap)
           (with_data unknown_raw init)).

Definition unknown_pre : DataFrame :=
  Eval vm_compute in
    match data unknown_remapped with
    | Some df => df
    | None => mkDF [] []
    end.

(** The canonical table of the scenario, and the object once
    [_process_data] has run on it. *)
Definition scenario_table : DataFrame :=
  Eval vm_compute in
    match data scenario_clean with
    | Some df => df
    | None => mkDF [] []
    end.

Definition scenario_done : Dashboard :=
  Eval vm_compute in snd (_process_data scenario_clean).

(** A table whose second row has no trade date. *)
Definition undated_raw : DataFrame :=
  mkDF ["DT_NEGOCIO"; "CD_SETOR"; "CD_SUBSETOR"; "CD_SEGMENTO"; "CONTA";
        "VL_COMPRA"; "VL_VENDA"; "VL_NET"; "VL_TOTAL"]
       [(Pos 0, [D1; Str "BANK"; NaN; NaN; Str "LOCAL INSTITUCIONAL";
                 Num 500000; Num 0; Num 500000; Num 500000]);
        (Pos 1, [NaN; Str "BANK"; NaN; NaN; Str "GENIAL";
                 Num 3500000; Num 1500000; Num 2000000; Num 5000000])].

Definition undated_done : Dashboard :=
  Eval vm_compute in snd (load_data stamp_of_number (Ok undated_raw) init).

(** A table without the total column. *)
Definition no_total_raw : DataFrame :=
  mkDF ["DT_NEGOCIO"; "CD_SETOR"; "CD_SUBSETOR"; "CD_SEGMENTO"; "CONTA";
        "VL_COMPRA"; "VL_VENDA"; "VL_NET"]
       [(Pos 0, [D2; Str "ENERGY"; NaN; NaN; Str "GENIAL";
                 Num 9000000; Num 0; Num 9000000])].

Definition no_total_first : Dashboard :=
  Eval vm_compute in snd (load_data stamp_of_number (Ok no_total_raw) init).

Definition no_total_second : Dashboard :=
  Eval vm_compute in
    snd (load_data stamp_of_number (Ok no_total_raw) scenario_done).

(** Not below, by net amount: the order of a descending sort. *)
Definition ge_net (a b : SummaryRow) : Prop :=
  (num (sr_net b) <= num (sr_net a))%Q.

(** A summary as scaling leaves it: every net amount a number. *)
Definition numeric_summary (s : list SummaryRow) : Prop :=
  Forall (fun r => is_num (sr_net r) = true) s.

(** A summary with a tie, and the object holding it. *)
Definition tie_summary : list SummaryRow :=
  [mkRow (Str "LOCALS") (Str "BANK") (Num 1);
   mkRow (Str "LOCALS") (Str "ENERGY") (Num 3);
   mkRow (Str "LOCALS") (Str "RETAILERS") (Num 1);
   mkRow (Str "RETAIL") (Str "BANK") (Num 7)].

Definition tie_board : Dashboard :=
  mkDash None (Some tie_summary) None None None None.

(** ** Further reference notions *)




(** * The workbook, the charts and the page

    The rest of [GenialDashboard]: the choice of the workbook in
    [load_data], the three chart methods, [_create_summary_section],
    [create_app] and its callback [update_sector_chart].

    Modelling choices.
    - The download folder is the list of its entries as the directory scan
      yields them, each with its modification time.
    - A figure is the list of its traces with the title, the axis title and
      the height of its layout; a page element is its tag with its text or
      its children.  The fixed colours, fonts, margins and hover templates
      that the methods pass along are constants of the source without effect
      on what is computed and are left out; the colour of a trace, which
      depends on the data, is kept.
    - What is raised outside the pipeline has its own type, the pipeline's
      exceptions being one case of it. *)

(** ** The newest workbook *)

Definition ends_with (suffix s : string) : bool :=
  String.eqb
    (substring (String.length s - String.length suffix)
               (String.length suffix) s)
    suffix.

(** A name matched by the pattern [Brokeragem*.xlsx]. *)
Definition glob_match (name : string) : bool :=
  prefix "Brokeragem" name && ends_with ".xlsx" name
  && (String.length "Brokeragem" + String.length ".xlsx"
      <=? String.length name)%nat.

(** [max(items, key=...)] from a first item on: a later item replaces the
    best one only when its key is strictly greater. *)
Fixpoint py_max_by {A} (key : A -> Q) (best : A) (l : list A) : A :=
  match l with
  | [] => best
  | x :: l' =>
      if Qle_bool (key x) (key best) then py_max_by key best l'
      else py_max_by key x l'
  end.

(** Lines 26-32 of [load_data]: the matching entries of the folder, and the
    one modified last. *)
Definition excel_files (folder : list (string * Q)) : list (string * Q) :=
  filter (fun f => glob_match (fst f)) folder.

Definition latest_file (folder : list (string * Q)) : result string :=
  match excel_files folder with
  | [] => Raise FileNotFoundError
  | f :: fs => Ok (fst (py_max_by snd f fs))
  end.

Section Folder.
Variable to_datetime_scalar : cell -> option Z.
(** [pd.read_excel(path, engine='openpyxl')] *)
Variable read_excel : string -> result DataFrame.

(** [load_data] from the folder on. *)
Definition load_data_from (folder : list (string * Q))
  : Dashboard -> bool * Dashboard :=
  load_data to_datetime_scalar (rbind (latest_file folder) read_excel).
End Folder.

(** ** Outcomes of the page methods *)

Inductive py_exn : Type :=
| Pipeline (e : exn)
| KeyErrorOf (k : list cell)
| IndexError
| AttributeError.

Inductive attempt (A : Type) : Type :=
| Built (a : A)
| Crash (e : py_exn).

Arguments Built {A} _.
Arguments Crash {A} _.

Definition abind {A B} (a : attempt A) (f : A -> attempt B) : attempt B :=
  match a with
  | Built x => f x
  | Crash e => Crash e
  end.

Definition of_result {A} (r : result A) : attempt A :=
  match r with
  | Ok a => Built a
  | Raise e => Crash (Pipeline e)
  end.

Fixpoint atraverse {A B} (f : A -> attempt B) (l : list A) : attempt (list B) :=
  match l with
  | [] => Built []
  | x :: l' =>
      abind (f x) (fun y => abind (atraverse f l') (fun ys => Built (y :: ys)))
  end.

(** ** Figures *)

Inductive Trace : Type :=
| Bar (name : cell) (x y : list cell) (marker_color : string)
| Scatter (name : cell) (x : list label) (y : list cell) (line_color : string)
| Pie (labels values : list cell).

Record Figure : Type := mkFigure {
  fig_traces : list Trace;
  fig_title : string;
  fig_yaxis_title : option string;
  fig_height : Z
}.

Definition colors : list (string * string) :=
  [("LOCALS", "#1f77b4"); ("FOREIGNERS", "#ff7f0e"); ("RETAIL", "#2ca02c")].

(** [colors.get(key, '#d62728')] *)
Definition colors_get (key : cell) : string :=
  match key with
  | Str s =>
      match assoc s colors with
      | Some c => c
      | None => "#d62728"
      end
  | _ => "#d62728"
  end.

(** [unique()]: the values in the order of their first appearance. *)
Fixpoint unique_from {K} `{Key K} (seen l : list K) : list K :=
  match l with
  | [] => []
  | x :: l' =>
      if existsb (keq x) seen then unique_from seen l'
      else x :: unique_from (x :: seen) l'
  end.

Definition unique {K} `{Key K} (l : list K) : list K := unique_from [] l.

(** [pivot[key]]: the column of a pivot under one of its keys. *)
Definition pivot_column {K} `{Key K} (p : Pivot K) (k : K)
  : option (list cell) :=
  match position k (pv_columns p) with
  | Some j => Some (map (fun r => nth j r NaN) (pv_values p))
  | None => None
  end.

(** [create_net_flow_chart] *)
Definition create_net_flow_chart (st : Dashboard) : attempt Figure :=
  match net_sector_summary st with
  | None => Crash (Pipeline TypeError)
  | Some summary =>
      Built
        (mkFigure
           (map (fun inv =>
                   let data_inv :=
                     filter (fun r => cell_eqb (sr_inv r) inv) summary in
                   Bar inv (map sr_sector data_inv) (map sr_net data_inv)
                       (colors_get inv))
                (unique (map sr_inv summary)))
           "Net Flow by Investor Type and Sector" (Some "R$ Million") 500)
  end.

(** [create_daily_evolution_chart] *)
Definition create_daily_evolution_chart (st : Dashboard) : attempt Figure :=
  match daily_evolution st with
  | None => Crash AttributeError
  | Some p =>
      abind
        (atraverse
           (fun col =>
              match pivot_column p col with
              | Some y => Built (Scatter col (pv_index p) y (colors_get col))
              | None => Crash (KeyErrorOf [col])
              end)
           (pv_columns p))
        (fun traces =>
           Built (mkFigure traces "Daily Net Flow by Investor Type"
                           (Some "R$ Million") 400))
  end.

(** [create_volume_pie_chart] *)
Definition create_volume_pie_chart (st : Dashboard) : attempt Figure :=
  match volume_total_by_type st with
  | None => Crash AttributeError
  | Some s =>
      Built (mkFigure [Pie (map fst s) (map snd s)]
                      "Share of Total Traded Volume" None 400)
  end.

(** ** The page *)

#[local] Unset Elimination Schemes.
Inductive Html : Type :=
| H1 (text : string)
| H3 (text : string)
| H4 (text : string)
| H5 (text : string)
| P (text : string)
| Br
| Div (children : list Html)
| Graph (figure : Figure)
| GraphSlot (id : string)
| Dropdown (id : string) (options : list (cell * cell)) (value : cell)
| Tabs (id value : string) (children : list Html)
| Tab (label value : string) (children : list Html).
#[local] Set Elimination Schemes.

(** [series[key]] for a text key. *)
Definition series_get (s : list (cell * cell)) (k : string) : result cell :=
  match lookup_key (Str k) s with
  | Some v => Ok v
  | None => Raise (KeyError k)
  end.

(** [", ".join(values)]: every value has to be a text. *)
Definition py_join (sep : string) (l : list cell) : result string :=
  rbind (traverse (fun c => match c with
                            | Str s => Ok s
                            | _ => Raise TypeError
                            end) l)
        (fun ss => Ok (String.concat sep ss)).

Section Page.
Variable to_datetime_scalar : cell -> option Z.
(** [format(x, ',.1f')] and [str(x)] of a number. *)
Variable format_1f : Q -> string.
Variable str_float : Q -> string.

Definition format_cell (c : cell) : result string :=
  match c with
  | Num q => Ok (format_1f q)
  | NaN => Ok "nan"
  | Str _ => Raise ValueError
  end.

(** [str(value)] of what the dropdown hands to the callback; [None] is a
    cleared selection. *)
Definition str_value (v : option cell) : string :=
  match v with
  | None => "None"
  | Some (Str s) => s
  | Some (Num q) => str_float q
  | Some NaN => "nan"
  end.

(** [_create_summary_section] *)
Definition _create_summary_section (st : Dashboard) : result Html :=
  rbind (get_top_bottom_sectors st (Str "LOCALS") 3) (fun locals =>
  rbind (get_top_bottom_sectors st (Str "FOREIGNERS") 3) (fun foreigners =>
  let (top_locals, bottom_locals) := locals in
  let (top_foreigners, bottom_foreigners) := foreigners in
  match total_net_by_type st with
  | None => Raise TypeError
  | Some totals =>
      rbind (rbind (series_get totals "LOCALS") format_cell) (fun l =>
      rbind (rbind (series_get totals "FOREIGNERS") format_cell) (fun f =>
      rbind (rbind (series_get totals "RETAIL") format_cell) (fun r =>
      rbind (py_join ", " (map sr_sector (head 3 top_locals)))
            (fun bought_l =>
      rbind (py_join ", " (map sr_sector (tail 3 bottom_locals)))
            (fun sold_l =>
      rbind (py_join ", " (map sr_sector (head 3 top_foreigners)))
            (fun bought_f =>
      rbind (py_join ", " (map sr_sector (tail 3 bottom_foreigners)))
            (fun sold_f =>
      Ok (Div
            [H4 "📋 Summary";
             Div
               [Div [H5 "Net Totals (R$ Million)";
                     P ("🏛️ Locals: R$ " ++ l ++ "M");
                     P ("🌍 Foreigners: R$ " ++ f ++ "M");
                     P ("🏪 Retail: R$ " ++ r ++ "M")];
                Div [H5 "Top Sectors (Locals)";
                     P ("📈 Most Bought: " ++ bought_l);
                     P ("📉 Most Sold: " ++ sold_l);
                     Br;
                     H5 "Top Sectors (Foreigners)";
                     P ("📈 Most Bought: " ++ bought_f);
                     P ("📉 Most Sold: " ++ sold_f)]]]))))))))
  end)).

(** The callback [update_sector_chart] of [create_app]. *)
Definition update_sector_chart (st : Dashboard) (selected_sector : option cell)
  : attempt Figure :=
  match evol_sector st with
  | None => Crash AttributeError
  | Some p =>
      abind
        (atraverse
           (fun inv =>
              match selected_sector with
              | None => Built []
              | Some s =>
                  if existsb (keq (inv, s)) (pv_columns p) then
                    match pivot_column p (inv, s) with
                    | Some y =>
                        Built [Scatter inv (pv_index p) y (colors_get inv)]
                    | None => Crash (KeyErrorOf [inv; s])
                    end
                  else Built []
              end)
           (unique (map fst (pv_columns p))))
        (fun traces =>
           Built (mkFigure (List.concat traces)
                           ("Daily Net Flow - " ++ str_value selected_sector)
                           (Some "R$ Million") 400))
  end.

Record App : Type := mkApp {
  app_title : string;
  app_layout : Html;
  app_callback : option (option cell -> attempt Figure)
}.

(** The page [create_app] shows when the load failed. *)
Definition error_page : Html :=
  Div [H1 "Erro ao carregar dados";
       P "Verifique se o arquivo Brokeragem*.xlsx está na pasta Downloads"].

(** [create_app]; [src] is the outcome of locating and reading the
    workbook, [now] the text of the current time. *)
Definition create_app (src : result DataFrame) (now : string)
  : Dashboard -> attempt App * Dashboard :=
  fun st0 =>
    let (loaded, st) := load_data to_datetime_scalar src st0 in
    if negb loaded then
      (Built (mkApp "Genial Investor Flow" error_page None), st)
    else
      (abind (create_net_flow_chart st) (fun net_flow =>
       abind (of_result (_create_summary_section st)) (fun summary =>
       abind (create_daily_evolution_chart st) (fun daily =>
       abind (create_volume_pie_chart st) (fun pie =>
       match evol_sector st with
       | None => Crash AttributeError
       | Some p =>
           let sectors := unique (map snd (pv_columns p)) in
           match sectors with
           | [] => Crash IndexError
           | first :: _ =>
               Built
                 (mkApp "Genial Investor Flow"
                    (Div
                       [Div [H1 "Genial - Investor Flow Dashboard";
                             P ("Dados atualizados em: " ++ now)];
                        Tabs "tabs" "tab-1"
                          [Tab "📊 Net by Investor Type" "tab-1"
                               [Div [Graph net_flow; summary]];
                           Tab "📈 Daily Evolution" "tab-2"
                               [Div [Graph daily; Graph pie]];
                           Tab "🔍 Sector Analysis" "tab-3"
                               [Div [H3 "Sector Flow Over Time";
                                     Dropdown "sector-dropdown"
                                       (map (fun s => (s, s)) sectors) first;
                                     GraphSlot "sector-evolution"]]]])
                    (Some (update_sector_chart st)))
           end
       end)))), st).
End Page.

(** The summary rows a bar trace draws. *)
Definition bar_rows (tr : Trace) : list SummaryRow :=
  match tr with
  | Bar name x y _ => map (fun p => mkRow name (fst p) (snd p)) (combine x y)
  | _ => []
  end.

(** The text of a text cell. *)
Definition cell_text (c : cell) : string :=
  match c with
  | Str s => s
  | _ => ""
  end.

(** The texts of the paragraphs of a page element, in document order. *)
Fixpoint paragraphs (h : Html) : list string :=
  match h with
  | P text => [text]
  | Div children => flat_map paragraphs children
  | Tabs _ _ children => flat_map paragraphs children
  | Tab _ _ children => flat_map paragraphs children
  | _ => []
  end.

(** The dropdowns of a page element, each with its options and its
    selected value. *)
Fixpoint dropdowns (h : Html) : list (list (cell * cell) * cell) :=
  match h with
  | Dropdown _ options value => [(options, value)]
  | Div children => flat_map dropdowns children
  | Tabs _ _ children => flat_map dropdowns children
  | Tab _ _ children => flat_map dropdowns children
  | _ => []
  end.

(** The scenario with no trade date in any row. *)
Definition dateless_raw : DataFrame :=
  mkDF (columns scenario_raw)
       [(Pos 0, [NaN; Str "BANK"; NaN; NaN; Str "GENIAL";
                 Num 3500000; Num 1500000; Num 2000000; Num 5000000]);
        (Pos 1, [NaN; Str "FII"; NaN; NaN; Str "ESTRANGEIRO";
                 Num 0; Num 1000000; Num (-1000000); Num 1000000]);
        (Pos 2, [NaN; Str "BANK"; NaN; NaN; Str "LOCAL INSTITUCIONAL";
                 Num 500000; Num 0; Num 500000; Num 500000])].

Definition dateless_done : Dashboard :=
  Eval vm_compute in snd (load_data stamp_of_number (Ok dateless_raw) init).

(** ** The entry point *)

(** What the script hands to [app.run], and what it printed before. *)
Record Run : Type := mkRun {
  run_app : App;
  run_debug : bool;
  run_host : string;
  run_port : Z;
  run_printed : list string
}.

Section Main.
Variable to_datetime_scalar : cell -> option Z.
Variable format_1f : Q -> string.
Variable str_float : Q -> string.
(** [int(text)], [None] where it raises, and [text.lower()]. *)
Variable py_int : string -> option Z.
Variable lower : string -> string.

(** The block under [if __name__ == '__main__'], up to the call of
    [app.run]; [environ] is the process environment. *)
Definition main (environ : string -> option string) (src : result DataFrame)
           (now : string) : attempt Run :=
  let (built, _) :=
    create_app to_datetime_scalar format_1f str_float src now init in
  abind built (fun app =>
  abind (match environ "PORT" with
         | None => Built 8050%Z
         | Some text =>
             match py_int text with
             | Some n => Built n
             | None => Crash (Pipeline ValueError)
             end
         end) (fun port =>
  let debug :=
    String.eqb (lower (match environ "DEBUG" with
                       | Some text => text
                       | None => "False"
                       end)) "true" in
  match environ "RENDER" with
  | Some (String _ _) => Built (mkRun app false "0.0.0.0" port [])
  | _ =>
      Built (mkRun app true "127.0.0.1" 8050
                   ["🚀 Dashboard iniciando...";
                    "📱 Acesse em: http://localhost:8050";
                    "⏹️  Para parar: Ctrl+C"])
  end)).
End Main.

(** * Properties *)

(** ** Key orders *)

Lemma string_compare_refl (s : string) : String.compare s s = Eq.
Proof. apply String_as_OT.cmp_eq. reflexivity. Qed.

Lemma string_compare_trans (a b c : string) :
  String.compare a b = Lt -> String.compare b c = Lt -> String.compare a c = Lt.
Proof.
  intros Hab Hbc.
  apply String_as_OT.cmp_lt. apply String_as_OT.cmp_lt in Hab, Hbc.
  eapply String_as_OT.lt_trans; eassumption.
Qed.

#[export] Instance cell_KeyLaws : KeyLaws cell.
Proof.
  split.
  - intros [|s|q]; simpl; auto using string_compare_refl.
    apply Qeq_alt. reflexivity.
  - intros [|s|p] [|t|q]; simpl; auto.
    + apply String.compare_antisym.
    + symmetry. apply Qcompare_antisym.
  - intros [|s|p] [|t|q] [|u|r]; simpl; try discriminate; auto.
    + apply string_compare_trans.
    + rewrite <- !Qlt_alt. apply Qlt_trans.
  - intros [|s|p] [|t|q] [|u|r]; simpl; try discriminate; auto.
    + intros E. apply String.compare_eq_iff in E. subst. reflexivity.
    + intros E. apply Qeq_alt in E. rewrite E. reflexivity.
  - intros [|s|p] [|t|q]; simpl; try discriminate; auto.
Qed.

#[export] Instance label_KeyLaws : KeyLaws label.
Proof.
  split.
  - intros [i|t|]; simpl; auto using Nat.compare_refl, Z.compare_refl.
  - intros [i|s|] [j|t|]; simpl; auto.
    + apply Nat.compare_antisym.
    + apply Z.compare_antisym.
  - intros [i|s|] [j|t|] [k|u|]; simpl; try discriminate; auto.
    + rewrite !Nat.compare_lt_iff. lia.
    + rewrite !Z.compare_lt_iff. lia.
  - intros [i|s|] [j|t|] [k|u|]; simpl; try discriminate; auto.
    + intros E. apply Nat.compare_eq_iff in E. subst. reflexivity.
    + intros E. apply Z.compare_eq_iff in E. subst. reflexivity.
  - intros [i|s|] [j|t|]; simpl; try discriminate; auto.
Qed.

Section KeyFacts.
Context {K : Type} `{KeyLaws K}.

Lemma kcmp_eq_sym (a b : K) : kcmp a b = Eq -> kcmp b a = Eq.
Proof. intros E. rewrite kcmp_antisym, E. reflexivity. Qed.

Lemma kcmp_eq_r (a b c : K) : kcmp a b = Eq -> kcmp c a = kcmp c b.
Proof.
  intros E. rewrite (kcmp_antisym a c), (kcmp_antisym b c).
  f_equal. apply kcmp_eq_l. assumption.
Qed.

Lemma kcmp_gt_lt (a b : K) : kcmp a b = Gt -> kcmp b a = Lt.
Proof. intros E. rewrite kcmp_antisym, E. reflexivity. Qed.

Lemma keq_refl (a : K) : keq a a = true.
Proof. unfold keq. rewrite kcmp_refl. reflexivity. Qed.

Lemma keq_true (a b : K) : keq a b = true <-> kcmp a b = Eq.
Proof. unfold keq. destruct (kcmp a b); split; congruence. Qed.

Lemma keq_sym (a b : K) : keq a b = keq b a.
Proof.
  unfold keq. rewrite (kcmp_antisym b a). destruct (kcmp b a); reflexivity.
Qed.

Lemma keq_l (a b c : K) : keq a b = true -> keq a c = keq b c.
Proof.
  intros E. apply keq_true in E. unfold keq.
  rewrite (kcmp_eq_l _ _ c E). reflexivity.
Qed.

Lemma keq_r (a b c : K) : keq a b = true -> keq c a = keq c b.
Proof.
  intros E. apply keq_true in E. unfold keq.
  rewrite (kcmp_eq_r _ _ c E). reflexivity.
Qed.

Lemma keq_kna (a b : K) : keq a b = true -> kna a = kna b.
Proof. intros E. apply kna_eq. apply keq_true. assumption. Qed.
End KeyFacts.

#[export] Instance pair_KeyLaws {A B} `{KeyLaws A} `{KeyLaws B}
  : KeyLaws (A * B).
Proof.
  split.
  - intros [a b]; simpl. rewrite !kcmp_refl. reflexivity.
  - intros [a b] [a' b']; simpl.
    rewrite (kcmp_antisym a a').
    destruct (kcmp a a'); simpl; auto. apply kcmp_antisym.
  - intros [a b] [a' b'] [a'' b'']; simpl.
    destruct (kcmp a a') eqn:E1; try discriminate;
      destruct (kcmp a' a'') eqn:E2; try discriminate; intros H3 H4.
    + rewrite (kcmp_eq_l _ _ _ E1), E2. eapply kcmp_trans; eassumption.
    + rewrite (kcmp_eq_l _ _ _ E1), E2. reflexivity.
    + rewrite <- (kcmp_eq_r _ _ a E2), E1. reflexivity.
    + rewrite (kcmp_trans _ _ _ E1 E2). reflexivity.
  - intros [a b] [a' b'] [a'' b'']; simpl.
    destruct (kcmp a a') eqn:E1; try discriminate. intros E2.
    rewrite (kcmp_eq_l _ _ _ E1), (kcmp_eq_l _ _ _ E2). reflexivity.
  - intros [a b] [a' b']; simpl.
    destruct (kcmp a a') eqn:E1; try discriminate. intros E2.
    rewrite (kna_eq _ _ E1), (kna_eq _ _ E2). reflexivity.
Qed.

(** ** Outcomes of [traverse] *)

Lemma traverse_ok {A B} (f : A -> result B) (l : list A) (ys : list B) :
  traverse f l = Ok ys -> Forall2 (fun x y => f x = Ok y) l ys.
Proof.
  revert ys. induction l as [|x l IH]; simpl; intros ys E.
  - inversion E. constructor.
  - destruct (f x) eqn:Ex; try discriminate.
    destruct (traverse f l) eqn:El; try discriminate.
    inversion E; subst. constructor; auto.
Qed.

Lemma traverse_all_ok {A B} (f : A -> result B) (g : A -> B) (l : list A) :
  (forall x, In x l -> f x = Ok (g x)) -> traverse f l = Ok (map g l).
Proof.
  induction l as [|x l IH]; simpl; intros Hf; auto.
  rewrite (Hf x) by auto. rewrite IH by auto. reflexivity.
Qed.

Lemma traverse_length {A B} (f : A -> result B) (l : list A) (ys : list B) :
  traverse f l = Ok ys -> List.length ys = List.length l.
Proof.
  intros E. apply traverse_ok in E. symmetry.
  eapply Forall2_length; eassumption.
Qed.

(** ** Ordered duplicate-free key lists *)

Section SortUniqFacts.
Context {K : Type} `{KeyLaws K}.

Lemma insert_uniq_incl (x z : K) (l : list K) :
  In z (insert_uniq x l) -> z = x \/ In z l.
Proof.
  induction l as [|y l IH]; simpl.
  - intros [E|E]; [auto | contradiction].
  - destruct (kcmp x y); simpl; intros [E|Hin]; auto.
    destruct (IH Hin); auto.
Qed.

Lemma sort_uniq_incl (z : K) (l : list K) : In z (sort_uniq l) -> In z l.
Proof.
  induction l as [|x l IH]; simpl; auto.
  intros Hin. apply insert_uniq_incl in Hin. destruct Hin; auto.
Qed.

Lemma insert_uniq_head (x : K) (l : list K) : In x (insert_uniq x l).
Proof.
  induction l as [|y l IH]; simpl; auto.
  destruct (kcmp x y); simpl; auto.
Qed.

Lemma insert_uniq_cover (x z : K) (l : list K) :
  (exists y, In y l /\ keq y z = true) ->
  exists y, In y (insert_uniq x l) /\ keq y z = true.
Proof.
  induction l as [|y l IH]; simpl; intros (y0 & Hin & E); [contradiction|].
  destruct (kcmp x y) eqn:C; simpl.
  - destruct Hin as [->|Hin].
    + exists x. split; auto.
      rewrite (keq_l x y0 z); auto. apply keq_true. assumption.
    + exists y0. auto.
  - exists y0. destruct Hin; auto.
  - destruct Hin as [->|Hin].
    + exists y0. auto.
    + destruct IH as (y1 & Hin1 & E1); [exists y0; auto|].
      exists y1. auto.
Qed.

Lemma sort_uniq_cover (z : K) (l : list K) :
  In z l -> exists y, In y (sort_uniq l) /\ keq y z = true.
Proof.
  induction l as [|x l IH]; simpl; [contradiction|].
  intros [->|Hin].
  - exists z. split; [apply insert_uniq_head | apply keq_refl].
  - apply insert_uniq_cover. auto.
Qed.

Lemma insert_uniq_hdrel (a x : K) (l : list K) :
  klt a x -> HdRel klt a l -> HdRel klt a (insert_uniq x l).
Proof.
  intros Hax Hal. destruct l as [|y l]; simpl.
  - constructor. assumption.
  - inversion Hal; subst.
    destruct (kcmp x y); constructor; assumption.
Qed.

Lemma insert_uniq_sorted (x : K) (l : list K) :
  Sorted klt l -> Sorted klt (insert_uniq x l).
Proof.
  induction l as [|y l IH]; simpl; intros Hs.
  - repeat constructor.
  - inversion Hs as [|? ? Hl Hy]; subst.
    destruct (kcmp x y) eqn:C.
    + constructor; auto.
      destruct l as [|z l]; constructor.
      inversion Hy; subst. unfold klt in *.
      rewrite (kcmp_eq_l _ _ _ C). assumption.
    + constructor; auto.
    + constructor; auto.
      apply insert_uniq_hdrel; auto.
      apply kcmp_gt_lt. assumption.
Qed.

Lemma sort_uniq_sorted (l : list K) : Sorted klt (sort_uniq l).
Proof.
  induction l as [|x l IH]; simpl.
  - constructor.
  - apply insert_uniq_sorted. assumption.
Qed.

Lemma klt_trans : Relations_1.Transitive klt.
Proof. intros a b c. apply kcmp_trans. Qed.

Lemma sort_uniq_strongly_sorted (l : list K) :
  StronglySorted klt (sort_uniq l).
Proof.
  apply Sorted_StronglySorted; [apply klt_trans | apply sort_uniq_sorted].
Qed.

(** In an ordered key list at most one key matches a given one. *)
Lemma sorted_keq_unique (l : list K) (a : K) :
  StronglySorted klt (a :: l) -> forall z, keq a z = true ->
  forallb (fun y => negb (keq y z)) l = true.
Proof.
  intros Hs z E. inversion Hs as [|? ? _ Hall]; subst.
  apply forallb_forall. intros y Hy.
  rewrite Forall_forall in Hall. specialize (Hall y Hy). unfold klt in Hall.
  apply keq_true in E.
  unfold keq. rewrite <- (kcmp_eq_r _ _ y E), kcmp_antisym, Hall.
  reflexivity.
Qed.

Lemma sort_uniq_nil (l : list K) : sort_uniq l = [] -> l = [].
Proof.
  destruct l as [|x l]; auto. simpl. intros E.
  pose proof (insert_uniq_head x (sort_uniq l)) as Hin.
  rewrite E in Hin. contradiction.
Qed.
End SortUniqFacts.

(** ** Sums *)

Lemma qsum_app (l1 l2 : list Q) : (qsum (l1 ++ l2) == qsum l1 + qsum l2)%Q.
Proof.
  induction l1 as [|x l1 IH]; simpl.
  - ring.
  - rewrite IH. ring.
Qed.

Lemma qsum_map_plus {A} (f g : A -> Q) (l : list A) :
  (qsum (map (fun x => f x + g x) l) == qsum (map f l) + qsum (map g l))%Q.
Proof.
  induction l as [|x l IH]; simpl.
  - ring.
  - rewrite IH. ring.
Qed.

Lemma qsum_map_ext {A} (f g : A -> Q) (l : list A) :
  (forall x, In x l -> (f x == g x)%Q) ->
  (qsum (map f l) == qsum (map g l))%Q.
Proof.
  induction l as [|x l IH]; simpl; intros Hfg.
  - reflexivity.
  - rewrite (Hfg x) by auto. rewrite IH by auto. reflexivity.
Qed.

Lemma qsum_map_zero {A} (f : A -> Q) (l : list A) :
  (forall x, In x l -> (f x == 0)%Q) -> (qsum (map f l) == 0)%Q.
Proof.
  induction l as [|x l IH]; simpl; intros Hf.
  - reflexivity.
  - rewrite (Hf x) by auto. rewrite IH by auto. ring.
Qed.

Lemma filter_all {A} (p : A -> bool) (l : list A) :
  (forall x, In x l -> p x = true) -> filter p l = l.
Proof.
  induction l as [|x l IH]; simpl; intros Hp; auto.
  rewrite (Hp x) by auto. rewrite IH by auto. reflexivity.
Qed.

Lemma filter_none {A} (p : A -> bool) (l : list A) :
  (forall x, In x l -> p x = false) -> filter p l = [].
Proof.
  induction l as [|x l IH]; simpl; intros Hp; auto.
  rewrite (Hp x) by auto. apply IH. auto.
Qed.

Lemma combine_map {A B C} (f : A -> B) (g : A -> C) (l : list A) :
  combine (map f l) (map g l) = map (fun x => (f x, g x)) l.
Proof. induction l as [|x l IH]; simpl; congruence. Qed.

Lemma py_sum_from_str (s : string) (l : list cell) (q : Q) :
  py_sum_from (Str s) l <> Ok (Num q).
Proof.
  revert s. induction l as [|c l IH]; simpl; intros s.
  - discriminate.
  - destruct c as [|t|p]; simpl; try discriminate. apply IH.
Qed.

Lemma py_sum_from_num (l : list cell) (a q : Q) :
  py_sum_from (Num a) l = Ok (Num q) ->
  (q == a + qsum (map num l))%Q /\ Forall (fun c => is_num c = true) l.
Proof.
  revert a. induction l as [|c l IH]; simpl; intros a E.
  - inversion E; subst. split; [ring | constructor].
  - destruct c as [|t|p]; simpl in E; try discriminate.
    destruct (IH _ E) as [Hq Hall]. split.
    + rewrite Hq. simpl. ring.
    + constructor; auto.
Qed.

Lemma py_sum_from_notna (l : list cell) (a c : cell) :
  isna a = false -> py_sum_from a l = Ok c -> isna c = false.
Proof.
  revert a. induction l as [|v l IH]; simpl; intros a Ha E.
  - inversion E; subst. assumption.
  - destruct (py_add a v) as [a'|] eqn:Ea; try discriminate.
    apply (IH a'); auto.
    destruct a, v; simpl in Ea; inversion Ea; reflexivity.
Qed.

Lemma py_sum_notna (l : list cell) (c : cell) :
  py_sum l = Ok c -> isna c = false.
Proof.
  unfold py_sum.
  destruct (filter (fun c0 => negb (isna c0)) l) as [|a l'] eqn:F.
  - intros E. inversion E. reflexivity.
  - apply py_sum_from_notna.
    assert (Hin : In a (filter (fun c0 => negb (isna c0)) l))
      by (rewrite F; left; reflexivity).
    apply filter_In in Hin. destruct Hin as [_ Hn].
    destruct (isna a); simpl in Hn; congruence.
Qed.

Lemma qsum_num_filter_notna (l : list cell) :
  (qsum (map num (filter (fun c => negb (isna c)) l)) == qsum (map num l))%Q.
Proof.
  induction l as [|c l IH]; simpl.
  - reflexivity.
  - destruct c; simpl; rewrite IH; ring.
Qed.

(** A group whose sum is a number sums to the plain sum of its amounts and
    holds no string. *)
Lemma py_sum_num (l : list cell) (q : Q) :
  py_sum l = Ok (Num q) ->
  (q == qsum (map num l))%Q /\
  Forall (fun c => is_num c = true \/ c = NaN) l.
Proof.
  unfold py_sum. intros E.
  assert (Hsplit : Forall (fun c => is_num c = true)
                     (filter (fun c => negb (isna c)) l) ->
                   Forall (fun c => is_num c = true \/ c = NaN) l).
  { intros Hall. rewrite Forall_forall in *. intros c Hc.
    destruct c as [|s|p]; auto.
    left. apply Hall. apply filter_In. auto. }
  rewrite <- qsum_num_filter_notna.
  destruct (filter (fun c => negb (isna c)) l) as [|a l'] eqn:F.
  - inversion E; subst. split; [reflexivity | auto].
  - destruct a as [|s|p].
    + destruct l'; simpl in E; discriminate.
    + exfalso. eapply py_sum_from_str. eassumption.
    + apply py_sum_from_num in E. destruct E as [Hq Hall]. split.
      * rewrite Hq. simpl. reflexivity.
      * apply Hsplit. constructor; auto.
Qed.



Lemma scale_cell_ok (c c' : cell) :
  scale_cell c = Ok c' ->
  (c = NaN /\ c' = NaN) \/ exists q, c = Num q /\ c' = Num (q / 1000000).
Proof.
  destruct c as [|s|q]; simpl; intros E; inversion E; eauto.
Qed.

(** ** Grouping *)

Section GroupFacts.
Context {K : Type} `{KeyLaws K}.

Lemma traverse_keyed {V} (h : K -> result V) (l : list K) (g : list (K * V)) :
  traverse (fun k => rbind (h k) (fun s => Ok (k, s))) l = Ok g ->
  map fst g = l /\ Forall (fun e => h (fst e) = Ok (snd e)) g.
Proof.
  intros E. apply traverse_ok in E.
  induction E as [|k e l g Hke _ IH]; simpl.
  - split; constructor.
  - destruct IH as [IH1 IH2].
    destruct (h k) as [s|] eqn:Hk; simpl in Hke; inversion Hke; subst.
    simpl. split; [congruence | constructor; auto].
Qed.

Lemma groupby_sum_ok (keys : list K) (vals : list cell) (g : list (K * cell)) :
  groupby_sum keys vals = Ok g ->
  map fst g = sort_uniq (map fst (live keys vals)) /\
  Forall (fun e => py_sum (group_of (fst e) (live keys vals)) = Ok (snd e)) g.
Proof.
  unfold groupby_sum. intros E.
  exact (traverse_keyed (fun k => py_sum (group_of k (live keys vals))) _ _ E).
Qed.

Lemma amount_under_group (k : K) (kv : list (K * cell)) :
  amount_under k kv = qsum (map num (group_of k kv)).
Proof. unfold amount_under, group_of. rewrite map_map. reflexivity. Qed.

Lemma amount_under_live (k : K) (keys : list K) (vals : list cell) :
  kna k = false ->
  amount_under k (live keys vals) = amount_under k (combine keys vals).
Proof.
  intros Hk. unfold amount_under, live. f_equal. f_equal.
  induction (combine keys vals) as [|p l IH]; simpl; auto.
  destruct (kna (fst p)) eqn:Hp; simpl.
  - destruct (keq (fst p) k) eqn:E; auto.
    apply keq_kna in E. congruence.
  - destruct (keq (fst p) k); simpl; congruence.
Qed.

Lemma lookup_key_in {V} (k : K) (l : list (K * V)) (v : V) :
  lookup_key k l = Some v -> exists k', In (k', v) l /\ keq k' k = true.
Proof.
  induction l as [|[k0 v0] l IH]; simpl; try discriminate.
  destruct (keq k0 k) eqn:E.
  - intros E'. inversion E'; subst. eauto.
  - intros E'. destruct (IH E') as (k' & Hin & Hk). eauto.
Qed.

Lemma lookup_key_none {V} (k : K) (l : list (K * V)) :
  lookup_key k l = None -> forall e, In e l -> keq (fst e) k = false.
Proof.
  induction l as [|[k0 v0] l IH]; simpl; intros E e Hin; [contradiction|].
  destruct (keq k0 k) eqn:E0; try discriminate.
  destruct Hin as [<-|Hin]; auto.
Qed.

(** Exactly one key of an ordered list matches a covered key. *)
Lemma unique_match (G : list K) (P : K -> bool) (z : K) (v : Q) :
  StronglySorted klt G ->
  (forall a b, keq a b = true -> P a = P b) ->
  (exists g, In g G /\ keq g z = true) ->
  (qsum (map (fun g => if keq z g then v else 0) (filter P G))
   == if P z then v else 0)%Q.
Proof.
  intros Hs HP. induction G as [|a G IH]; intros (g & Hin & Hg).
  - contradiction.
  - simpl. destruct (keq a z) eqn:Ea.
    + pose proof (sorted_keq_unique _ _ Hs z Ea) as Hrest.
      rewrite forallb_forall in Hrest.
      assert (Hzero : (qsum (map (fun g0 => if keq z g0 then v else 0)
                                 (filter P G)) == 0)%Q).
      { apply qsum_map_zero. intros y Hy. apply filter_In in Hy.
        destruct Hy as [Hy _]. specialize (Hrest y Hy).
        rewrite keq_sym. destruct (keq y z); simpl in *;
          [discriminate | reflexivity]. }
      rewrite (HP a z Ea). destruct (P z); simpl.
      * rewrite Hzero, keq_sym, Ea. ring.
      * assumption.
    + inversion Hs as [|? ? Hs' _]; subst.
      assert (Hex : exists g0, In g0 G /\ keq g0 z = true).
      { destruct Hin as [->|Hin]; [congruence | eauto]. }
      specialize (IH Hs' Hex).
      destruct (P a); simpl; auto.
      rewrite keq_sym, Ea, IH. ring.
Qed.

(** Summing group by group is summing row by row. *)
Lemma group_partition (G : list K) (P : K -> bool) (kv : list (K * cell)) :
  StronglySorted klt G ->
  (forall a b, keq a b = true -> P a = P b) ->
  (forall r, In r kv -> exists g, In g G /\ keq g (fst r) = true) ->
  (qsum (map (fun g => amount_under g kv) (filter P G))
   == qsum (map (fun r => num (snd r)) (filter (fun r => P (fst r)) kv)))%Q.
Proof.
  intros Hs HP. induction kv as [|r kv IH]; intros Hcov.
  - unfold amount_under. simpl. apply qsum_map_zero. reflexivity.
  - assert (Hstep : forall g,
               (amount_under g (r :: kv)
                == (if keq (fst r) g then num (snd r) else 0)
                   + amount_under g kv)%Q).
    { intros g. unfold amount_under. simpl.
      destruct (keq (fst r) g); simpl; ring. }
    rewrite (qsum_map_ext _ _ _ (fun g _ => Hstep g)).
    rewrite qsum_map_plus.
    rewrite IH by (intros; apply Hcov; right; assumption).
    rewrite (unique_match G P (fst r) (num (snd r)) Hs HP)
      by (apply Hcov; left; reflexivity).
    simpl. destruct (P (fst r)); simpl; ring.
Qed.
End GroupFacts.

(** ** Frames *)

Lemma find_col_lt (name : string) (cols : list string) (p : nat) :
  find_col name cols = Some p -> (p < List.length cols)%nat.
Proof.
  revert p. induction cols as [|c cols IH]; simpl; intros p E; try discriminate.
  destruct (String.eqb c name).
  - inversion E. lia.
  - destruct (find_col name cols) as [p'|]; simpl in E; inversion E.
    specialize (IH p' eq_refl). lia.
Qed.

Lemma find_col_nth (name : string) (cols : list string) (p : nat) :
  find_col name cols = Some p -> nth_error cols p = Some name.
Proof.
  revert p. induction cols as [|c cols IH]; simpl; intros p E; try discriminate.
  destruct (String.eqb c name) eqn:Ec.
  - inversion E. apply String.eqb_eq in Ec. subst. reflexivity.
  - destruct (find_col name cols) as [p'|]; simpl in E; inversion E.
    simpl. auto.
Qed.

Lemma find_col_none (name : string) (cols : list string) :
  find_col name cols = None <-> ~ In name cols.
Proof.
  induction cols as [|c cols IH]; simpl.
  - tauto.
  - destruct (String.eqb c name) eqn:Ec.
    + apply String.eqb_eq in Ec. split; [discriminate | tauto].
    + apply String.eqb_neq in Ec.
      destruct (find_col name cols); simpl.
      * split; [discriminate|]. intros Hn. exfalso. apply Hn. right.
        destruct IH as [_ IH].
        destruct (in_dec string_dec name cols); auto.
        specialize (IH n0). discriminate.
      * split; auto. intros _ [E|Hin]; [congruence|]. apply IH; auto.
Qed.

Lemma find_col_diff (a b : string) (cols : list string) (p q : nat) :
  find_col a cols = Some p -> find_col b cols = Some q -> a <> b -> p <> q.
Proof.
  intros Ha Hb Hab Hpq. subst q.
  apply find_col_nth in Ha, Hb. congruence.
Qed.

Lemma upd_length (p : nat) (v : cell) (r : list cell) :
  List.length (upd p v r) = List.length r.
Proof.
  revert p. induction r as [|c r IH]; intros [|p]; simpl; auto.
Qed.

Lemma upd_nth_same (p : nat) (v d : cell) (r : list cell) :
  (p < List.length r)%nat -> nth p (upd p v r) d = v.
Proof.
  revert p. induction r as [|c r IH]; intros [|p]; simpl; intros Hp;
    try lia; auto.
  apply IH. lia.
Qed.

Lemma upd_nth_other (p q : nat) (v d : cell) (r : list cell) :
  p <> q -> nth q (upd p v r) d = nth q r d.
Proof.
  revert p q. induction r as [|c r IH]; intros [|p] [|q]; simpl; intros Hpq;
    try congruence; auto.
Qed.

Lemma upd_same (p : nat) (d : cell) (r : list cell) :
  upd p (nth p r d) r = r.
Proof.
  revert p. induction r as [|c r IH]; intros [|p]; simpl; auto.
  rewrite IH. reflexivity.
Qed.

Lemma upd_fixed (p : nat) (f : cell -> cell) (r : list cell) :
  f (nth p r NaN) = nth p r NaN -> upd p (f (nth p r NaN)) r = r.
Proof. intros ->. apply upd_same. Qed.

Lemma upd_Forall (P : cell -> Prop) (p : nat) (v : cell) (r : list cell) :
  Forall P r -> ((p < List.length r)%nat -> P v) -> Forall P (upd p v r).
Proof.
  revert p. induction r as [|c r IH]; intros [|p]; simpl; intros Hall Hv; auto.
  - inversion Hall; subst. constructor; auto. apply Hv. lia.
  - inversion Hall; subst. constructor; auto. apply IH; auto.
    intros Hp. apply Hv. lia.
Qed.

Lemma nth_Forall (P : cell -> Prop) (p : nat) (r : list cell) (d : cell) :
  Forall P r -> (p < List.length r)%nat -> P (nth p r d).
Proof.
  intros Hall Hp. rewrite Forall_forall in Hall. apply Hall.
  apply nth_In. assumption.
Qed.

Lemma map_combine_map {A B C} (f : A * B -> C) (g : A -> B) (l : list A) :
  map f (combine l (map g l)) = map (fun x => f (x, g x)) l.
Proof. induction l as [|x l IH]; simpl; congruence. Qed.

Lemma filter_combine_map {A} (f : A -> bool) (l : list A) :
  map fst (filter (fun rb => snd rb) (combine l (map f l))) = filter f l.
Proof.
  induction l as [|x l IH]; simpl; auto.
  destruct (f x); simpl; congruence.
Qed.

Lemma getitem_ok (df : DataFrame) (name : string) (col : list cell) :
  getitem df name = Ok col ->
  exists p, find_col name (columns df) = Some p /\
            col = map (fun r => nth p (snd r) NaN) (rows df).
Proof.
  unfold getitem. destruct (find_col name (columns df)) as [p|]; intros E;
    inversion E. eauto.
Qed.

Lemma setitem_replace (df : DataFrame) (name : string) (p : nat)
      (m : list (string * string)) :
  find_col name (columns df) = Some p ->
  setitem df name (replace m (map (fun r => nth p (snd r) NaN) (rows df)))
  = mkDF (columns df)
         (map (fun r => (fst r, upd p (replace_cell m (nth p (snd r) NaN)) (snd r)))
              (rows df)).
Proof.
  intros Hp. unfold setitem, replace. rewrite Hp. f_equal.
  rewrite map_map. rewrite map_combine_map. reflexivity.
Qed.

Lemma select_isin (df : DataFrame) (p : nat) :
  select df (isin valid_investors (map (fun r => nth p (snd r) NaN) (rows df)))
  = mkDF (columns df) (filter (valid_row p) (rows df)).
Proof.
  unfold select, isin. f_equal. rewrite map_map.
  apply (filter_combine_map (valid_row p)).
Qed.

(** ** Running [_clean_data] *)

Lemma views_with_data (df : DataFrame) (st : Dashboard) :
  views (with_data df st) = views st.
Proof. reflexivity. Qed.

Lemma with_data_twice (d1 d2 : DataFrame) (st : Dashboard) :
  with_data d2 (with_data d1 st) = with_data d2 st.
Proof. reflexivity. Qed.

Lemma remap_ok (st st' : Dashboard) :
  _clean_data_remap st = (Ok tt, st') ->
  exists df pS pI,
    data st = Some df /\
    find_col "SECTOR" (map (relabel column_mapping) (columns df)) = Some pS /\
    find_col "INV TYPE" (map (relabel column_mapping) (columns df)) = Some pI /\
    st' = with_data (remap_frame pS pI df) st.
Proof.
  unfold _clean_data_remap, bind, get_data, set_data, lift.
  destruct (data st) as [df|] eqn:Hd; try discriminate. simpl.
  destruct (getitem _ "SECTOR") as [sec|] eqn:Hs; try discriminate.
  destruct (getitem_ok _ _ _ Hs) as (pS & HpS & ->). simpl in HpS.
  rewrite setitem_replace by exact HpS. simpl.
  destruct (getitem _ "INV TYPE") as [inv|] eqn:Hi; try discriminate.
  destruct (getitem_ok _ _ _ Hi) as (pI & HpI & ->). simpl in HpI.
  rewrite setitem_replace by exact HpI. simpl.
  intros E. inversion E; subst. exists df, pS, pI. repeat split; auto.
  unfold remap_frame, remap_row. rewrite !map_map. simpl. reflexivity.
Qed.

Lemma remap_run (st : Dashboard) (df : DataFrame) (pS pI : nat) :
  data st = Some df ->
  find_col "SECTOR" (map (relabel column_mapping) (columns df)) = Some pS ->
  find_col "INV TYPE" (map (relabel column_mapping) (columns df)) = Some pI ->
  _clean_data_remap st = (Ok tt, with_data (remap_frame pS pI df) st).
Proof.
  intros Hd HpS HpI.
  unfold _clean_data_remap, bind, get_data, set_data, lift.
  rewrite Hd. simpl.
  unfold getitem at 1. simpl. rewrite HpS.
  rewrite setitem_replace by exact HpS. simpl.
  unfold getitem at 1. simpl. rewrite HpI.
  rewrite setitem_replace by exact HpI. simpl.
  unfold remap_frame, remap_row. rewrite !map_map. simpl. reflexivity.
Qed.

Lemma filter_ok (st st' : Dashboard) :
  _clean_data_filter st = (Ok tt, st') ->
  exists df pI,
    data st = Some df /\
    find_col "INV TYPE" (columns df) = Some pI /\
    st' = with_data (mkDF (columns df) (filter (valid_row pI) (rows df))) st.
Proof.
  unfold _clean_data_filter, bind, get_data, set_data, lift.
  destruct (data st) as [df|] eqn:Hd; try discriminate.
  destruct (getitem df "INV TYPE") as [inv|] eqn:Hi; try discriminate.
  destruct (getitem_ok _ _ _ Hi) as (pI & HpI & ->).
  rewrite select_isin. intros E. inversion E; subst. eauto.
Qed.

Lemma filter_run (st : Dashboard) (df : DataFrame) (pI : nat) :
  data st = Some df ->
  find_col "INV TYPE" (columns df) = Some pI ->
  _clean_data_filter st
  = (Ok tt, with_data (mkDF (columns df) (filter (valid_row pI) (rows df))) st).
Proof.
  intros Hd HpI.
  unfold _clean_data_filter, bind, get_data, set_data, lift.
  rewrite Hd. unfold getitem. rewrite HpI. rewrite select_isin. reflexivity.
Qed.

Section CleanRuns.
Variable conv : cell -> option Z.

Lemma index_ok (st st' : Dashboard) :
  _clean_data_index conv st = (Ok tt, st') ->
  exists df pD idx,
    data st = Some df /\
    find_col "DT_NEGOCIO" (columns df) = Some pD /\
    to_datetime conv (map (fun r => nth pD (snd r) NaN) (rows df)) = Ok idx /\
    st' = with_data (indexed_frame df idx) st.
Proof.
  unfold _clean_data_index, bind, get_data, set_data, lift.
  destruct (data st) as [df|] eqn:Hd; try discriminate.
  destruct (getitem df "DT_NEGOCIO") as [dates|] eqn:Hg; try discriminate.
  destruct (getitem_ok _ _ _ Hg) as (pD & HpD & ->).
  destruct (to_datetime conv _) as [idx|] eqn:Ht; try discriminate.
  simpl. unfold drop_column, has_col. simpl. rewrite HpD.
  intros E. inversion E; subst. exists df, pD, idx. repeat split; auto.
  unfold indexed_frame. rewrite map_map. reflexivity.
Qed.

Lemma index_views (st : Dashboard) :
  views (snd (_clean_data_index conv st)) = views st.
Proof.
  unfold _clean_data_index, bind, get_data, set_data, lift.
  destruct (data st) as [df|]; auto.
  destruct (getitem df "DT_NEGOCIO"); auto.
  destruct (to_datetime conv _); auto. simpl.
  destruct (drop_column _ _); reflexivity.
Qed.

Lemma remap_views (st : Dashboard) :
  views (snd (_clean_data_remap st)) = views st.
Proof.
  unfold _clean_data_remap, bind, get_data, set_data, lift.
  destruct (data st) as [df|]; auto. simpl.
  destruct (getitem _ "SECTOR"); auto. simpl.
  destruct (getitem _ "INV TYPE"); reflexivity.
Qed.

Lemma filter_views (st : Dashboard) :
  views (snd (_clean_data_filter st)) = views st.
Proof.
  unfold _clean_data_filter, bind, get_data, set_data, lift.
  destruct (data st) as [df|]; auto.
  destruct (getitem _ "INV TYPE"); reflexivity.
Qed.

Lemma bind_snd_views {A B} (m : M A) (f : A -> M B) (st : Dashboard) :
  (forall s, views (snd (m s)) = views s) ->
  (forall a s, views (snd (f a s)) = views s) ->
  views (snd (bind m f st)) = views st.
Proof.
  intros Hm Hf. unfold bind. specialize (Hm st).
  destruct (m st) as [[a|e] s]; simpl in *; auto.
  rewrite Hf. assumption.
Qed.

(** [_clean_data] never touches a view, whatever its outcome. *)
Lemma clean_data_views (st : Dashboard) :
  views (snd (_clean_data conv st)) = views st.
Proof.
  unfold _clean_data.
  apply bind_snd_views; [apply index_views | intros _ s].
  apply bind_snd_views; [apply remap_views | intros _ s'].
  apply filter_views.
Qed.

Lemma bind_ok {A B} (m : M A) (f : A -> M B) (st st' : Dashboard) (b : B) :
  bind m f st = (Ok b, st') ->
  exists a s, m st = (Ok a, s) /\ f a s = (Ok b, st').
Proof.
  unfold bind. destruct (m st) as [[a|e] s]; intros E; [eauto | discriminate].
Qed.

(** A successful [_clean_data], block by block. *)
Lemma clean_data_ok (st st' : Dashboard) :
  _clean_data conv st = (Ok tt, st') ->
  exists raw pD idx pS pI,
    data st = Some raw /\
    find_col "DT_NEGOCIO" (columns raw) = Some pD /\
    to_datetime conv (map (fun r => nth pD (snd r) NaN) (rows raw)) = Ok idx /\
    let df1 := indexed_frame raw idx in
    let cols := map (relabel column_mapping) (columns df1) in
    find_col "SECTOR" cols = Some pS /\
    find_col "INV TYPE" cols = Some pI /\
    _clean_data_index conv st = (Ok tt, with_data df1 st) /\
    _clean_data_remap (with_data df1 st)
      = (Ok tt, with_data (remap_frame pS pI df1) st) /\
    st' = with_data
            (mkDF cols (filter (valid_row pI) (rows (remap_frame pS pI df1))))
            st.
Proof.
  unfold _clean_data. intros E.
  apply bind_ok in E. destruct E as ([] & s1 & E1 & E).
  apply bind_ok in E. destruct E as ([] & s2 & E2 & E3).
  destruct (index_ok _ _ E1) as (raw & pD & idx & Hd & HpD & Ht & ->).
  destruct (remap_ok _ _ E2) as (df1 & pS & pI & Hd1 & HpS & HpI & ->).
  simpl in Hd1. inversion Hd1; subst df1.
  destruct (filter_ok _ _ E3) as (df2 & pI' & Hd2 & HpI' & ->).
  simpl in Hd2. inversion Hd2; subst df2. simpl in HpI'.
  assert (pI' = pI).
  { simpl in HpI. rewrite HpI in HpI'. congruence. }
  subst pI'.
  exists raw, pD, idx, pS, pI. simpl. repeat split; auto.
Qed.
End CleanRuns.

(** ** Canonical tables *)

Lemma keep_cols_length (name : string) (cols : list string) (r : list cell) :
  List.length r = List.length cols ->
  List.length (keep_cols name cols r)
  = List.length (filter (fun c => negb (String.eqb c name)) cols).
Proof.
  unfold keep_cols. rewrite length_map.
  revert r. induction cols as [|c cols IH]; intros [|v r]; simpl; intros E;
    try discriminate; auto.
  destruct (negb (String.eqb c name)); simpl; auto.
Qed.

Lemma remap_row_length (pS pI : nat) (r : list cell) :
  List.length (remap_row pS pI r) = List.length r.
Proof. unfold remap_row. rewrite !upd_length, length_map. reflexivity. Qed.

Lemma replace_cell_notna (m : list (string * string)) (c : cell) :
  isna c = false -> isna (replace_cell m c) = false.
Proof. destruct c; simpl; auto. Qed.

Lemma remap_row_notna (pS pI : nat) (r : list cell) :
  Forall (fun c => isna c = false) (remap_row pS pI r).
Proof.
  unfold remap_row.
  assert (H1 : Forall (fun c => isna c = false)
                 (map (fill_cell (Str "Others")) r)).
  { apply Forall_forall. intros c Hc. apply in_map_iff in Hc.
    destruct Hc as (c0 & <- & _). destruct c0; reflexivity. }
  assert (H2 : Forall (fun c => isna c = false)
                 (upd pS (replace_cell sector_mapping
                            (nth pS (map (fill_cell (Str "Others")) r) NaN))
                      (map (fill_cell (Str "Others")) r))).
  { apply upd_Forall; auto. intros Hp. apply replace_cell_notna.
    apply nth_Forall; auto. }
  apply upd_Forall; auto. intros Hp. apply replace_cell_notna.
  apply nth_Forall; auto.
Qed.

Lemma at_col_nth (cols : list string) (name : string) (p : nat) (r : list cell) :
  find_col name cols = Some p -> at_col cols name r = nth p r NaN.
Proof. unfold at_col. intros ->. reflexivity. Qed.

Lemma isin_cell_true (vals : list string) (c : cell) :
  isin_cell vals c = true -> exists s, c = Str s /\ In s vals.
Proof.
  destruct c as [|s|q]; simpl; try discriminate.
  intros E. apply existsb_exists in E. destruct E as (v & Hv & E).
  apply String.eqb_eq in E. subst. eauto.
Qed.

Lemma indexed_frame_wf (df : DataFrame) (idx : list label) :
  wf_frame df -> wf_frame (indexed_frame df idx).
Proof.
  unfold wf_frame, indexed_frame. simpl. intros Hwf.
  rewrite Forall_forall in *. intros r Hr.
  apply in_map_iff in Hr. destruct Hr as ([l r0] & <- & Hin). simpl.
  apply in_combine_r in Hin. apply keep_cols_length.
  apply (Hwf r0 Hin).
Qed.

Lemma remap_frame_wf (pS pI : nat) (df : DataFrame) :
  wf_frame df -> wf_frame (remap_frame pS pI df).
Proof.
  unfold wf_frame, remap_frame. simpl. intros Hwf.
  rewrite Forall_forall in *. intros r Hr.
  apply in_map_iff in Hr. destruct Hr as (r0 & <- & Hin). simpl.
  rewrite remap_row_length, length_map. apply (Hwf r0 Hin).
Qed.

Lemma remap_frame_notna (pS pI : nat) (df : DataFrame) (r : label * list cell) :
  In r (rows (remap_frame pS pI df)) -> Forall (fun c => isna c = false) (snd r).
Proof.
  unfold remap_frame. simpl. intros Hr.
  apply in_map_iff in Hr. destruct Hr as (r0 & <- & _). simpl.
  apply remap_row_notna.
Qed.

Section Normalizer.
Variable conv : cell -> option Z.

(** What [_clean_data] leaves in [self.data] is a canonical table. *)
Lemma clean_data_canonical (st st' : Dashboard) (raw : DataFrame) :
  data st = Some raw -> wf_frame raw ->
  _clean_data conv st = (Ok tt, st') ->
  exists canon, data st' = Some canon /\ canonical canon /\
                has_col "SECTOR" canon = true /\
                has_col "INV TYPE" canon = true.
Proof.
  intros Hd Hwf E.
  destruct (clean_data_ok conv _ _ E)
    as (raw' & pD & idx & pS & pI & Hd' & HpD & Ht & HpS & HpI & _ & _ & ->).
  assert (raw' = raw) by congruence. subst raw'.
  match goal with
  | |- exists c, data (with_data ?d _) = _ /\ _ => exists d
  end.
  split; [reflexivity|].
  pose proof (remap_frame_wf pS pI _ (indexed_frame_wf raw idx Hwf)) as Hwf2.
  split; [split|].
  - unfold wf_frame in *. simpl in *. rewrite Forall_forall in *.
    intros r Hr. apply filter_In in Hr. destruct Hr as [Hr _].
    apply (Hwf2 r Hr).
  - simpl. apply Forall_forall. intros r Hr.
    apply filter_In in Hr. destruct Hr as [Hr Hv]. split.
    + apply (remap_frame_notna pS pI (indexed_frame raw idx)). exact Hr.
    + rewrite (at_col_nth _ _ _ _ HpI). exact Hv.
  - unfold has_col. simpl. simpl in HpS, HpI. rewrite HpS, HpI. auto.
Qed.
End Normalizer.

Lemma canonical_notna (df : DataFrame) (name : string) (r : label * list cell) :
  canonical df -> In r (rows df) -> has_col name df = true ->
  isna (at_col (columns df) name (snd r)) = false.
Proof.
  intros [Hwf Hall] Hr Hc. unfold has_col in Hc.
  destruct (find_col name (columns df)) as [p|] eqn:Hp; try discriminate.
  rewrite (at_col_nth _ _ _ _ Hp).
  unfold wf_frame in Hwf. rewrite Forall_forall in Hwf, Hall.
  destruct (Hall r Hr) as [Hn _].
  apply (nth_Forall (fun c => isna c = false)); auto.
  rewrite (Hwf r Hr). eapply find_col_lt. eassumption.
Qed.

(** ** Running [_process_data] *)

Lemma process_data_ok (st st' : Dashboard) :
  _process_data st = (Ok tt, st') ->
  exists df, data st = Some df /\ data st' = Some df /\ views_of df (views st').
Proof.
  unfold _process_data, bind, get_data, lift.
  destruct (data st) as [df|] eqn:Hd; try discriminate.
  destruct (getitem df "INV TYPE") as [inv|] eqn:Hinv; try discriminate.
  destruct (getitem df "SECTOR") as [sec|] eqn:Hsec; try discriminate.
  destruct (getitem df "NET R$") as [net|] eqn:Hnet; try discriminate.
  destruct (groupby_sum (combine inv sec) net) as [sums|] eqn:Hsums;
    try discriminate. simpl.
  destruct (summary_scale (summary_of sums)) as [scaled|] eqn:Hscaled;
    try discriminate. simpl.
  destruct (groupby_sum inv net) as [s1|] eqn:Hs1; try discriminate. simpl.
  destruct (series_scale s1) as [tot|] eqn:Htot; try discriminate. simpl.
  destruct (getitem df "TOTAL") as [total|] eqn:Htotal; try discriminate.
  destruct (groupby_sum inv total) as [s2|] eqn:Hs2; try discriminate. simpl.
  destruct (series_scale s2) as [vol|] eqn:Hvol; try discriminate. simpl.
  destruct (pivot_table (map fst (rows df)) inv net) as [daily|] eqn:Hdaily;
    try discriminate. simpl.
  destruct (pivot_scale (pivot_fillna (Num 0) daily)) as [daily'|] eqn:Hdaily';
    try discriminate. simpl.
  destruct (pivot_table (map fst (rows df)) (combine inv sec) net)
    as [evol|] eqn:Hevol; try discriminate. simpl.
  destruct (pivot_scale (pivot_fillna (Num 0) evol)) as [evol'|] eqn:Hevol';
    try discriminate. simpl.
  intros E. inversion E; subst. exists df. repeat split; auto.
  unfold views_of. simpl.
  exists inv, sec, net, total, sums, scaled, s1, tot, s2, vol,
         daily, daily', evol, evol'.
  repeat split; auto.
Qed.



(** ** Entries of the views *)

Lemma Forall2_in_r {A B} (R : A -> B -> Prop) (l : list A) (l' : list B) (y : B) :
  Forall2 R l l' -> In y l' -> exists x, In x l /\ R x y.
Proof.
  induction 1 as [|x y0 l l' Hxy _ IH]; simpl; [contradiction|].
  intros [<-|Hin]; [eauto|]. destruct (IH Hin) as (x0 & Hx0 & HR). eauto.
Qed.

Lemma Forall2_in_l {A B} (R : A -> B -> Prop) (l : list A) (l' : list B) (x : A) :
  Forall2 R l l' -> In x l -> exists y, In y l' /\ R x y.
Proof.
  induction 1 as [|x0 y l l' Hxy _ IH]; simpl; [contradiction|].
  intros [<-|Hin]; [eauto|]. destruct (IH Hin) as (y0 & Hy0 & HR). eauto.
Qed.

Lemma Forall2_nth_r {A B} (R : A -> B -> Prop) (l : list A) (l' : list B)
      (i : nat) (y : B) :
  Forall2 R l l' -> nth_error l' i = Some y ->
  exists x, nth_error l i = Some x /\ R x y.
Proof.
  intros HF. revert i. induction HF as [|x y0 l l' Hxy _ IH]; intros [|i];
    simpl; try discriminate.
  - intros E. inversion E; subst. eauto.
  - apply IH.
Qed.

Lemma Forall2_nth_l {A B} (R : A -> B -> Prop) (l : list A) (l' : list B)
      (i : nat) (x : A) :
  Forall2 R l l' -> nth_error l i = Some x ->
  exists y, nth_error l' i = Some y /\ R x y.
Proof.
  intros HF. revert i. induction HF as [|x0 y l l' Hxy _ IH]; intros [|i];
    simpl; try discriminate.
  - intros E. inversion E; subst. eauto.
  - apply IH.
Qed.

Lemma Forall2_map_l {A B C} (R : B -> C -> Prop) (f : A -> B)
      (l : list A) (l' : list C) :
  Forall2 R (map f l) l' <-> Forall2 (fun x y => R (f x) y) l l'.
Proof.
  split.
  - revert l'. induction l as [|x l IH]; intros l' HF; inversion HF; subst;
      constructor; auto.
  - induction 1; simpl; constructor; auto.
Qed.

Lemma series_scale_ok {K} (s t : list (K * cell)) :
  series_scale s = Ok t ->
  Forall2 (fun kv kv' => fst kv' = fst kv /\ scale_cell (snd kv) = Ok (snd kv'))
          s t.
Proof.
  intros E. apply traverse_ok in E.
  eapply Forall2_impl; [|exact E]. simpl. intros [k v] [k' v'] Hkv. simpl in *.
  destruct (scale_cell v); simpl in Hkv; inversion Hkv; auto.
Qed.

Lemma summary_scale_ok (s t : list SummaryRow) :
  summary_scale s = Ok t ->
  Forall2 (fun r r' => sr_inv r' = sr_inv r /\ sr_sector r' = sr_sector r /\
                       scale_cell (sr_net r) = Ok (sr_net r')) s t.
Proof.
  intros E. apply traverse_ok in E.
  eapply Forall2_impl; [|exact E]. simpl. intros r r' Hr.
  destruct (scale_cell (sr_net r)); simpl in Hr; inversion Hr; auto.
Qed.

Section Entries.
Context {K : Type} `{KeyLaws K}.

Lemma group_key_live (keys : list K) (vals : list cell) (g : list (K * cell))
      (k : K) :
  groupby_sum keys vals = Ok g -> In k (map fst g) ->
  In k (map fst (live keys vals)) /\ kna k = false.
Proof.
  intros E Hin. destruct (groupby_sum_ok _ _ _ E) as [Hk _].
  rewrite Hk in Hin. apply sort_uniq_incl in Hin. split; auto.
  apply in_map_iff in Hin. destruct Hin as (p & <- & Hp).
  unfold live in Hp. apply filter_In in Hp. destruct Hp as [_ Hp].
  destruct (kna (fst p)); simpl in Hp; congruence.
Qed.

Lemma group_key_cover (keys : list K) (vals : list cell) (g : list (K * cell))
      (p : K * cell) :
  groupby_sum keys vals = Ok g -> In p (combine keys vals) ->
  kna (fst p) = false ->
  exists e, In e g /\ keq (fst e) (fst p) = true.
Proof.
  intros E Hin Hna. destruct (groupby_sum_ok _ _ _ E) as [Hk _].
  assert (Hl : In (fst p) (map fst (live keys vals))).
  { apply in_map. unfold live. apply filter_In. split; auto.
    rewrite Hna. reflexivity. }
  apply sort_uniq_cover in Hl. destruct Hl as (y & Hy & Hyk).
  rewrite <- Hk in Hy. apply in_map_iff in Hy.
  destruct Hy as (e & <- & He). eauto.
Qed.

(** A scaled entry of a grouping: a number, the plain sum of the amounts
    under its key divided by a million. *)
Lemma group_entry (keys : list K) (vals : list cell) (g : list (K * cell))
      (k : K) (s x : cell) :
  groupby_sum keys vals = Ok g -> In (k, s) g -> scale_cell s = Ok x ->
  kna k = false /\
  exists q, s = Num q /\ x = Num (q / 1000000) /\
            (q == amount_under k (combine keys vals))%Q /\
            Forall (fun c => is_num c = true \/ c = NaN)
                   (group_of k (live keys vals)).
Proof.
  intros E Hin Hs.
  assert (Hk : kna k = false).
  { eapply group_key_live; [exact E|].
    apply in_map_iff. exists (k, s). auto. }
  split; auto.
  destruct (groupby_sum_ok _ _ _ E) as [_ Hall].
  rewrite Forall_forall in Hall. specialize (Hall _ Hin). simpl in Hall.
  pose proof (py_sum_notna _ _ Hall) as Hn.
  destruct (scale_cell_ok _ _ Hs) as [[-> _]|(q & -> & ->)];
    [discriminate|].
  exists q. destruct (py_sum_num _ _ Hall) as [Hq Hnum].
  repeat split; auto.
  rewrite <- amount_under_live by assumption.
  rewrite amount_under_group. assumption.
Qed.

Lemma amount_under_keq (a b : K) (kv : list (K * cell)) :
  keq a b = true -> amount_under a kv = amount_under b kv.
Proof.
  intros E. unfold amount_under. f_equal. f_equal.
  apply filter_ext. intros p. apply keq_r. assumption.
Qed.

Lemma position_ok (k : K) (l : list K) (i : nat) :
  position k l = Some i ->
  exists k', nth_error l i = Some k' /\ keq k' k = true.
Proof.
  revert i. induction l as [|a l IH]; simpl; intros i E; try discriminate.
  destruct (keq a k) eqn:Ea.
  - inversion E; subst. exists a. split; [reflexivity | assumption].
  - destruct (position k l) as [j|]; simpl in E; inversion E; subst.
    simpl. auto.
Qed.

Lemma position_some (k : K) (l : list K) :
  (exists k', In k' l /\ keq k' k = true) -> exists i, position k l = Some i.
Proof.
  induction l as [|a l IH]; simpl; intros (k' & Hin & E); [contradiction|].
  destruct (keq a k) eqn:Ea; [eauto|].
  destruct Hin as [->|Hin]; [congruence|].
  destruct IH as (i & ->); [eauto|]. simpl. eauto.
Qed.
End Entries.

(** ** Pivoted tables *)

Section Pivots.
Context {K : Type} `{KeyLaws K}.

Lemma pair_keq (d d' : label) (k k' : K) :
  keq d d' = true -> keq k k' = true -> keq (d, k) (d', k') = true.
Proof.
  intros Ed Ek. apply keq_true in Ed, Ek. apply keq_true.
  simpl. simpl in Ed. rewrite Ed. exact Ek.
Qed.

Lemma pivot_table_ok (idx : list label) (cols : list K) (vals : list cell)
      (p : Pivot K) :
  pivot_table idx cols vals = Ok p ->
  exists agged, groupby_sum (combine idx cols) vals = Ok agged /\
                p = unstack agged.
Proof.
  unfold pivot_table.
  destruct (groupby_sum (combine idx cols) vals) as [agged|]; simpl;
    intros E; inversion E. eauto.
Qed.

Lemma pivot_scale_ok (v : cell) (p p' : Pivot K) :
  pivot_scale (pivot_fillna v p) = Ok p' ->
  pv_index p' = pv_index p /\ pv_columns p' = pv_columns p /\
  Forall2 (Forall2 (fun c c' => scale_cell (fill_cell v c) = Ok c'))
          (pv_values p) (pv_values p').
Proof.
  unfold pivot_scale, pivot_fillna. simpl.
  destruct (traverse _ _) as [vs|] eqn:E; simpl; intros E'; inversion E'.
  simpl. repeat split.
  apply traverse_ok in E. apply Forall2_map_l in E.
  eapply Forall2_impl; [|exact E]. simpl. intros r r' Hr.
  apply traverse_ok in Hr. apply Forall2_map_l in Hr. exact Hr.
Qed.

Lemma pivot_get_inv (agged : list (label * K * cell)) (p' : Pivot K)
      (d : label) (k : K) (x : cell) :
  pivot_scale (pivot_fillna (Num 0) (unstack agged)) = Ok p' ->
  pivot_get p' d k = Some x ->
  exists d' k',
    In d' (pv_index p') /\ In k' (pv_columns p') /\
    keq d' d = true /\ keq k' k = true /\
    scale_cell (fill_cell (Num 0) (or_nan (lookup_key (d', k') agged))) = Ok x.
Proof.
  intros Hs Hg. destruct (pivot_scale_ok _ _ _ Hs) as (Hi & Hc & Hv).
  unfold pivot_get in Hg. rewrite Hi, Hc in *.
  destruct (position d _) as [i|] eqn:Pi; try discriminate.
  destruct (position k _) as [j|] eqn:Pj; try discriminate.
  destruct (nth_error (pv_values p') i) as [row'|] eqn:Ni; try discriminate.
  destruct (position_ok _ _ _ Pi) as (d' & Nd & Ed).
  destruct (position_ok _ _ _ Pj) as (k' & Nk & Ek).
  destruct (Forall2_nth_r _ _ _ _ _ Hv Ni) as (row & Nr & Hrow).
  destruct (Forall2_nth_r _ _ _ _ _ Hrow Hg) as (c & Nc & Hcx).
  simpl in Nr. rewrite nth_error_map in Nr. simpl in Nd. rewrite Nd in Nr.
  simpl in Nr. inversion Nr; subst row.
  rewrite nth_error_map in Nc. simpl in Nk. rewrite Nk in Nc.
  simpl in Nc. inversion Nc; subst c.
  exists d', k'. repeat split; auto.
  - eapply nth_error_In. exact Nd.
  - eapply nth_error_In. exact Nk.
Qed.

Lemma pivot_get_total (agged : list (label * K * cell)) (p' : Pivot K)
      (d : label) (k : K) :
  pivot_scale (pivot_fillna (Num 0) (unstack agged)) = Ok p' ->
  (exists d', In d' (pv_index p') /\ keq d' d = true) ->
  (exists k', In k' (pv_columns p') /\ keq k' k = true) ->
  exists x, pivot_get p' d k = Some x.
Proof.
  intros Hs Hd Hk. destruct (pivot_scale_ok _ _ _ Hs) as (Hi & Hc & Hv).
  destruct (position_some _ _ Hd) as (i & Pi).
  destruct (position_some _ _ Hk) as (j & Pj).
  unfold pivot_get. rewrite Pi, Pj. rewrite Hi in Pi. rewrite Hc in Pj.
  destruct (position_ok _ _ _ Pi) as (d' & Nd & _).
  destruct (position_ok _ _ _ Pj) as (k' & Nk & _).
  simpl in Nd, Nk.
  assert (Nr : nth_error (pv_values (unstack agged)) i
               = Some (map (fun k0 => or_nan (lookup_key (d', k0) agged))
                           (pv_columns (unstack agged)))).
  { simpl. rewrite nth_error_map, Nd. reflexivity. }
  destruct (Forall2_nth_l _ _ _ _ _ Hv Nr) as (row' & Nr' & Hrow).
  rewrite Nr'.
  assert (Nc : nth_error (map (fun k0 => or_nan (lookup_key (d', k0) agged))
                              (pv_columns (unstack agged))) j
               = Some (or_nan (lookup_key (d', k') agged))).
  { simpl. rewrite nth_error_map, Nk. reflexivity. }
  destruct (Forall2_nth_l _ _ _ _ _ Hrow Nc) as (x & Nx & _).
  eauto.
Qed.

Lemma unstack_index_live (idx : list label) (cols : list K) (vals : list cell)
      (agged : list (label * K * cell)) (d : label) :
  groupby_sum (combine idx cols) vals = Ok agged ->
  In d (pv_index (unstack agged)) ->
  kna d = false /\ exists k, In (d, k) (map fst agged).
Proof.
  intros E Hd. simpl in Hd. apply sort_uniq_incl in Hd.
  apply in_map_iff in Hd. destruct Hd as ([[d0 k0] s] & <- & He). simpl.
  assert (Hin : In (d0, k0) (map fst agged))
    by (apply in_map_iff; exists (d0, k0, s); auto).
  destruct (group_key_live _ _ _ _ E Hin) as [_ Hna]. simpl in Hna.
  apply orb_false_iff in Hna. destruct Hna. split; eauto.
Qed.

Lemma unstack_columns_live (idx : list label) (cols : list K)
      (vals : list cell) (agged : list (label * K * cell)) (k : K) :
  groupby_sum (combine idx cols) vals = Ok agged ->
  In k (pv_columns (unstack agged)) ->
  kna k = false /\ exists d, In (d, k) (map fst agged).
Proof.
  intros E Hk. simpl in Hk. apply sort_uniq_incl in Hk.
  apply in_map_iff in Hk. destruct Hk as ([[d0 k0] s] & <- & He). simpl.
  assert (Hin : In (d0, k0) (map fst agged))
    by (apply in_map_iff; exists (d0, k0, s); auto).
  destruct (group_key_live _ _ _ _ E Hin) as [_ Hna]. simpl in Hna.
  apply orb_false_iff in Hna. destruct Hna. split; eauto.
Qed.

(** Every cell of a scaled pivot is a number: the plain sum of the amounts
    under its (label, key) pair, divided by a million. *)
Lemma pivot_cell_value (idx : list label) (cols : list K) (vals : list cell)
      (agged : list (label * K * cell)) (p' : Pivot K)
      (d : label) (k : K) (x : cell) :
  groupby_sum (combine idx cols) vals = Ok agged ->
  pivot_scale (pivot_fillna (Num 0) (unstack agged)) = Ok p' ->
  pivot_get p' d k = Some x ->
  exists v, x = Num v /\
    (v == amount_under (d, k) (combine (combine idx cols) vals) / 1000000)%Q.
Proof.
  intros E Hs Hg.
  destruct (pivot_get_inv _ _ _ _ _ Hs Hg)
    as (d' & k' & Hd' & Hk' & Ed & Ek & Hx).
  destruct (pivot_scale_ok _ _ _ Hs) as (Hi & Hc & _).
  rewrite Hi in Hd'. rewrite Hc in Hk'.
  destruct (unstack_index_live _ _ _ _ _ E Hd') as [Hnd _].
  destruct (unstack_columns_live _ _ _ _ _ E Hk') as [Hnk _].
  pose proof (pair_keq _ _ _ _ Ed Ek) as Epair.
  rewrite <- (amount_under_keq _ _ _ Epair).
  destruct (lookup_key (d', k') agged) as [s|] eqn:L; simpl in Hx.
  - destruct (lookup_key_in _ _ _ L) as (key & Hin & Ekey).
    destruct (groupby_sum_ok _ _ _ E) as [_ Hall].
    rewrite Forall_forall in Hall. pose proof (Hall _ Hin) as Hsum.
    simpl in Hsum. apply py_sum_notna in Hsum.
    unfold fill_cell in Hx. rewrite Hsum in Hx.
    destruct (group_entry _ _ _ _ _ _ E Hin Hx) as (_ & q & -> & -> & Hq & _).
    exists (q / 1000000)%Q. split; auto.
    rewrite Hq, (amount_under_keq _ _ _ Ekey). reflexivity.
  - inversion Hx; subst. eexists. split; [reflexivity|].
    assert (Hz : (amount_under (d', k') (combine (combine idx cols) vals)
                  == 0)%Q).
    { unfold amount_under. rewrite filter_none; [reflexivity|].
      intros p Hp. destruct (keq (fst p) (d', k')) eqn:Ep; auto.
      exfalso.
      assert (Hna : kna (fst p) = false).
      { rewrite (keq_kna _ _ Ep). simpl. simpl in Hnd. rewrite Hnd, Hnk.
        reflexivity. }
      destruct (group_key_cover _ _ _ _ E Hp Hna) as (e & He & Ee).
      pose proof (lookup_key_none _ _ L e He) as Hno.
      rewrite (keq_l _ _ _ Ee) in Hno. congruence. }
    rewrite Hz. reflexivity.
Qed.
End Pivots.

(** ** The normalizer *)

Lemma relabel_columns_idem (c : string) :
  relabel column_mapping (relabel column_mapping c) = relabel column_mapping c.
Proof.
  unfold relabel. destruct (assoc c column_mapping) as [v|] eqn:E.
  - unfold assoc, column_mapping in E.
    repeat match type of E with
           | (if ?b then _ else _) = _ => destruct b
           end; inversion E; reflexivity.
  - rewrite E. reflexivity.
Qed.

Lemma relabel_sector_idem (c : string) :
  relabel sector_mapping (relabel sector_mapping c) = relabel sector_mapping c.
Proof.
  unfold relabel. destruct (assoc c sector_mapping) as [v|] eqn:E.
  - unfold assoc, sector_mapping in E.
    repeat match type of E with
           | (if ?b then _ else _) = _ => destruct b
           end; inversion E; reflexivity.
  - rewrite E. reflexivity.
Qed.

Lemma replace_sector_idem (c : cell) :
  replace_cell sector_mapping (replace_cell sector_mapping c)
  = replace_cell sector_mapping c.
Proof. destruct c; simpl; auto. rewrite relabel_sector_idem. reflexivity. Qed.

Lemma replace_investor_valid (c : cell) :
  isin_cell valid_investors c = true -> replace_cell investor_mapping c = c.
Proof.
  intros Hv. apply isin_cell_true in Hv. destruct Hv as (s & -> & Hs).
  simpl in Hs. destruct Hs as [<-|[<-|[<-|[]]]]; reflexivity.
Qed.

Lemma relabel_not_date (c : string) :
  relabel column_mapping c = "DT_NEGOCIO" -> c = "DT_NEGOCIO".
Proof.
  unfold relabel. destruct (assoc c column_mapping) as [v|] eqn:E; auto.
  unfold assoc, column_mapping in E.
  repeat match type of E with
         | (if ?b then _ else _) = _ => destruct b
         end; inversion E; subst; discriminate.
Qed.

Lemma map_fill_notna (v : cell) (r : list cell) :
  Forall (fun c => isna c = false) r -> map (fill_cell v) r = r.
Proof.
  induction 1 as [|c r Hc _ IH]; simpl; auto.
  unfold fill_cell at 1. rewrite Hc, IH. reflexivity.
Qed.

(** The second block leaves a row it has produced alone, once its investor
    type is one of the three. *)
Lemma remap_row_fixed (pS pI : nat) (r0 : list cell) :
  pS <> pI ->
  isin_cell valid_investors (nth pI (remap_row pS pI r0) NaN) = true ->
  remap_row pS pI (remap_row pS pI r0) = remap_row pS pI r0.
Proof.
  intros Hne Hv.
  pose proof (remap_row_notna pS pI r0) as Hn.
  set (r := remap_row pS pI r0) in *.
  unfold remap_row at 1. rewrite (map_fill_notna _ _ Hn).
  assert (HS : replace_cell sector_mapping (nth pS r NaN) = nth pS r NaN).
  { unfold r, remap_row. rewrite upd_nth_other by auto.
    set (F := map (fill_cell (Str "Others")) r0).
    destruct (Nat.lt_ge_cases pS (List.length F)) as [Hlt|Hge].
    - rewrite upd_nth_same by assumption. apply replace_sector_idem.
    - rewrite (nth_overflow (upd pS _ F)) by (rewrite upd_length; assumption).
      reflexivity. }
  rewrite (upd_fixed pS _ r HS).
  apply upd_fixed. apply replace_investor_valid. exact Hv.
Qed.

Section NormalizerClaims.
Variable conv : cell -> option Z.

(** C1. Every row of the table [_clean_data] leaves carries one of the
    three investor types; the sector, sub-sector, segment and investor
    cells of its rows are never null; and its rows are exactly the rows of
    the remapped table whose investor type is one of the three, so a row
    with any other type is absent. *)
Theorem normalizer_invariant (st st' : Dashboard) (raw : DataFrame) :
  data st = Some raw -> wf_frame raw ->
  _clean_data conv st = (Ok tt, st') ->
  exists canon,
    data st' = Some canon /\
    (forall r, In r (rows canon) ->
       exists s, at_col (columns canon) "INV TYPE" (snd r) = Str s /\
                 In s valid_investors) /\
    (forall r f, In r (rows canon) ->
       In f ["SECTOR"; "SUB-SECTOR"; "SEGMENT"; "INV TYPE"] ->
       has_col f canon = true ->
       isna (at_col (columns canon) f (snd r)) = false) /\
    has_col "SECTOR" canon = true /\ has_col "INV TYPE" canon = true /\
    exists st1 pre,
      (_clean_data_index conv ;;; _clean_data_remap) st = (Ok tt, st1) /\
      data st1 = Some pre /\ columns canon = columns pre /\
      forall r, In r (rows canon) <->
                In r (rows pre) /\
                isin_cell valid_investors
                          (at_col (columns pre) "INV TYPE" (snd r)) = true.
Proof.
  intros Hd Hwf E.
  destruct (clean_data_canonical conv _ _ _ Hd Hwf E)
    as (canon & Hc & Hcan & HS & HI).
  exists canon. split; [exact Hc|]. split; [|split; [|split; [|split]]]; auto.
  - intros r Hr. destruct Hcan as [_ Hall]. rewrite Forall_forall in Hall.
    destruct (Hall r Hr) as [_ Hv]. apply isin_cell_true. exact Hv.
  - intros r f Hr _ Hf. apply canonical_notna; auto.
  - destruct (clean_data_ok conv _ _ E)
      as (raw' & pD & idx & pS & pI & Hd' & HpD & Ht & HpS & HpI & E1 & E2 & ->).
    simpl in Hc. inversion Hc; subst canon.
    exists (with_data (remap_frame pS pI (indexed_frame raw' idx)) st),
           (remap_frame pS pI (indexed_frame raw' idx)).
    split; [|split; [reflexivity|split; [reflexivity|]]].
    + unfold bind. rewrite E1. exact E2.
    + intros r. simpl. rewrite filter_In. unfold valid_row.
      unfold at_col. simpl in HpI. rewrite HpI. reflexivity.
Qed.

(** C5, in the form that holds. Running the renaming, filling, remapping and
    filtering blocks again on the table [_clean_data] has left changes
    nothing; running the whole of [_clean_data] again raises a key error,
    the date column having become the row label. *)
Theorem normalizer_fixed_point (st st' : Dashboard) :
  _clean_data conv st = (Ok tt, st') ->
  (_clean_data_remap ;;; _clean_data_filter) st' = (Ok tt, st') /\
  _clean_data conv st' = (Raise (KeyError "DT_NEGOCIO"), st').
Proof.
  intros E.
  destruct (clean_data_ok conv _ _ E)
    as (raw & pD & idx & pS & pI & Hd & HpD & Ht & HpS & HpI & _ & _ & ->).
  set (df1 := indexed_frame raw idx) in *.
  set (cols := map (relabel column_mapping) (columns df1)) in *.
  set (canon := mkDF cols (filter (valid_row pI) (rows (remap_frame pS pI df1)))).
  assert (Hcols : map (relabel column_mapping) cols = cols).
  { unfold cols. rewrite map_map. apply map_ext. apply relabel_columns_idem. }
  assert (Hne : pS <> pI)
    by (eapply find_col_diff; [exact HpS | exact HpI | discriminate]).
  assert (Hfix : remap_frame pS pI canon = canon).
  { unfold remap_frame, canon. simpl. rewrite Hcols. f_equal.
    rewrite <- (map_id (filter _ _)) at 2. apply map_ext_in.
    intros [l r] Hr. apply filter_In in Hr. destruct Hr as [Hr Hv].
    apply in_map_iff in Hr. destruct Hr as ([l0 r0] & Hr & _).
    inversion Hr; subst. simpl. f_equal.
    apply remap_row_fixed; auto. }
  split.
  - unfold bind.
    rewrite (remap_run (with_data canon st) canon pS pI); simpl; auto;
      try (rewrite Hcols; assumption).
    rewrite Hfix.
    rewrite (filter_run _ canon pI); simpl; auto.
    f_equal. unfold with_data. simpl. f_equal. f_equal. unfold canon. f_equal.
    apply filter_all. intros r Hr. apply filter_In in Hr. tauto.
  - assert (Hnone : find_col "DT_NEGOCIO" cols = None).
    { apply find_col_none. intros Hin. unfold cols in Hin.
      apply in_map_iff in Hin. destruct Hin as (c & Hc & Hin).
      apply relabel_not_date in Hc. subst c. simpl in Hin.
      apply filter_In in Hin. destruct Hin as [_ Hin]. discriminate. }
    unfold _clean_data, bind, _clean_data_index, bind, get_data, lift.
    simpl. unfold getitem. simpl. fold cols. rewrite Hnone. reflexivity.
Qed.
End NormalizerClaims.

(** C1 on the scenario of the specification. *)
Lemma normalizer_invariant_witness :
  wf_frame scenario_raw /\
  _clean_data stamp_of_number (with_data scenario_raw init)
  = (Ok tt, scenario_clean) /\
  exists canon, data scenario_clean = Some canon /\
    forall r, In r (rows canon) ->
      exists s, at_col (columns canon) "INV TYPE" (snd r) = Str s /\
                In s valid_investors.
Proof.
  assert (Hwf : wf_frame scenario_raw) by (repeat constructor).
  assert (E : _clean_data stamp_of_number (with_data scenario_raw init)
              = (Ok tt, scenario_clean)) by (vm_compute; reflexivity).
  split; [exact Hwf|]. split; [exact E|].
  destruct (normalizer_invariant stamp_of_number
              (with_data scenario_raw init) scenario_clean scenario_raw
              eq_refl Hwf E) as (canon & Hc & Hv & _).
  exists canon. split; [exact Hc | exact Hv].
Defined.

(** C5 as stated fails: [_clean_data] on the canonical table of the scenario
    does not return that table, it raises. *)
Lemma normalizer_rerun_raises :
  (exists canon, data scenario_clean = Some canon /\ canonical canon) /\
  _clean_data stamp_of_number scenario_clean
  = (Raise (KeyError "DT_NEGOCIO"), scenario_clean) /\
  ~ (exists st2, _clean_data stamp_of_number scenario_clean = (Ok tt, st2) /\
                 data st2 = data scenario_clean).
Proof.
  assert (E : _clean_data stamp_of_number scenario_clean
              = (Raise (KeyError "DT_NEGOCIO"), scenario_clean))
    by (vm_compute; reflexivity).
  split; [|split; [exact E|]].
  - eexists. split; [reflexivity|]. split.
    + repeat constructor.
    + repeat constructor.
  - intros (st2 & E2 & _). rewrite E in E2. discriminate.
Qed.

Lemma normalizer_fixed_point_witness :
  _clean_data stamp_of_number (with_data scenario_raw init)
  = (Ok tt, scenario_clean) /\
  (_clean_data_remap ;;; _clean_data_filter) scenario_clean
  = (Ok tt, scenario_clean).
Proof.
  assert (E : _clean_data stamp_of_number (with_data scenario_raw init)
              = (Ok tt, scenario_clean)) by (vm_compute; reflexivity).
  split; [exact E|].
  exact (proj1 (normalizer_fixed_point stamp_of_number _ _ E)).
Defined.

(** ** Rows through the normalizer *)

Lemma bind_assoc {A B C} (m : M A) (f : A -> M B) (g : B -> M C)
      (st : Dashboard) :
  bind (bind m f) g st = bind m (fun a => bind (f a) g) st.
Proof.
  unfold bind. destruct (m st) as [[a|e] s]; auto.
Qed.

Lemma at_col_cons (c name : string) (cols : list string) (v : cell)
      (r : list cell) :
  at_col (c :: cols) name (v :: r)
  = if String.eqb c name then v else at_col cols name r.
Proof.
  unfold at_col. simpl. destruct (String.eqb c name); auto.
  destruct (find_col name cols); reflexivity.
Qed.

Lemma at_col_keep_cols (drop name : string) (cols : list string)
      (r : list cell) :
  name <> drop -> List.length r = List.length cols ->
  at_col (filter (fun c => negb (String.eqb c drop)) cols) name
         (keep_cols drop cols r)
  = at_col cols name r.
Proof.
  intros Hne. revert r. induction cols as [|c cols IH]; intros [|v r]; simpl;
    intros Hl; try discriminate; auto.
  unfold keep_cols. simpl. rewrite at_col_cons.
  destruct (String.eqb c drop) eqn:Ec; simpl.
  - apply String.eqb_eq in Ec. subst c.
    destruct (String.eqb drop name) eqn:En.
    + apply String.eqb_eq in En. congruence.
    + apply IH. lia.
  - rewrite at_col_cons. destruct (String.eqb c name); auto.
    apply IH. lia.
Qed.

Lemma find_col_map_inj (f : string -> string) (name : string)
      (cols : list string) :
  NoDup (map f cols) -> In name cols ->
  find_col (f name) (map f cols) = find_col name cols.
Proof.
  induction cols as [|c cols IH]; simpl; intros Hnd Hin; [contradiction|].
  inversion Hnd as [|? ? Hc Hnd']; subst.
  destruct (String.eqb c name) eqn:Ec.
  - apply String.eqb_eq in Ec. subst. rewrite String.eqb_refl. reflexivity.
  - apply String.eqb_neq in Ec. destruct Hin as [->|Hin]; [congruence|].
    destruct (String.eqb (f c) (f name)) eqn:Ef.
    + apply String.eqb_eq in Ef. exfalso. apply Hc. rewrite Ef.
      apply in_map. assumption.
    + rewrite IH; auto.
Qed.

Lemma distinct_labels_kept (relab : string -> string) (keep : string -> bool)
      (cols : list string) :
  NoDup (map relab cols) -> NoDup (map relab (filter keep cols)).
Proof.
  intros Hnd. induction cols as [|c cols IH]; simpl in *; [exact Hnd|].
  apply NoDup_cons_iff in Hnd. destruct Hnd as [Hc Hnd].
  destruct (keep c); simpl; [|exact (IH Hnd)].
  apply NoDup_cons_iff. split; [|exact (IH Hnd)].
  intros Hin. apply Hc. apply in_map_iff in Hin.
  destruct Hin as (c' & Hc' & Hin). apply filter_In in Hin.
  apply in_map_iff. exists c'. tauto.
Qed.

Lemma nth_error_combine {A B} (l : list A) (l' : list B) (i : nat) (x : B) :
  List.length l = List.length l' -> nth_error l' i = Some x ->
  exists y, nth_error (combine l l') i = Some (y, x).
Proof.
  revert l' i. induction l as [|a l IH]; intros [|b l'] [|i]; simpl;
    intros Hl E; try discriminate.
  - inversion E; subst. eauto.
  - apply IH; auto.
Qed.

Lemma remap_row_others (pS pI p : nat) (r : list cell) :
  (p < List.length r)%nat -> nth p r NaN = NaN ->
  nth p (remap_row pS pI r) NaN = Str "Others".
Proof.
  intros Hp Hn. unfold remap_row.
  set (F := map (fill_cell (Str "Others")) r).
  assert (HlF : List.length F = List.length r) by (unfold F; apply length_map).
  assert (HF : nth p F NaN = Str "Others").
  { rewrite (nth_indep F NaN (fill_cell (Str "Others") NaN)) by lia.
    unfold F. rewrite map_nth, Hn. reflexivity. }
  set (r2 := upd pS (replace_cell sector_mapping (nth pS F NaN)) F).
  assert (H2 : nth p r2 NaN = Str "Others").
  { unfold r2. destruct (Nat.eq_dec pS p) as [->|Hne].
    - rewrite upd_nth_same by lia. rewrite HF. reflexivity.
    - rewrite upd_nth_other by assumption. exact HF. }
  destruct (Nat.eq_dec pI p) as [->|Hne].
  - rewrite upd_nth_same by (unfold r2; rewrite upd_length; lia).
    rewrite H2. reflexivity.
  - rewrite upd_nth_other by assumption. exact H2.
Qed.

Section RowClaims.
Variable conv : cell -> option Z.

(** C10. Through [_clean_data] every raw row keeps its place up to the
    filter, and each of its cells that was absent under a column other
    than the date, the buy, sell, net and total amounts included, holds
    the string ["Others"] under the renamed label; the row then stays in
    the canonical table exactly when its investor type is one of the
    three.  An absent amount raises nothing and drops nothing. *)
Theorem null_amount_filled (st st' : Dashboard) (raw : DataFrame) :
  data st = Some raw -> wf_frame raw ->
  NoDup (map (relabel column_mapping) (columns raw)) ->
  _clean_data conv st = (Ok tt, st') ->
  exists st1 pre canon,
    (_clean_data_index conv ;;; _clean_data_remap) st = (Ok tt, st1) /\
    data st1 = Some pre /\ data st' = Some canon /\
    List.length (rows pre) = List.length (rows raw) /\
    forall i l r, nth_error (rows raw) i = Some (l, r) ->
      exists l' r',
        nth_error (rows pre) i = Some (l', r') /\
        (forall a, a <> "DT_NEGOCIO" -> has_col a raw = true ->
                   at_col (columns raw) a r = NaN ->
                   at_col (columns pre) (relabel column_mapping a) r'
                   = Str "Others") /\
        (In "VL_COMPRA" (columns raw) -> at_col (columns raw) "VL_COMPRA" r = NaN ->
         at_col (columns pre) "BUY R$" r' = Str "Others") /\
        (In "VL_VENDA" (columns raw) -> at_col (columns raw) "VL_VENDA" r = NaN ->
         at_col (columns pre) "SELL R$" r' = Str "Others") /\
        (In "VL_NET" (columns raw) -> at_col (columns raw) "VL_NET" r = NaN ->
         at_col (columns pre) "NET R$" r' = Str "Others") /\
        (In "VL_TOTAL" (columns raw) -> at_col (columns raw) "VL_TOTAL" r = NaN ->
         at_col (columns pre) "TOTAL" r' = Str "Others") /\
        (In (l', r') (rows canon) <->
         isin_cell valid_investors
                   (at_col (columns pre) "INV TYPE" r') = true).
Proof.
  intros Hd Hwf Hnd E.
  destruct (clean_data_ok conv _ _ E)
    as (raw' & pD & idx & pS & pI & Hd' & HpD & Ht & HpS & HpI & E1 & E2 & ->).
  assert (raw' = raw) by congruence. subst raw'.
  set (df1 := indexed_frame raw idx) in *.
  exists (with_data (remap_frame pS pI df1) st), (remap_frame pS pI df1).
  eexists. split; [|split; [reflexivity|split; [reflexivity|]]].
  { unfold bind. rewrite E1. exact E2. }
  assert (Hlen : List.length idx = List.length (rows raw)).
  { apply traverse_length in Ht. rewrite length_map in Ht. exact Ht. }
  split.
  { unfold remap_frame, df1, indexed_frame. simpl.
    rewrite !length_map, length_combine. lia. }
  assert (Hgen : forall i l r, nth_error (rows raw) i = Some (l, r) ->
    exists l' r',
      nth_error (rows (remap_frame pS pI df1)) i = Some (l', r') /\
      forall a, a <> "DT_NEGOCIO" -> has_col a raw = true ->
                at_col (columns raw) a r = NaN ->
                at_col (columns (remap_frame pS pI df1))
                       (relabel column_mapping a) r' = Str "Others").
  { intros i l r Hi.
    destruct (nth_error_combine idx (rows raw) i (l, r) Hlen Hi) as (l' & Hc).
    exists l', (remap_row pS pI (keep_cols "DT_NEGOCIO" (columns raw) r)).
    split.
    { unfold remap_frame, df1, indexed_frame. simpl.
      rewrite !nth_error_map, Hc. reflexivity. }
    intros a Ha Hhas Hnan.
    assert (Hr : List.length r = List.length (columns raw)).
    { unfold wf_frame in Hwf. rewrite Forall_forall in Hwf.
      apply (Hwf (l, r)). eapply nth_error_In. exact Hi. }
    assert (Hin1 : In a (columns df1)).
    { unfold df1, indexed_frame. simpl. apply filter_In. split.
      - unfold has_col in Hhas.
        destruct (find_col a (columns raw)) eqn:F; try discriminate.
        apply find_col_nth in F. eapply nth_error_In. exact F.
      - apply negb_true_iff. apply String.eqb_neq. exact Ha. }
    assert (Hnd1 : NoDup (map (relabel column_mapping) (columns df1))).
    { unfold df1, indexed_frame. simpl. apply distinct_labels_kept. exact Hnd. }
    change (columns (remap_frame pS pI df1))
      with (map (relabel column_mapping) (columns df1)).
    unfold at_col at 1.
    rewrite (find_col_map_inj _ _ _ Hnd1 Hin1).
    destruct (find_col a (columns df1)) as [p|] eqn:Fp.
    - pose proof (at_col_keep_cols "DT_NEGOCIO" a (columns raw) r Ha Hr)
        as Hk.
      change (filter (fun c => negb (String.eqb c "DT_NEGOCIO")) (columns raw))
        with (columns df1) in Hk.
      unfold at_col in Hk at 1. rewrite Fp in Hk.
      apply remap_row_others.
      + rewrite (keep_cols_length _ _ _ Hr).
        change (filter (fun c => negb (String.eqb c "DT_NEGOCIO")) (columns raw))
          with (columns df1).
        eapply find_col_lt. exact Fp.
      + rewrite Hk. exact Hnan.
    - apply find_col_none in Fp. contradiction. }
  intros i l r Hi. destruct (Hgen i l r Hi) as (l' & r' & Hn & Hall).
  assert (Hcol : forall a, In a (columns raw) -> has_col a raw = true).
  { intros a Hin. unfold has_col.
    destruct (find_col a (columns raw)) eqn:F; auto.
    apply find_col_none in F. contradiction. }
  exists l', r'. split; [exact Hn|]. split; [exact Hall|].
  split; [|split; [|split; [|split]]].
  - intros Hin Hnan. apply (Hall "VL_COMPRA"); auto. discriminate.
  - intros Hin Hnan. apply (Hall "VL_VENDA"); auto. discriminate.
  - intros Hin Hnan. apply (Hall "VL_NET"); auto. discriminate.
  - intros Hin Hnan. apply (Hall "VL_TOTAL"); auto. discriminate.
  - simpl. rewrite filter_In. unfold valid_row, at_col. simpl.
    simpl in HpI. rewrite HpI. simpl.
    apply nth_error_In in Hn. tauto.
Qed.
End RowClaims.

Lemma null_amount_filled_witness :
  wf_frame null_net_raw /\
  NoDup (map (relabel column_mapping) (columns null_net_raw)) /\
  _clean_data stamp_of_number (with_data null_net_raw init)
  = (Ok tt, null_net_clean) /\
  exists canon,
    data null_net_clean = Some canon /\
    exists l r, In (l, r) (rows canon) /\
                at_col (columns canon) "NET R$" r = Str "Others".
Proof.
  assert (Hwf : wf_frame null_net_raw) by (repeat constructor).
  assert (Hnd : NoDup (map (relabel column_mapping) (columns null_net_raw))).
  { repeat (constructor; [simpl; intuition discriminate|]). constructor. }
  assert (E : _clean_data stamp_of_number (with_data null_net_raw init)
              = (Ok tt, null_net_clean)) by (vm_compute; reflexivity).
  split; [exact Hwf|]. split; [exact Hnd|]. split; [exact E|].
  destruct (null_amount_filled stamp_of_number
              (with_data null_net_raw init) null_net_clean
              null_net_raw eq_refl Hwf Hnd E)
    as (st1 & pre & canon & E1 & Hpre & Hcanon & _ & Hrows).
  exists canon. split; [exact Hcanon|].
  destruct (Hrows 0%nat (Pos 0) _ eq_refl)
    as (l' & r' & Hn & _ & _ & _ & Hnet & _ & Hkeep).
  exists l', r'.
  assert (E1' : (_clean_data_index stamp_of_number ;;; _clean_data_remap)
                  (with_data null_net_raw init)
                = (Ok tt, st1) -> data st1 = Some pre ->
                pre = mkDF ["SECTOR"; "SUB-SECTOR"; "SEGMENT"; "INV TYPE";
                            "BUY R$"; "SELL R$"; "NET R$"; "TOTAL"]
                           (rows pre) /\
                nth_error (rows pre) 0 =
                Some (Stamp 1, [Str "BANK"; Str "Others"; Str "Others";
                                Str "RETAIL"; Num 3500000; Num 1500000;
                                Str "Others"; Num 5000000])).
  { vm_compute. intros H1 H2. inversion H1; subst st1.
    inversion H2; subst pre. split; reflexivity. }
  destruct (E1' E1 Hpre) as [Hcols Hrow0].
  rewrite Hrow0 in Hn. inversion Hn; subst l' r'. clear Hn.
  split.
  - apply Hkeep. rewrite Hcols. reflexivity.
  - inversion Hcanon; subst canon. reflexivity.
Defined.

Section EmptyClaims.
Variable conv : cell -> option Z.

(** C7. When every row of the remapped table has an investor type outside
    the three, [_clean_data] still succeeds and leaves a table without
    rows; on that table, the net and total columns being there,
    [_process_data] succeeds and every one of the five views is empty. *)
Theorem empty_after_filter (st st1 : Dashboard) (pre : DataFrame) :
  (_clean_data_index conv ;;; _clean_data_remap) st = (Ok tt, st1) ->
  data st1 = Some pre ->
  (forall r, In r (rows pre) ->
     isin_cell valid_investors
               (at_col (columns pre) "INV TYPE" (snd r)) = false) ->
  has_col "NET R$" pre = true -> has_col "TOTAL" pre = true ->
  exists st2 st3,
    _clean_data conv st = (Ok tt, st2) /\
    data st2 = Some (mkDF (columns pre) []) /\
    _process_data st2 = (Ok tt, st3) /\
    views st3 = (Some [], Some [], Some [],
                 Some (mkPivot [] [] []), Some (mkPivot [] [] [])).
Proof.
  intros E Hd Hinv Hnet Htot.
  apply bind_ok in E. destruct E as ([] & s & E1 & E2).
  destruct (remap_ok _ _ E2) as (df & pS & pI & Hs & HpS & HpI & ->).
  simpl in Hd. inversion Hd; subst pre. clear Hd.
  set (pre := remap_frame pS pI df) in *.
  assert (HI : find_col "INV TYPE" (columns pre) = Some pI) by exact HpI.
  assert (HS : find_col "SECTOR" (columns pre) = Some pS) by exact HpS.
  assert (Hnone : filter (valid_row pI) (rows pre) = []).
  { apply filter_none. intros r Hr. specialize (Hinv r Hr).
    unfold valid_row. rewrite (at_col_nth _ _ _ _ HI) in Hinv. exact Hinv. }
  clearbody pre.
  exists (with_data (mkDF (columns pre) []) (with_data pre s)).
  eexists. split; [|split; [reflexivity|]].
  - unfold _clean_data, bind. rewrite E1.
    fold (bind _clean_data_remap (fun _ => _clean_data_filter) s).
    unfold bind. rewrite E2.
    rewrite (filter_run (with_data pre s) pre pI eq_refl HI).
    rewrite Hnone. reflexivity.
  - unfold has_col in Hnet, Htot.
    destruct (find_col "NET R$" (columns pre)) as [pN|] eqn:HN;
      try discriminate.
    destruct (find_col "TOTAL" (columns pre)) as [pT|] eqn:HT;
      try discriminate.
    unfold _process_data, bind, get_data, lift. simpl.
    unfold getitem. simpl. rewrite HI, HS, HN, HT. simpl.
    split; reflexivity.
Qed.
End EmptyClaims.

Lemma empty_after_filter_witness :
  (_clean_data_index stamp_of_number ;;; _clean_data_remap)
    (with_data unknown_raw init) = (Ok tt, unknown_remapped) /\
  data unknown_remapped = Some unknown_pre /\
  exists st2 st3,
    _clean_data stamp_of_number (with_data unknown_raw init) = (Ok tt, st2) /\
    data st2 = Some (mkDF (columns unknown_pre) []) /\
    _process_data st2 = (Ok tt, st3) /\
    views st3 = (Some [], Some [], Some [],
                 Some (mkPivot [] [] []), Some (mkPivot [] [] [])).
Proof.
  assert (E : (_clean_data_index stamp_of_number ;;; _clean_data_remap)
                (with_data unknown_raw init) = (Ok tt, unknown_remapped))
    by (vm_compute; reflexivity).
  assert (Hinv : forall r, In r (rows unknown_pre) ->
             isin_cell valid_investors
               (at_col (columns unknown_pre) "INV TYPE" (snd r)) = false).
  { intros r [<-|[]]. reflexivity. }
  split; [exact E|]. split; [reflexivity|].
  exact (empty_after_filter stamp_of_number (with_data unknown_raw init)
           unknown_remapped unknown_pre E eq_refl Hinv eq_refl eq_refl).
Defined.

(** ** The aggregator *)

Lemma canonical_getitem_notna (df : DataFrame) (name : string)
      (col : list cell) :
  canonical df -> getitem df name = Ok col ->
  Forall (fun c => isna c = false) col.
Proof.
  intros Hcan Hg. destruct (getitem_ok _ _ _ Hg) as (p & Hp & ->).
  apply Forall_forall. intros c Hc. apply in_map_iff in Hc.
  destruct Hc as (r & <- & Hr).
  rewrite <- (at_col_nth _ _ _ _ Hp).
  apply canonical_notna; auto. unfold has_col. rewrite Hp. reflexivity.
Qed.

Lemma getitem_length (df : DataFrame) (name : string) (col : list cell) :
  getitem df name = Ok col -> List.length col = List.length (rows df).
Proof.
  intros Hg. destruct (getitem_ok _ _ _ Hg) as (p & _ & ->).
  apply length_map.
Qed.

Section Values.
Context {K : Type} `{KeyLaws K}.


Lemma series_entry (keys : list K) (vals : list cell)
      (g t : list (K * cell)) (k : K) (x : cell) :
  groupby_sum keys vals = Ok g -> series_scale g = Ok t -> In (k, x) t ->
  kna k = false /\ In k (map fst g) /\
  exists v, x = Num v /\
            (v == amount_under k (combine keys vals) / 1000000)%Q.
Proof.
  intros E Hs Hin.
  destruct (Forall2_in_r _ _ _ _ (series_scale_ok _ _ Hs) Hin)
    as ([k0 s] & He & Hk & Hx). simpl in Hk, Hx. subst k0.
  destruct (group_entry _ _ _ _ _ _ E He Hx) as (Hna & q & _ & -> & Hq & _).
  split; auto. split.
  - apply in_map_iff. exists (k, s). auto.
  - eexists. split; [reflexivity|]. rewrite Hq. reflexivity.
Qed.
End Values.





Lemma scenario_table_canonical : canonical scenario_table.
Proof. split; repeat constructor. Qed.


(** ** Sum consistency *)

Lemma qsum_scale {A} (f : A -> Q) (c : Q) (l : list A) :
  (qsum (map (fun x => f x / c) l) == qsum (map f l) / c)%Q.
Proof.
  induction l as [|x l IH]; simpl.
  - unfold Qdiv. ring.
  - rewrite IH. unfold Qdiv. ring.
Qed.

Lemma qsum_Forall2 {A B} (R : A -> B -> Prop) (p : A -> bool) (p' : B -> bool)
      (f : A -> Q) (f' : B -> Q) (l : list A) (l' : list B) :
  Forall2 R l l' ->
  (forall x y, In x l -> R x y -> p x = p' y /\ (f x == f' y)%Q) ->
  (qsum (map f (filter p l)) == qsum (map f' (filter p' l')))%Q.
Proof.
  induction 1 as [|x y l l' Hxy _ IH]; simpl; intros HR.
  - reflexivity.
  - destruct (HR x y (or_introl eq_refl) Hxy) as [Hp Hf].
    rewrite <- Hp. specialize (IH (fun a b Ha => HR a b (or_intror Ha))).
    destruct (p x); simpl; rewrite IH; [rewrite Hf|]; reflexivity.
Qed.

Lemma filter_map_comm {A B} (f : A -> B) (p : B -> bool) (l : list A) :
  filter p (map f l) = map f (filter (fun x => p (f x)) l).
Proof.
  induction l as [|x l IH]; simpl; auto.
  destruct (p (f x)); simpl; congruence.
Qed.

Lemma string_eqb_compare (s t : string) :
  String.eqb s t = match String.compare s t with Eq => true | _ => false end.
Proof.
  destruct (String.eqb s t) eqn:E.
  - apply String.eqb_eq in E. subst. rewrite string_compare_refl. reflexivity.
  - apply String.eqb_neq in E.
    destruct (String.compare s t) eqn:C; auto.
    apply String.compare_eq_iff in C. contradiction.
Qed.

Lemma cell_eqb_keq (a c : cell) : isna c = false -> cell_eqb a c = keq a c.
Proof.
  destruct a as [|s|p], c as [|t|q]; simpl; intros Hc; try discriminate;
    unfold keq; simpl; auto.
  - apply string_eqb_compare.
  - destruct (Qeq_bool p q) eqn:E.
    + apply Qeq_bool_iff in E. apply Qeq_alt in E. rewrite E. reflexivity.
    + destruct (p ?= q)%Q eqn:C; auto.
      apply Qeq_alt in C. apply Qeq_bool_iff in C. congruence.
Qed.

Lemma pair_keq_fst {A B} `{KeyLaws A} `{KeyLaws B} (x y : A * B) :
  keq x y = true -> keq (fst x) (fst y) = true.
Proof.
  unfold keq. simpl. destruct (kcmp (fst x) (fst y)); auto.
Qed.

(** C2. After [_process_data] on a canonical table every investor type of
    the table has its entry in the total-net view, and for each entry of
    that view the values of the sector summary under the same investor type
    add up to it. *)
Theorem sum_consistency (st st' : Dashboard) (df : DataFrame) :
  data st = Some df -> canonical df ->
  _process_data st = (Ok tt, st') ->
  exists summary tot,
    net_sector_summary st' = Some summary /\
    total_net_by_type st' = Some tot /\
    (forall r, In r (rows df) ->
       exists x, In (at_col (columns df) "INV TYPE" (snd r), x) tot) /\
    forall c x, In (c, x) tot ->
      exists v, x = Num v /\
        (qsum (map (fun r => num (sr_net r))
                   (filter (fun r => cell_eqb (sr_inv r) c) summary)) == v)%Q.
Proof.
  intros Hd Hcan E.
  destruct (process_data_ok _ _ E) as (df' & Hd' & _ & Hv).
  assert (df' = df) by congruence. subst df'.
  destruct Hv as (inv & sec & net & total & sums & scaled & s1 & tot & s2 &
                  vol & daily & daily' & evol & evol' & Hinv & Hsec & Hnet &
                  Htotal & Hsums & Hscaled & Hs1 & Htot & Hs2 & Hvol &
                  Hdaily & Hdaily' & Hevol & Hevol' & Hviews).
  exists scaled, tot.
  split; [inversion Hviews; reflexivity|].
  split; [inversion Hviews; reflexivity|].
  pose proof (canonical_getitem_notna _ _ _ Hcan Hinv) as Ninv.
  pose proof (canonical_getitem_notna _ _ _ Hcan Hsec) as Nsec.
  destruct (getitem_ok _ _ _ Hinv) as (pI & HpI & Einv).
  destruct (getitem_ok _ _ _ Hsec) as (pS & HpS & Esec).
  destruct (getitem_ok _ _ _ Hnet) as (pN & HpN & Enet).
  split.
  - intros r Hr. rewrite (at_col_nth _ _ _ _ HpI).
    assert (Hp : In (nth pI (snd r) NaN, nth pN (snd r) NaN) (combine inv net)).
    { rewrite Einv, Enet, combine_map. apply in_map_iff. exists r. auto. }
    assert (Hna : kna (fst (nth pI (snd r) NaN, nth pN (snd r) NaN)) = false).
    { simpl. rewrite Forall_forall in Ninv. apply Ninv. rewrite Einv.
      apply in_map_iff. exists r. auto. }
    destruct (group_key_cover _ _ _ _ Hs1 Hp Hna) as ([k s] & He & Ek).
    simpl in Ek.
    destruct (Forall2_in_l _ _ _ _ (series_scale_ok _ _ Htot) He)
      as ([k' x] & Hin & Hk & _). simpl in Hk. subst k'.
    assert (k = nth pI (snd r) NaN).
    { destruct Hcan as [_ Hall]. rewrite Forall_forall in Hall.
      destruct (Hall r Hr) as [_ Hvalid].
      rewrite (at_col_nth _ _ _ _ HpI) in Hvalid.
      apply isin_cell_true in Hvalid. destruct Hvalid as (s0 & Hs0 & _).
      rewrite Hs0 in *. apply keq_true in Ek. simpl in Ek.
      destruct k as [|t|q]; simpl in Ek; try discriminate.
      apply String.compare_eq_iff in Ek. congruence. }
    subst k. eauto.
  - intros c x Hin.
    destruct (series_entry _ _ _ _ _ _ Hs1 Htot Hin)
      as (Hna & _ & v & -> & Hv).
    exists v. split; [reflexivity|]. rewrite Hv. clear Hv.
    set (kv2 := combine (combine inv sec) net).
    assert (Hlive : live (combine inv sec) net = kv2).
    { unfold live. apply filter_all. intros p Hp.
      unfold kv2 in Hp. rewrite Einv, Esec, Enet, !combine_map in Hp.
      apply in_map_iff in Hp. destruct Hp as (r & <- & Hr). simpl.
      rewrite Forall_forall in Ninv, Nsec.
      rewrite (Ninv (nth pI (snd r) NaN)), (Nsec (nth pS (snd r) NaN)); auto.
      - rewrite Esec. apply in_map_iff. exists r. auto.
      - rewrite Einv. apply in_map_iff. exists r. auto. }
    destruct (groupby_sum_ok _ _ _ Hsums) as [HG _]. rewrite Hlive in HG.
    pose (P := fun g : cell * cell => keq (fst g) c).
    assert (HP : forall a b : cell * cell, keq a b = true -> P a = P b).
    { intros a b Hab. unfold P. apply keq_l. apply pair_keq_fst. exact Hab. }
    assert (H1 : (qsum (map (fun r => num (sr_net r))
                            (filter (fun r => cell_eqb (sr_inv r) c) scaled))
                  == qsum (map (fun e => amount_under (fst e) kv2 / 1000000)
                               (filter (fun e => P (fst e)) sums)))%Q).
    { symmetry.
      apply (qsum_Forall2
               (fun e r => sr_inv r = fst (fst e) /\
                           scale_cell (snd e) = Ok (sr_net r))).
      - pose proof (summary_scale_ok _ _ Hscaled) as HF.
        unfold summary_of in HF. apply Forall2_map_l in HF.
        eapply Forall2_impl; [|exact HF]. simpl. intros e r (Hi & _ & Hx).
        auto.
      - intros [[ci si] s] r He [Hi Hx]. simpl in Hi, Hx. split.
        + unfold P. simpl. rewrite Hi. symmetry. apply cell_eqb_keq.
          exact Hna.
        + destruct (group_entry _ _ _ _ _ _ Hsums He Hx)
            as (_ & q & _ & Hr & Hq & _).
          rewrite Hr. simpl. rewrite Hq. reflexivity. }
    rewrite H1, qsum_scale.
    assert (H2 : map (fun e : cell * cell * cell => amount_under (fst e) kv2)
                     (filter (fun e => P (fst e)) sums)
                 = map (fun g => amount_under g kv2)
                       (filter P (map fst sums))).
    { rewrite filter_map_comm, map_map. reflexivity. }
    rewrite H2, HG.
    rewrite (group_partition _ P kv2 (sort_uniq_strongly_sorted _) HP)
      by (intros r Hr; apply sort_uniq_cover; apply in_map; exact Hr).
    unfold amount_under, kv2, P.
    rewrite Einv, Esec, Enet, !combine_map, !filter_map_comm, !map_map.
    simpl. reflexivity.
Qed.

Lemma sum_consistency_witness :
  canonical scenario_table /\
  _process_data scenario_clean = (Ok tt, scenario_done) /\
  exists summary tot,
    net_sector_summary scenario_done = Some summary /\
    total_net_by_type scenario_done = Some tot /\
    forall c x, In (c, x) tot ->
      exists v, x = Num v /\
        (qsum (map (fun r => num (sr_net r))
                   (filter (fun r => cell_eqb (sr_inv r) c) summary)) == v)%Q.
Proof.
  assert (E : _process_data scenario_clean = (Ok tt, scenario_done))
    by (vm_compute; reflexivity).
  split; [exact scenario_table_canonical|]. split; [exact E|].
  destruct (sum_consistency scenario_clean scenario_done scenario_table
              eq_refl scenario_table_canonical E)
    as (summary & tot & Hs & Ht & _ & Hsum).
  exists summary, tot. auto.
Defined.

(** ** Dense fill *)

Lemma in_combine_same_l {A B} (l : list A) (l' : list B) (x : A) :
  List.length l = List.length l' -> In x l -> exists y, In (x, y) (combine l l').
Proof.
  revert l'. induction l as [|a l IH]; intros [|b l']; simpl; intros Hl Hin;
    try discriminate; try contradiction.
  destruct Hin as [->|Hin]; [eauto|].
  destruct (IH l' (eq_add_S _ _ Hl) Hin) as (y & Hy). eauto.
Qed.

Section Dense.
Context {K : Type} `{KeyLaws K}.

Lemma pair_keq_snd (x y : label * K) :
  keq x y = true -> keq (snd x) (snd y) = true.
Proof.
  unfold keq. simpl. destruct (label_compare (fst x) (fst y)); auto;
    discriminate.
Qed.

Lemma unstack_covers (idx : list label) (cols : list K) (vals : list cell)
      (agged : list (label * K * cell)) (d : label) (k : K) :
  groupby_sum (combine idx cols) vals = Ok agged ->
  List.length (combine idx cols) = List.length vals ->
  In (d, k) (combine idx cols) -> kna (d, k) = false ->
  (exists d', In d' (pv_index (unstack agged)) /\ keq d' d = true) /\
  (exists k', In k' (pv_columns (unstack agged)) /\ keq k' k = true).
Proof.
  intros E Hl Hin Hna.
  destruct (in_combine_same_l _ vals _ Hl Hin) as (v & Hv).
  destruct (group_key_cover _ _ _ (d, k, v) E Hv Hna) as ([[d0 k0] s] & He & Ek).
  simpl in Ek. split.
  - assert (Hd0 : In d0 (map (fun e : label * K * cell => fst (fst e)) agged))
      by (apply in_map_iff; exists (d0, k0, s); auto).
    apply sort_uniq_cover in Hd0. destruct Hd0 as (y & Hy & Ey).
    exists y. split; [exact Hy|].
    rewrite (keq_l y d0 d Ey). apply (pair_keq_fst _ _ Ek).
  - assert (Hk0 : In k0 (map (fun e : label * K * cell => snd (fst e)) agged))
      by (apply in_map_iff; exists (d0, k0, s); auto).
    apply sort_uniq_cover in Hk0. destruct Hk0 as (y & Hy & Ey).
    exists y. split; [exact Hy|].
    rewrite (keq_l y k0 k Ey). apply (pair_keq_snd _ _ Ek).
Qed.

(** A scaled pivot has a cell for every label and every key found under
    non-null pairs, and the cell of a pair found nowhere is zero. *)
Lemma pivot_dense (idx : list label) (cols : list K) (vals : list cell)
      (p p' : Pivot K) (d d' : label) (k0 k : K) :
  pivot_table idx cols vals = Ok p ->
  pivot_scale (pivot_fillna (Num 0) p) = Ok p' ->
  List.length (combine idx cols) = List.length vals ->
  In (d, k0) (combine idx cols) -> kna (d, k0) = false ->
  In (d', k) (combine idx cols) -> kna (d', k) = false ->
  exists v, pivot_get p' d k = Some (Num v) /\
            ((forall q, In q (combine idx cols) -> keq q (d, k) = false) ->
             (v == 0)%Q).
Proof.
  intros Hp Hs Hl Hd Hnd Hk Hnk.
  destruct (pivot_table_ok _ _ _ _ Hp) as (agged & E & ->).
  destruct (unstack_covers _ _ _ _ _ _ E Hl Hd Hnd) as [Hcd _].
  destruct (unstack_covers _ _ _ _ _ _ E Hl Hk Hnk) as [_ Hck].
  destruct (pivot_scale_ok _ _ _ Hs) as (Hi & Hc & _).
  rewrite <- Hi in Hcd. rewrite <- Hc in Hck.
  destruct (pivot_get_total _ _ _ _ Hs Hcd Hck) as (x & Hx).
  destruct (pivot_cell_value _ _ _ _ _ _ _ _ E Hs Hx) as (v & -> & Hv).
  exists v. split; [exact Hx|]. intros Hnone. rewrite Hv.
  unfold amount_under. rewrite filter_none.
  - simpl. unfold Qdiv. ring.
  - intros [q1 q2] Hq. apply Hnone. apply in_combine_l in Hq. exact Hq.
Qed.
End Dense.

(** C3, in the form that holds. After [_process_data] on a canonical table the daily
    pivot has a numeric cell for every trade date and every investor type
    found in rows that carry a date, and the sector pivot has one for every
    such date and every (investor, sector) pair found in such rows; the
    cell of a combination no row has is zero. *)
Theorem dense_fill (st st' : Dashboard) (df : DataFrame) :
  data st = Some df -> canonical df ->
  _process_data st = (Ok tt, st') ->
  exists inv sec daily evol,
    getitem df "INV TYPE" = Ok inv /\ getitem df "SECTOR" = Ok sec /\
    daily_evolution st' = Some daily /\ evol_sector st' = Some evol /\
    (forall d d' c0 c,
       In (d, c0) (combine (map fst (rows df)) inv) -> isnat d = false ->
       In (d', c) (combine (map fst (rows df)) inv) -> isnat d' = false ->
       exists v, pivot_get daily d c = Some (Num v) /\
         ((forall q, In q (combine (map fst (rows df)) inv) ->
                     keq q (d, c) = false) -> (v == 0)%Q)) /\
    (forall d d' k0 k,
       In (d, k0) (combine (map fst (rows df)) (combine inv sec)) ->
       isnat d = false ->
       In (d', k) (combine (map fst (rows df)) (combine inv sec)) ->
       isnat d' = false ->
       exists v, pivot_get evol d k = Some (Num v) /\
         ((forall q, In q (combine (map fst (rows df)) (combine inv sec)) ->
                     keq q (d, k) = false) -> (v == 0)%Q)).
Proof.
  intros Hd Hcan E.
  destruct (process_data_ok _ _ E) as (df' & Hd' & _ & Hv).
  assert (df' = df) by congruence. subst df'.
  destruct Hv as (inv & sec & net & total & sums & scaled & s1 & tot & s2 &
                  vol & daily & daily' & evol & evol' & Hinv & Hsec & Hnet &
                  Htotal & Hsums & Hscaled & Hs1 & Htot & Hs2 & Hvol &
                  Hdaily & Hdaily' & Hevol & Hevol' & Hviews).
  exists inv, sec, daily', evol'.
  split; [exact Hinv|]. split; [exact Hsec|].
  split; [inversion Hviews; reflexivity|].
  split; [inversion Hviews; reflexivity|].
  pose proof (canonical_getitem_notna _ _ _ Hcan Hinv) as Ninv.
  pose proof (canonical_getitem_notna _ _ _ Hcan Hsec) as Nsec.
  pose proof (getitem_length _ _ _ Hinv) as Linv.
  pose proof (getitem_length _ _ _ Hsec) as Lsec.
  pose proof (getitem_length _ _ _ Hnet) as Lnet.
  rewrite Forall_forall in Ninv, Nsec.
  split.
  - intros d d' c0 c Hd0 Hnd Hc Hnd'.
    apply (pivot_dense _ _ _ _ _ d d' c0 c Hdaily Hdaily'); auto.
    + rewrite length_combine, length_map. lia.
    + simpl. rewrite Hnd. simpl. apply Ninv. eapply in_combine_r. exact Hd0.
    + simpl. rewrite Hnd'. simpl. apply Ninv. eapply in_combine_r. exact Hc.
  - assert (Hpair : forall d k,
              In (d, k) (combine (map fst (rows df)) (combine inv sec)) ->
              kna k = false).
    { intros d [ci si] Hin. apply in_combine_r in Hin. simpl.
      rewrite (Ninv ci), (Nsec si); auto.
      - eapply in_combine_r. exact Hin.
      - eapply in_combine_l. exact Hin. }
    intros d d' k0 k Hd0 Hnd Hk Hnd'.
    apply (pivot_dense _ _ _ _ _ d d' k0 k Hevol Hevol'); auto.
    + rewrite !length_combine, length_map. lia.
    + simpl. rewrite Hnd. simpl. apply (Hpair d k0 Hd0).
    + simpl. rewrite Hnd'. simpl. apply (Hpair d' k Hk).
Qed.

Lemma dense_fill_witness :
  canonical scenario_table /\
  _process_data scenario_clean = (Ok tt, scenario_done) /\
  exists daily v,
    daily_evolution scenario_done = Some daily /\
    pivot_get daily (Stamp 2) (Str "RETAIL") = Some (Num v) /\ (v == 0)%Q.
Proof.
  assert (E : _process_data scenario_clean = (Ok tt, scenario_done))
    by (vm_compute; reflexivity).
  split; [exact scenario_table_canonical|]. split; [exact E|].
  destruct (dense_fill scenario_clean scenario_done scenario_table
              eq_refl scenario_table_canonical E)
    as (inv & sec & daily & evol & Hinv & _ & Hdaily & _ & Hcells & _).
  inversion Hinv; subst inv.
  destruct (Hcells (Stamp 2) (Stamp 1) (Str "LOCALS") (Str "RETAIL"))
    as (v & Hget & Hzero).
  - simpl. auto.
  - reflexivity.
  - simpl. auto.
  - reflexivity.
  - exists daily, v. split; [exact Hdaily|]. split; [exact Hget|].
    apply Hzero. intros q Hq. simpl in Hq.
    destruct Hq as [<-|[<-|[<-|[]]]]; reflexivity.
Defined.

(** C3 as stated fails: the second row of this table has no trade date; its
    investor type is in the canonical table and in the totals, the date of
    the first row is in the pivots, yet neither pivot has a cell for that
    date and that investor type. *)
Lemma dense_fill_undated_gap :
  load_data stamp_of_number (Ok undated_raw) init = (true, undated_done) /\
  exists canon inv sec daily evol tot,
    data undated_done = Some canon /\ canonical canon /\
    getitem canon "INV TYPE" = Ok inv /\ getitem canon "SECTOR" = Ok sec /\
    daily_evolution undated_done = Some daily /\
    evol_sector undated_done = Some evol /\
    total_net_by_type undated_done = Some tot /\
    In (Stamp 1) (map fst (rows canon)) /\
    In (Str "RETAIL") inv /\
    In (Str "RETAIL", Str "BANK") (combine inv sec) /\
    (exists x, In (Str "RETAIL", x) tot) /\
    pivot_get daily (Stamp 1) (Str "RETAIL") = None /\
    pivot_get evol (Stamp 1) (Str "RETAIL", Str "BANK") = None.
Proof.
  split; [vm_compute; reflexivity|].
  eexists. eexists. eexists. eexists. eexists. eexists.
  split; [reflexivity|]. split; [split; repeat constructor|].
  split; [reflexivity|]. split; [reflexivity|].
  split; [reflexivity|]. split; [reflexivity|]. split; [reflexivity|].
  split; [simpl; auto|]. split; [simpl; auto|]. split; [simpl; auto|].
  split; [eexists; simpl; right; left; reflexivity|].
  split; reflexivity.
Qed.

(** ** Ranking *)

Lemma py_lt_num (a b : cell) :
  is_num a = true -> is_num b = true ->
  exists t, py_lt a b = Ok t /\
            (t = true -> (num a <= num b)%Q) /\
            (t = false -> (num b <= num a)%Q).
Proof.
  destruct a as [| |p], b as [| |q]; simpl; try discriminate. intros _ _.
  eexists. split; [reflexivity|].
  destruct (p ?= q)%Q eqn:C; split; intros Ht; try discriminate.
  - apply Qeq_alt in C. rewrite C. apply Qle_refl.
  - apply Qlt_alt in C. apply Qlt_le_weak. exact C.
  - apply Qgt_alt in C. apply Qlt_le_weak. exact C.
Qed.

Lemma insert_desc_ok (x : SummaryRow) (l : list SummaryRow) :
  is_num (sr_net x) = true -> numeric_summary l ->
  exists l', insert_desc x l = Ok l' /\ Permutation (x :: l) l' /\
             numeric_summary l' /\
             (forall a, ge_net a x -> HdRel ge_net a l -> HdRel ge_net a l') /\
             (Sorted ge_net l -> Sorted ge_net l').
Proof.
  intros Hx. induction l as [|y l IH]; intros Hl.
  - exists [x]. simpl.
    split; [reflexivity|]. split; [apply Permutation_refl|].
    split; [constructor; auto|].
    split; [intros a Ha _; constructor; exact Ha|].
    intros _. repeat constructor.
  - inversion Hl as [|? ? Hy Hl']; subst.
    destruct (py_lt_num _ _ Hx Hy) as (t & Ht & Htrue & Hfalse).
    simpl. rewrite Ht. simpl. destruct t.
    + destruct (IH Hl') as (l' & E & Hp & Hn & Hh & Hs). rewrite E. simpl.
      exists (y :: l').
      split; [reflexivity|]. split; [|split; [|split]].
      * rewrite perm_swap. constructor. exact Hp.
      * constructor; auto.
      * intros a _ Ha. inversion Ha; subst. constructor. assumption.
      * intros Hsorted. inversion Hsorted; subst. constructor; auto.
        apply Hh; auto. unfold ge_net. auto.
    + exists (x :: y :: l).
      split; [reflexivity|]. split; [apply Permutation_refl|].
      split; [|split].
      * constructor; auto.
      * intros a Ha _. constructor. exact Ha.
      * intros Hsorted. constructor; auto. constructor.
        unfold ge_net. auto.
Qed.

Lemma sort_desc_ok (l : list SummaryRow) :
  numeric_summary l ->
  exists s, sort_desc l = Ok s /\ Permutation l s /\ numeric_summary s /\
            Sorted ge_net s.
Proof.
  induction l as [|x l IH]; intros Hl.
  - exists []. repeat split; constructor.
  - inversion Hl as [|? ? Hx Hl']; subst.
    destruct (IH Hl') as (s & E & Hp & Hn & Hs).
    destruct (insert_desc_ok x s Hx Hn) as (s' & E' & Hp' & Hn' & _ & Hs').
    exists s'. simpl. rewrite E. simpl. rewrite E'. repeat split; auto.
    rewrite <- Hp'. constructor. exact Hp.
Qed.

Lemma ge_net_trans : Relations_1.Transitive ge_net.
Proof. intros a b c Hab Hbc. unfold ge_net in *. eapply Qle_trans; eauto. Qed.

Lemma sort_values_desc_ok (l : list SummaryRow) :
  numeric_summary l ->
  exists s, sort_values_desc l = Ok s /\ Permutation l s /\
            StronglySorted ge_net s.
Proof.
  intros Hl. unfold sort_values_desc.
  assert (Hall : forall r, In r l -> isna (sr_net r) = false).
  { intros r Hr. unfold numeric_summary in Hl. rewrite Forall_forall in Hl.
    specialize (Hl r Hr). destruct (sr_net r); simpl in *; congruence. }
  rewrite filter_all by (intros r Hr; rewrite (Hall r Hr); reflexivity).
  rewrite filter_none by (intros r Hr; apply (Hall r Hr)).
  destruct (sort_desc_ok l Hl) as (s & E & Hp & _ & Hs).
  exists s. rewrite E. simpl. rewrite app_nil_r. repeat split; auto.
  apply Sorted_StronglySorted; [apply ge_net_trans | exact Hs].
Qed.

Lemma numeric_summary_filter (p : SummaryRow -> bool) (l : list SummaryRow) :
  numeric_summary l -> numeric_summary (filter p l).
Proof.
  unfold numeric_summary. rewrite !Forall_forall. intros Hl r Hr.
  apply filter_In in Hr. apply Hl. tauto.
Qed.

(** C4. On a summary of numbers and for a positive [n],
    [get_top_bottom_sectors] returns the first [n] and the last [n] rows of
    one descending arrangement of the rows of the investor type, each list
    as long as the smaller of [n] and the number of those rows; with no
    more than [n] rows both lists are the whole arrangement, with none both
    are empty. *)
Theorem top_bottom_ranking (st : Dashboard) (summary : list SummaryRow)
        (c : cell) (n : Z) :
  net_sector_summary st = Some summary -> numeric_summary summary ->
  (0 < n)%Z ->
  exists sorted top bottom,
    get_top_bottom_sectors st c n = Ok (top, bottom) /\
    Permutation (filter (fun r => cell_eqb (sr_inv r) c) summary) sorted /\
    StronglySorted ge_net sorted /\
    top = firstn (Z.to_nat n) sorted /\
    bottom = skipn (List.length sorted - Z.to_nat n) sorted /\
    List.length sorted
    = List.length (filter (fun r => cell_eqb (sr_inv r) c) summary) /\
    List.length top = Nat.min (Z.to_nat n) (List.length sorted) /\
    List.length bottom = Nat.min (Z.to_nat n) (List.length sorted) /\
    ((List.length sorted <= Z.to_nat n)%nat -> top = sorted /\ bottom = sorted) /\
    (List.length sorted = 0%nat -> top = [] /\ bottom = []).
Proof.
  intros Hs Hnum Hn.
  destruct (sort_values_desc_ok _ (numeric_summary_filter
                                     (fun r => cell_eqb (sr_inv r) c) _ Hnum))
    as (sorted & E & Hp & Hsorted).
  exists sorted, (firstn (Z.to_nat n) sorted),
         (skipn (List.length sorted - Z.to_nat n) sorted).
  split.
  { unfold get_top_bottom_sectors. rewrite Hs, E. simpl.
    unfold head, tail.
    destruct (0 <=? n)%Z eqn:Hle; [reflexivity|].
    apply Z.leb_gt in Hle. lia. }
  split; [exact Hp|]. split; [exact Hsorted|].
  split; [reflexivity|]. split; [reflexivity|].
  split; [symmetry; apply Permutation_length; exact Hp|].
  split; [apply length_firstn|].
  split; [rewrite length_skipn; lia|].
  split.
  - intros Hle. split.
    + apply firstn_all2. exact Hle.
    + replace (List.length sorted - Z.to_nat n)%nat with 0%nat by lia.
      reflexivity.
  - intros Hz. destruct sorted; [|discriminate]. split.
    + apply firstn_nil.
    + apply skipn_nil.
Qed.

Lemma top_bottom_ranking_witness :
  numeric_summary tie_summary /\ (0 < 2)%Z /\
  exists sorted top bottom,
    get_top_bottom_sectors tie_board (Str "LOCALS") 2 = Ok (top, bottom) /\
    StronglySorted ge_net sorted /\
    top = firstn 2 sorted /\ List.length top = 2%nat.
Proof.
  assert (Hnum : numeric_summary tie_summary) by (repeat constructor).
  assert (Hn : (0 < 2)%Z) by lia.
  split; [exact Hnum|]. split; [exact Hn|].
  destruct (top_bottom_ranking tie_board tie_summary (Str "LOCALS") 2
              eq_refl Hnum Hn)
    as (sorted & top & bottom & E & Hp & Hs & Ht & _ & Hlen & Hl & _).
  exists sorted, top, bottom. repeat split; auto.
  rewrite Hl, Hlen. reflexivity.
Defined.

(** ** Loads *)




Lemma Forall2_map_eq {A B C} (R : A -> B -> Prop) (f : A -> C) (g : B -> C)
      (l : list A) (l' : list B) :
  Forall2 R l l' -> (forall x y, R x y -> f x = g y) -> map f l = map g l'.
Proof.
  induction 1 as [|x y l l' Hxy _ IH]; simpl; intros Hfg; auto.
  rewrite (Hfg x y Hxy), IH; auto.
Qed.



Section LoadClaims.
Variable conv : cell -> option Z.

Lemma load_data_cases (src : result DataFrame) (st : Dashboard) :
  (exists raw s1 st', src = Ok raw /\
      _clean_data conv (with_data raw st) = (Ok tt, s1) /\
      _process_data s1 = (Ok tt, st') /\
      load_data conv src st = (true, st')) \/
  (exists e st',
      (raw <- lift src ;; set_data raw ;;; _clean_data conv) st
      = (Raise e, st') /\
      load_data conv src st = (false, st')) \/
  (exists raw s1 e s2, src = Ok raw /\
      _clean_data conv (with_data raw st) = (Ok tt, s1) /\
      _process_data s1 = (Raise e, s2) /\
      load_data conv src st = (false, s2)).
Proof.
  unfold load_data, bind, lift, set_data.
  destruct src as [raw|e]; simpl.
  - destruct (_clean_data conv (with_data raw st)) as [[[]|e] s1] eqn:Ec.
    + destruct (_process_data s1) as [[[]|e] s2] eqn:Ep.
      * left. exists raw, s1, s2. auto.
      * right. right. exists raw, s1, e, s2. auto.
    + right. left. exists e, s1. auto.
  - right. left. exists e, st. auto.
Qed.

Lemma load_data_true (src : result DataFrame) (st st' : Dashboard) :
  load_data conv src st = (true, st') ->
  exists raw s1, src = Ok raw /\
    _clean_data conv (with_data raw st) = (Ok tt, s1) /\
    _process_data s1 = (Ok tt, st').
Proof.
  intros E.
  destruct (load_data_cases src st)
    as [(raw & s1 & st2 & Hs & Hc & Hp & El)
       |[(e & st2 & _ & El)|(raw & s1 & e & s2 & _ & _ & _ & El)]];
    rewrite El in E; inversion E; subst. eauto.
Qed.



(** C6, in the form that holds. A load ends in one of three ways: it succeeds, and
    the five views are those computed from the one table [_clean_data]
    left; or it fails before the aggregation starts, and the five views
    are what they were; or it fails inside [_process_data]. *)
Theorem load_outcomes (src : result DataFrame) (st : Dashboard) :
  (exists raw s1 canon st',
      src = Ok raw /\
      _clean_data conv (with_data raw st) = (Ok tt, s1) /\
      data s1 = Some canon /\
      load_data conv src st = (true, st') /\
      data st' = Some canon /\ views_of canon (views st')) \/
  (exists e st',
      (raw <- lift src ;; set_data raw ;;; _clean_data conv) st
      = (Raise e, st') /\
      load_data conv src st = (false, st') /\
      views st' = views st) \/
  (exists raw s1 e s2, src = Ok raw /\
      _clean_data conv (with_data raw st) = (Ok tt, s1) /\
      _process_data s1 = (Raise e, s2) /\
      load_data conv src st = (false, s2)).
Proof.
  destruct (load_data_cases src st)
    as [(raw & s1 & st' & Hs & Hc & Hp & El)
       |[(e & st' & Hr & El)|Hlate]].
  - left. destruct (process_data_ok _ _ Hp) as (canon & Hd & Hd' & Hv).
    exists raw, s1, canon, st'. repeat split; assumption.
  - right. left. exists e, st'. split; [exact Hr|]. split; [exact El|].
    unfold bind, lift, set_data in Hr. destruct src as [raw|e0].
    + simpl in Hr.
      pose proof (clean_data_views conv (with_data raw st)) as Hv.
      destruct (_clean_data conv (with_data raw st)) as [[[]|e1] s1];
        inversion Hr; subst. simpl in Hv. exact Hv.
    + inversion Hr; subst. reflexivity.
  - right. right. exact Hlate.
Qed.
End LoadClaims.


(** C6 as stated fails: the table without a total column makes the load
    fail after two views have been assigned.  From a fresh object two views
    exist and three do not; over the views of the scenario two are replaced
    and three are kept. *)
Lemma load_failure_partial :
  load_data stamp_of_number (Ok no_total_raw) init = (false, no_total_first) /\
  net_sector_summary no_total_first
  = Some [mkRow (Str "RETAIL") (Str "ENERGY") (Num (9000000 / 1000000))] /\
  total_net_by_type no_total_first
  = Some [(Str "RETAIL", Num (9000000 / 1000000))] /\
  volume_total_by_type no_total_first = None /\
  daily_evolution no_total_first = None /\
  evol_sector no_total_first = None /\
  load_data stamp_of_number (Ok no_total_raw) scenario_done
  = (false, no_total_second) /\
  net_sector_summary no_total_second = net_sector_summary no_total_first /\
  net_sector_summary no_total_second <> net_sector_summary scenario_done /\
  volume_total_by_type no_total_second = volume_total_by_type scenario_done /\
  daily_evolution no_total_second = daily_evolution scenario_done /\
  views no_total_second <> views scenario_done.
Proof.
  split; [vm_compute; reflexivity|].
  split; [reflexivity|]. split; [reflexivity|]. split; [reflexivity|].
  split; [reflexivity|]. split; [reflexivity|].
  split; [vm_compute; reflexivity|].
  split; [reflexivity|]. split; [discriminate|].
  split; [reflexivity|]. split; [reflexivity|]. discriminate.
Qed.

(** ** When the two methods succeed *)


Section Totality.
Context {K : Type} `{KeyLaws K}.



End Totality.

Section PivotTotality.
Context {K : Type} `{KeyLaws K}.

End PivotTotality.



Section CleanTotality.
Variable conv : cell -> option Z.

(** [_clean_data] succeeds as soon as the date column is there and
    converts, and the sector and investor columns are there after the
    renaming. *)
Lemma clean_data_total (st : Dashboard) (raw : DataFrame) (dates : list cell)
      (idx : list label) :
  data st = Some raw ->
  getitem raw "DT_NEGOCIO" = Ok dates -> to_datetime conv dates = Ok idx ->
  has_col "SECTOR" (rename column_mapping (indexed_frame raw idx)) = true ->
  has_col "INV TYPE" (rename column_mapping (indexed_frame raw idx)) = true ->
  exists st', _clean_data conv st = (Ok tt, st').
Proof.
  intros Hd Hdates Hidx HS HI.
  destruct (getitem_ok _ _ _ Hdates) as (pD & HpD & ->).
  unfold has_col in HS, HI. simpl in HS, HI.
  destruct (find_col "SECTOR" _) as [pS|] eqn:HpS; try discriminate.
  destruct (find_col "INV TYPE" _) as [pI|] eqn:HpI; try discriminate.
  assert (E1 : _clean_data_index conv st
               = (Ok tt, with_data (indexed_frame raw idx) st)).
  { unfold _clean_data_index, bind, get_data, set_data, lift.
    rewrite Hd. unfold getitem. rewrite HpD, Hidx. simpl.
    unfold drop_column, has_col. simpl. rewrite HpD.
    unfold indexed_frame. rewrite map_map. reflexivity. }
  eexists. unfold _clean_data, bind. rewrite E1.
  fold (bind _clean_data_remap (fun _ => _clean_data_filter)
             (with_data (indexed_frame raw idx) st)).
  unfold bind.
  rewrite (remap_run (with_data (indexed_frame raw idx) st)
                     (indexed_frame raw idx) pS pI eq_refl HpS HpI).
  rewrite (filter_run
             (with_data (remap_frame pS pI (indexed_frame raw idx))
                        (with_data (indexed_frame raw idx) st))
             (remap_frame pS pI (indexed_frame raw idx)) pI eq_refl HpI).
  reflexivity.
Qed.
End CleanTotality.

(** * Further properties of the pipeline *)

(** ** How [_clean_data] fails *)

Section CleanFailures.
Variable conv : cell -> option Z.






End CleanFailures.


(** ** When the aggregation succeeds *)



(** ** What the views are keyed by *)

(** X3. After [_process_data] on a canonical table the sector summary has a
    row for an (investor, sector) pair exactly when some row of the table
    carries that pair: a pair without trades has no row, not a zero row. *)
Theorem summary_keys_observed (st st' : Dashboard) (df : DataFrame) :
  data st = Some df -> canonical df ->
  _process_data st = (Ok tt, st') ->
  exists inv sec summary,
    getitem df "INV TYPE" = Ok inv /\ getitem df "SECTOR" = Ok sec /\
    net_sector_summary st' = Some summary /\
    (forall r, In r summary -> In (sr_inv r, sr_sector r) (combine inv sec)) /\
    (forall c s, In (c, s) (combine inv sec) ->
       exists r, In r summary /\ keq (sr_inv r, sr_sector r) (c, s) = true).
Proof.
  intros Hd Hcan E.
  destruct (process_data_ok _ _ E) as (df' & Hd' & _ & Hv).
  assert (df' = df) by congruence. subst df'.
  destruct Hv as (inv & sec & net & total & sums & scaled & s1 & tot & s2 &
                  vol & daily & daily' & evol & evol' & Hinv & Hsec & Hnet &
                  Htotal & Hsums & Hscaled & Hs1 & Htot & Hs2 & Hvol &
                  Hdaily & Hdaily' & Hevol & Hevol' & Hviews).
  exists inv, sec, scaled.
  split; [exact Hinv|]. split; [exact Hsec|].
  split; [inversion Hviews; reflexivity|].
  pose proof (summary_scale_ok _ _ Hscaled) as HF.
  unfold summary_of in HF. apply Forall2_map_l in HF.
  pose proof (canonical_getitem_notna _ _ _ Hcan Hinv) as Ninv.
  pose proof (canonical_getitem_notna _ _ _ Hcan Hsec) as Nsec.
  pose proof (getitem_length _ _ _ Hinv) as Linv.
  pose proof (getitem_length _ _ _ Hsec) as Lsec.
  pose proof (getitem_length _ _ _ Hnet) as Lnet.
  split.
  - intros r Hr.
    destruct (Forall2_in_r _ _ _ _ HF Hr) as ([[c s] v] & He & Hi & Hs & _).
    simpl in Hi, Hs. rewrite Hi, Hs.
    assert (Hk : In (c, s) (map fst sums))
      by (apply in_map_iff; exists (c, s, v); auto).
    destruct (group_key_live _ _ _ _ Hsums Hk) as [Hl _].
    apply in_map_iff in Hl. destruct Hl as ([k v'] & Hkv & Hl). simpl in Hkv.
    subst k. unfold live in Hl. apply filter_In in Hl. destruct Hl as [Hl _].
    eapply in_combine_l. exact Hl.
  - intros c s Hin.
    assert (Hlen : List.length (combine inv sec) = List.length net)
      by (rewrite length_combine; lia).
    destruct (in_combine_same_l _ net _ Hlen Hin) as (v & Hv).
    assert (Hna : kna (fst (c, s, v)) = false).
    { simpl. rewrite Forall_forall in Ninv, Nsec.
      rewrite (Ninv c), (Nsec s); auto.
      - eapply in_combine_r. exact Hin.
      - eapply in_combine_l. exact Hin. }
    destruct (group_key_cover _ _ _ _ Hsums Hv Hna) as (e & He & Ek).
    destruct (Forall2_in_l _ _ _ _ HF He) as (r & Hr & Hi & Hs & _).
    exists r. split; [exact Hr|]. simpl in Ek. rewrite Hi, Hs.
    destruct e as [[c0 s0] v0]. exact Ek.
Qed.

Lemma summary_keys_observed_witness :
  canonical scenario_table /\
  _process_data scenario_clean = (Ok tt, scenario_done) /\
  exists summary r,
    net_sector_summary scenario_done = Some summary /\ In r summary /\
    keq (sr_inv r, sr_sector r) (Str "RETAIL", Str "BANK") = true.
Proof.
  assert (E : _process_data scenario_clean = (Ok tt, scenario_done))
    by (vm_compute; reflexivity).
  split; [exact scenario_table_canonical|]. split; [exact E|].
  destruct (summary_keys_observed scenario_clean scenario_done scenario_table
              eq_refl scenario_table_canonical E)
    as (inv & sec & summary & Hinv & Hsec & Hs & _ & Hcov).
  inversion Hinv; subst inv. inversion Hsec; subst sec.
  destruct (Hcov (Str "RETAIL") (Str "BANK")) as (r & Hr & Hk).
  - simpl. auto.
  - exists summary, r. auto.
Defined.

(** ** The merged sectors *)

Lemma replace_sector_never (c : cell) :
  replace_cell sector_mapping c <> Str "FII" /\
  replace_cell sector_mapping c <> Str "IBOV".
Proof.
  destruct c as [|s|q]; simpl; try (split; discriminate).
  unfold relabel, assoc, sector_mapping.
  destruct (String.eqb "FII" s) eqn:E1; [split; discriminate|].
  destruct (String.eqb "IBOV" s) eqn:E2; [split; discriminate|].
  apply String.eqb_neq in E1, E2. split; congruence.
Qed.

Lemma remap_row_sector (pS pI : nat) (r : list cell) :
  pS <> pI ->
  nth pS (remap_row pS pI r) NaN <> Str "FII" /\
  nth pS (remap_row pS pI r) NaN <> Str "IBOV".
Proof.
  intros Hne. unfold remap_row. rewrite upd_nth_other by auto.
  set (F := map (fill_cell (Str "Others")) r).
  destruct (Nat.lt_ge_cases pS (List.length F)) as [Hlt|Hge].
  - rewrite upd_nth_same by assumption. apply replace_sector_never.
  - rewrite (nth_overflow (upd pS _ F)) by (rewrite upd_length; assumption).
    split; discriminate.
Qed.

Section MergedSectors.
Variable conv : cell -> option Z.

(** X4. After [_clean_data] and [_process_data] no row of the canonical
    table and no row of the sector summary has [FII] or [IBOV] as its
    sector: both have been merged into ["Others"]. *)
Theorem fii_ibov_merged (st s1 st' : Dashboard) :
  _clean_data conv st = (Ok tt, s1) ->
  _process_data s1 = (Ok tt, st') ->
  exists canon summary,
    data s1 = Some canon /\ net_sector_summary st' = Some summary /\
    (forall r, In r (rows canon) ->
       at_col (columns canon) "SECTOR" (snd r) <> Str "FII" /\
       at_col (columns canon) "SECTOR" (snd r) <> Str "IBOV") /\
    (forall r, In r summary ->
       sr_sector r <> Str "FII" /\ sr_sector r <> Str "IBOV").
Proof.
  intros Ec Ep.
  destruct (clean_data_ok conv _ _ Ec)
    as (raw & pD & idx & pS & pI & Hd & HpD & Ht & HpS & HpI & _ & _ & ->).
  assert (Hne : pS <> pI)
    by (eapply find_col_diff; [exact HpS | exact HpI | discriminate]).
  destruct (process_data_ok _ _ Ep) as (df & Hdf & _ & Hv).
  simpl in Hdf. inversion Hdf; subst df. clear Hdf.
  destruct Hv as (inv & sec & net & total & sums & scaled & s1' & tot & s2 &
                  vol & daily & daily' & evol & evol' & Hinv & Hsec & Hnet &
                  Htotal & Hsums & Hscaled & _ & _ & _ & _ & _ & _ & _ & _ &
                  Hviews).
  eexists. exists scaled. split; [reflexivity|].
  split; [inversion Hviews; reflexivity|].
  assert (Hrows : forall r,
            In r (filter (valid_row pI)
                    (rows (remap_frame pS pI (indexed_frame raw idx)))) ->
            nth pS (snd r) NaN <> Str "FII" /\
            nth pS (snd r) NaN <> Str "IBOV").
  { intros r Hr. apply filter_In in Hr. destruct Hr as [Hr _].
    unfold remap_frame in Hr. simpl in Hr. apply in_map_iff in Hr.
    destruct Hr as (r0 & <- & _). simpl. apply remap_row_sector. exact Hne. }
  split.
  - intros r Hr. simpl in *. rewrite (at_col_nth _ _ _ _ HpS).
    apply Hrows. exact Hr.
  - intros r Hr.
    pose proof (summary_scale_ok _ _ Hscaled) as HF.
    unfold summary_of in HF. apply Forall2_map_l in HF.
    destruct (Forall2_in_r _ _ _ _ HF Hr) as ([[c s] v] & He & _ & Hs & _).
    simpl in Hs. rewrite Hs.
    assert (Hk : In (c, s) (map fst sums))
      by (apply in_map_iff; exists (c, s, v); auto).
    destruct (group_key_live _ _ _ _ Hsums Hk) as [Hl _].
    apply in_map_iff in Hl. destruct Hl as ([k v'] & Hkv & Hl).
    simpl in Hkv. subst k. unfold live in Hl. apply filter_In in Hl.
    destruct Hl as [Hl _]. apply in_combine_l in Hl.
    apply in_combine_r in Hl.
    unfold getitem in Hsec. simpl in Hsec. simpl in HpS. rewrite HpS in Hsec.
    inversion Hsec; subst sec. apply in_map_iff in Hl.
    destruct Hl as (r0 & <- & Hr0). apply Hrows. exact Hr0.
Qed.
End MergedSectors.

Lemma fii_ibov_merged_witness :
  _clean_data stamp_of_number (with_data scenario_raw init)
  = (Ok tt, scenario_clean) /\
  _process_data scenario_clean = (Ok tt, scenario_done) /\
  exists summary,
    net_sector_summary scenario_done = Some summary /\
    forall r, In r summary -> sr_sector r <> Str "FII".
Proof.
  assert (Ec : _clean_data stamp_of_number (with_data scenario_raw init)
               = (Ok tt, scenario_clean)) by (vm_compute; reflexivity).
  assert (Ep : _process_data scenario_clean = (Ok tt, scenario_done))
    by (vm_compute; reflexivity).
  split; [exact Ec|]. split; [exact Ep|].
  destruct (fii_ibov_merged stamp_of_number _ _ _ Ec Ep)
    as (canon & summary & _ & Hs & _ & Hsum).
  exists summary. split; [exact Hs|].
  intros r Hr. exact (proj1 (Hsum r Hr)).
Defined.

(** * The workbook [load_data] reads *)

Lemma py_max_by_stays {A} (key : A -> Q) (l : list A) (best : A) :
  Forall (fun g => (key g <= key best)%Q) l -> py_max_by key best l = best.
Proof.
  induction 1 as [|g l Hg _ IH]; simpl; [reflexivity|].
  apply Qle_bool_iff in Hg. rewrite Hg. exact IH.
Qed.

Lemma py_max_by_moves {A} (key : A -> Q) (before after : list A) (x best : A) :
  (key best < key x)%Q ->
  Forall (fun g => (key g < key x)%Q) before ->
  Forall (fun g => (key g <= key x)%Q) after ->
  py_max_by key best (before ++ x :: after) = x.
Proof.
  intros Hb Hbefore Hafter. revert best Hb.
  induction Hbefore as [|g before Hg _ IH]; intros best Hb; simpl.
  - destruct (Qle_bool (key x) (key best)) eqn:E.
    + apply Qle_bool_iff in E. exfalso. exact (Qlt_not_le _ _ Hb E).
    + apply py_max_by_stays. exact Hafter.
  - destruct (Qle_bool (key g) (key best)); [apply IH; exact Hb|].
    apply IH. exact Hg.
Qed.

Lemma excel_files_app (l l' : list (string * Q)) :
  excel_files (l ++ l') = excel_files l ++ excel_files l'.
Proof. apply filter_app. Qed.

Lemma latest_file_first_newest (before after : list (string * Q))
      (f : string) (t : Q) :
  glob_match f = true ->
  Forall (fun g => glob_match (fst g) = true -> (snd g < t)%Q) before ->
  Forall (fun g => glob_match (fst g) = true -> (snd g <= t)%Q) after ->
  latest_file (before ++ (f, t) :: after) = Ok f.
Proof.
  intros Hf Hbefore Hafter. unfold latest_file.
  rewrite excel_files_app.
  change (excel_files ((f, t) :: after))
    with (if glob_match f then (f, t) :: excel_files after
          else excel_files after).
  rewrite Hf.
  assert (Hb : Forall (fun g => (snd g < snd (f, t))%Q) (excel_files before)).
  { apply Forall_forall. intros g Hg. apply filter_In in Hg.
    rewrite Forall_forall in Hbefore. apply Hbefore; tauto. }
  assert (Ha : Forall (fun g => (snd g <= snd (f, t))%Q) (excel_files after)).
  { apply Forall_forall. intros g Hg. apply filter_In in Hg.
    rewrite Forall_forall in Hafter. apply Hafter; tauto. }
  destruct (excel_files before) as [|b bs].
  - simpl. rewrite (py_max_by_stays snd _ (f, t) Ha). reflexivity.
  - simpl. inversion Hb as [|? ? Hb1 Hb2]; subst.
    rewrite (py_max_by_moves snd bs (excel_files after) (f, t) b Hb1 Hb2 Ha).
    reflexivity.
Qed.

Lemma latest_file_none (folder : list (string * Q)) :
  Forall (fun g => glob_match (fst g) = false) folder ->
  latest_file folder = Raise FileNotFoundError.
Proof.
  intros H. unfold latest_file, excel_files.
  rewrite filter_none; [reflexivity|].
  rewrite Forall_forall in H. intros g Hg. apply H. exact Hg.
Qed.

Section FolderLoad.
Variable conv : cell -> option Z.
Variable read_excel : string -> result DataFrame.

(** X5. [load_data] loads the matching workbook that was modified last,
    and of several modified at that same time the one the directory scan
    lists first; the entries that do not match [Brokeragem*.xlsx] have no
    part in the choice, and the outcome is that of loading this one
    workbook. *)
Theorem load_reads_newest_workbook
        (before after : list (string * Q)) (f : string) (t : Q)
        (st : Dashboard) :
  glob_match f = true ->
  Forall (fun g => glob_match (fst g) = true -> (snd g < t)%Q) before ->
  Forall (fun g => glob_match (fst g) = true -> (snd g <= t)%Q) after ->
  latest_file (before ++ (f, t) :: after) = Ok f /\
  load_data_from conv read_excel (before ++ (f, t) :: after) st
  = load_data conv (read_excel f) st.
Proof.
  intros Hf Hbefore Hafter.
  pose proof (latest_file_first_newest before after f t Hf Hbefore Hafter)
    as E.
  split; [exact E|]. unfold load_data_from. rewrite E. reflexivity.
Qed.

(** X6. With no entry of the folder matching [Brokeragem*.xlsx],
    [load_data] returns [False] whatever the folder holds and whatever the
    object held: the table and the five views stay as they were, and no
    workbook is read. *)
Theorem load_without_workbook (folder : list (string * Q)) (st : Dashboard) :
  Forall (fun g => glob_match (fst g) = false) folder ->
  latest_file folder = Raise FileNotFoundError /\
  load_data_from conv read_excel folder st = (false, st).
Proof.
  intros H. pose proof (latest_file_none folder H) as E.
  split; [exact E|]. unfold load_data_from. rewrite E. reflexivity.
Qed.
End FolderLoad.

Lemma load_reads_newest_workbook_witness :
  latest_file [("notes.txt", 9%Q); ("Brokeragem_jan.xlsx", 1%Q);
               ("Brokeragem_feb.xlsx", 2%Q); ("Brokeragem_mar.xlsx", 2%Q);
               ("brokeragem_apr.xlsx", 3%Q)]
  = Ok "Brokeragem_feb.xlsx" /\
  load_data_from stamp_of_number (fun _ => Ok scenario_raw)
    [("notes.txt", 9%Q); ("Brokeragem_jan.xlsx", 1%Q);
     ("Brokeragem_feb.xlsx", 2%Q); ("Brokeragem_mar.xlsx", 2%Q);
     ("brokeragem_apr.xlsx", 3%Q)] init
  = load_data stamp_of_number (Ok scenario_raw) init.
Proof.
  apply (load_reads_newest_workbook stamp_of_number (fun _ => Ok scenario_raw)
           [("notes.txt", 9%Q); ("Brokeragem_jan.xlsx", 1%Q)]
           [("Brokeragem_mar.xlsx", 2%Q); ("brokeragem_apr.xlsx", 3%Q)]
           "Brokeragem_feb.xlsx" 2%Q init).
  - reflexivity.
  - repeat constructor; simpl; intros E; try discriminate E; reflexivity.
  - repeat constructor; simpl; intros E; try discriminate E;
      unfold Qle; simpl; lia.
Defined.

Lemma load_without_workbook_witness :
  latest_file [("notes.txt", 9%Q); ("Brokeragem_jan.xls", 1%Q);
               ("brokeragem_apr.xlsx", 3%Q)]
  = Raise FileNotFoundError /\
  load_data_from stamp_of_number (fun _ => Ok scenario_raw)
    [("notes.txt", 9%Q); ("Brokeragem_jan.xls", 1%Q);
     ("brokeragem_apr.xlsx", 3%Q)] scenario_done
  = (false, scenario_done).
Proof.
  apply (load_without_workbook stamp_of_number (fun _ => Ok scenario_raw)).
  repeat constructor.
Defined.

(** * The charts *)

(** ** Columns of a pivot *)

Lemma Forall2_of_nth {A B} (R : A -> B -> Prop) (l : list A) (l' : list B) :
  List.length l = List.length l' ->
  (forall i a b, nth_error l i = Some a -> nth_error l' i = Some b -> R a b) ->
  Forall2 R l l'.
Proof.
  revert l'. induction l as [|a l IH]; intros [|b l'] Hlen Hall;
    simpl in Hlen; try discriminate; constructor.
  - apply (Hall O); reflexivity.
  - apply IH; [lia|]. intros i x y Hx Hy. apply (Hall (S i)); assumption.
Qed.

Lemma Forall2_same_length {A B} (R : A -> B -> Prop) (l : list A) (l' : list B) :
  Forall2 R l l' -> List.length l = List.length l'.
Proof. induction 1; simpl; congruence. Qed.

Section Positions.
Context {K : Type} `{KeyLaws K}.

Lemma position_nth (l : list K) (i : nat) (d : K) :
  StronglySorted klt l -> nth_error l i = Some d -> position d l = Some i.
Proof.
  intros Hs. revert i. induction Hs as [|a l Hs IH Ha]; intros i E.
  - destruct i; discriminate.
  - destruct i as [|i]; simpl in *.
    + inversion E; subst. rewrite keq_refl. reflexivity.
    + rewrite Forall_forall in Ha. apply nth_error_In in E as Hin.
      pose proof (Ha _ Hin) as Hlt. unfold klt in Hlt.
      unfold keq. rewrite Hlt. rewrite (IH _ E). reflexivity.
Qed.

End Positions.

Section PivotColumns.
Context {K : Type} `{KeyLaws K}.

Lemma unstack_shape (agged : list (label * K * cell)) :
  List.length (pv_values (unstack agged))
  = List.length (pv_index (unstack agged)) /\
  Forall (fun r => List.length r = List.length (pv_columns (unstack agged)))
         (pv_values (unstack agged)).
Proof.
  unfold unstack. simpl. split; [apply length_map|].
  apply Forall_forall. intros r Hr. apply in_map_iff in Hr.
  destruct Hr as (d & <- & _). apply length_map.
Qed.

Lemma scaled_pivot_shape (agged : list (label * K * cell)) (p' : Pivot K) :
  pivot_scale (pivot_fillna (Num 0) (unstack agged)) = Ok p' ->
  StronglySorted klt (pv_index p') /\ StronglySorted klt (pv_columns p') /\
  List.length (pv_values p') = List.length (pv_index p') /\
  Forall (fun r => List.length r = List.length (pv_columns p'))
         (pv_values p').
Proof.
  intros Hs. destruct (pivot_scale_ok _ _ _ Hs) as (Hi & Hc & Hv).
  destruct (unstack_shape agged) as [Hl Hr].
  rewrite Hi, Hc. split; [apply sort_uniq_strongly_sorted|].
  split; [apply sort_uniq_strongly_sorted|].
  split; [rewrite <- (Forall2_same_length _ _ _ Hv); exact Hl|].
  apply Forall_forall. intros r' Hr'.
  destruct (Forall2_in_r _ _ _ _ Hv Hr') as (r & Hin & HF).
  rewrite <- (Forall2_same_length _ _ _ HF).
  rewrite Forall_forall in Hr. apply Hr. exact Hin.
Qed.

Lemma pivot_get_at (agged : list (label * K * cell)) (p' : Pivot K)
      (i j : nat) (d : label) (k : K) (row : list cell) :
  pivot_scale (pivot_fillna (Num 0) (unstack agged)) = Ok p' ->
  nth_error (pv_index p') i = Some d ->
  nth_error (pv_columns p') j = Some k ->
  nth_error (pv_values p') i = Some row ->
  pivot_get p' d k = Some (nth j row NaN).
Proof.
  intros Hs Hd Hk Hrow.
  destruct (scaled_pivot_shape _ _ Hs) as (Si & Sc & Hl & Hr).
  unfold pivot_get.
  rewrite (position_nth _ _ _ Si Hd), (position_nth _ _ _ Sc Hk), Hrow.
  rewrite Forall_forall in Hr. apply nth_error_In in Hrow as Hin.
  pose proof (Hr _ Hin) as Hlen.
  assert (Hj : (j < List.length row)%nat).
  { rewrite Hlen. apply nth_error_Some. congruence. }
  apply nth_error_nth'. exact Hj.
Qed.

(** The column of a scaled pivot under one of its keys: one number per
    label, the plain sum of the amounts under the (label, key) pair divided
    by a million. *)
Lemma pivot_column_values (idx : list label) (cols : list K)
      (vals : list cell) (agged : list (label * K * cell)) (p' : Pivot K)
      (k : K) :
  groupby_sum (combine idx cols) vals = Ok agged ->
  pivot_scale (pivot_fillna (Num 0) (unstack agged)) = Ok p' ->
  (exists k', In k' (pv_columns p') /\ keq k' k = true) ->
  exists y,
    pivot_column p' k = Some y /\
    Forall2 (fun d v =>
               exists q, v = Num q /\
                 (q == amount_under (d, k)
                         (combine (combine idx cols) vals) / 1000000)%Q)
            (pv_index p') y.
Proof.
  intros E Hs Hk.
  destruct (scaled_pivot_shape _ _ Hs) as (Si & Sc & Hl & Hr).
  destruct (position_some _ _ Hk) as (j & Pj).
  destruct (position_ok _ _ _ Pj) as (k' & Nk & Ek).
  unfold pivot_column. rewrite Pj. eexists. split; [reflexivity|].
  apply Forall2_of_nth; [rewrite length_map; congruence|].
  intros i d v Hd Hv. rewrite nth_error_map in Hv.
  destruct (nth_error (pv_values p') i) as [row|] eqn:Hrow;
    simpl in Hv; [|discriminate].
  inversion Hv; subst v. clear Hv.
  pose proof (pivot_get_at _ _ _ _ _ _ _ Hs Hd Nk Hrow) as Hg.
  destruct (pivot_cell_value _ _ _ _ _ _ _ _ E Hs Hg) as (q & Hq & Hval).
  exists q. split; [exact Hq|]. rewrite Hval.
  assert (Ep : keq (d, k') (d, k) = true)
    by (apply pair_keq; [apply keq_refl | exact Ek]).
  rewrite (amount_under_keq _ _ _ Ep). reflexivity.
Qed.
End PivotColumns.

(** ** Traces built one by one *)

Lemma atraverse_built {A B} (f : A -> attempt B) (g : A -> B) (l : list A) :
  (forall x, In x l -> f x = Built (g x)) -> atraverse f l = Built (map g l).
Proof.
  induction l as [|x l IH]; simpl; intros Hall; [reflexivity|].
  rewrite (Hall x) by auto. simpl. rewrite IH by auto. reflexivity.
Qed.

Lemma flat_map_singletons {A B} (keep : A -> bool) (h : A -> B) (l : list A) :
  List.concat (map (fun x => if keep x then [h x] else []) l)
  = map h (filter keep l).
Proof.
  induction l as [|x l IH]; simpl; [reflexivity|].
  destruct (keep x); simpl; rewrite IH; reflexivity.
Qed.

Lemma Forall2_map_r_in {A B} (R : A -> B -> Prop) (h : A -> B) (l : list A) :
  (forall x, In x l -> R x (h x)) -> Forall2 R l (map h l).
Proof.
  induction l as [|x l IH]; simpl; intros Hall; constructor; auto.
Qed.

Section Unique.
Context {K : Type} `{KeyLaws K}.

Lemma unique_from_incl (seen l : list K) (y : K) :
  In y (unique_from seen l) -> In y l.
Proof.
  revert seen. induction l as [|x l IH]; simpl; intros seen Hy; [exact Hy|].
  destruct (existsb (keq x) seen).
  - right. exact (IH _ Hy).
  - destruct Hy as [->|Hy]; [left; reflexivity | right; exact (IH _ Hy)].
Qed.

Lemma unique_from_cover (seen l : list K) (x : K) :
  In x l -> existsb (keq x) seen = false ->
  exists y, In y (unique_from seen l) /\ keq y x = true.
Proof.
  revert seen. induction l as [|a l IH]; simpl; intros seen Hx Hs;
    [contradiction|].
  destruct (existsb (keq a) seen) eqn:Ea.
  - destruct Hx as [->|Hx]; [congruence|]. exact (IH _ Hx Hs).
  - destruct (keq a x) eqn:Eax.
    + exists a. split; [left; reflexivity | exact Eax].
    + destruct Hx as [->|Hx]; [rewrite keq_refl in Eax; discriminate|].
      destruct (IH (a :: seen) Hx) as (y & Hy & Ey).
      * simpl. rewrite (keq_sym x a), Eax. exact Hs.
      * exists y. split; [right; exact Hy | exact Ey].
Qed.

Lemma unique_from_fresh (seen l : list K) :
  Forall (fun y => existsb (keq y) seen = false) (unique_from seen l).
Proof.
  revert seen. induction l as [|a l IH]; simpl; intros seen; [constructor|].
  destruct (existsb (keq a) seen) eqn:Ea; [apply IH|].
  constructor; [exact Ea|].
  eapply Forall_impl; [|apply (IH (a :: seen))]. simpl.
  intros y Hy. apply orb_false_iff in Hy. tauto.
Qed.

Lemma unique_from_distinct (seen l : list K) :
  ForallOrdPairs (fun a b => keq a b = false) (unique_from seen l).
Proof.
  revert seen. induction l as [|a l IH]; simpl; intros seen; [constructor|].
  destruct (existsb (keq a) seen); [apply IH|].
  constructor; [|apply IH].
  eapply Forall_impl; [|apply (unique_from_fresh (a :: seen) l)]. simpl.
  intros y Hy. apply orb_false_iff in Hy. rewrite keq_sym. tauto.
Qed.

Lemma unique_cover (l : list K) (x : K) :
  In x l -> exists y, In y (unique l) /\ keq y x = true.
Proof. intros Hx. apply unique_from_cover; auto. Qed.

Lemma unique_distinct (l : list K) :
  ForallOrdPairs (fun a b => keq a b = false) (unique l).
Proof. apply unique_from_distinct. Qed.
End Unique.

Lemma ForallOrdPairs_filter {A} (R : A -> A -> Prop) (keep : A -> bool)
      (l : list A) :
  ForallOrdPairs R l -> ForallOrdPairs R (filter keep l).
Proof.
  induction 1 as [|a l Ha _ IH]; simpl; [constructor|].
  destruct (keep a); [|exact IH]. constructor; [|exact IH].
  rewrite Forall_forall in *. intros x Hx. apply filter_In in Hx.
  apply Ha. tauto.
Qed.

(** ** The daily chart *)

(** X7. After [_process_data], [create_daily_evolution_chart] builds its
    figure without raising: one line per investor type of the daily pivot,
    in the order of its columns, each over the pivot's dates, with one point
    per date; the point is the sum of the net amounts of the rows of that
    date and that type, divided by a million. *)
Theorem daily_chart_points (st st' : Dashboard) (df : DataFrame)
        (inv net : list cell) :
  data st = Some df ->
  getitem df "INV TYPE" = Ok inv -> getitem df "NET R$" = Ok net ->
  _process_data st = (Ok tt, st') ->
  exists p fig,
    daily_evolution st' = Some p /\
    create_daily_evolution_chart st' = Built fig /\
    Forall2
      (fun k tr =>
         exists y,
           tr = Scatter k (pv_index p) y (colors_get k) /\
           Forall2
             (fun d v =>
                exists q, v = Num q /\
                  (q == amount_under (d, k)
                          (combine (combine (map fst (rows df)) inv) net)
                        / 1000000)%Q)
             (pv_index p) y)
      (pv_columns p) (fig_traces fig).
Proof.
  intros Hd Hi Hn E.
  destruct (process_data_ok _ _ E) as (df' & Hd' & _ & Hv).
  assert (df' = df) by congruence. subst df'.
  destruct Hv as (inv' & sec & net' & total & sums & scaled & s1 & tot & s2 &
                  vol & daily & daily' & evol & evol' & Hinv & Hsec & Hnet &
                  Htotal & Hsums & Hscaled & Hs1 & Htot & Hs2 & Hvol &
                  Hdaily & Hdaily' & Hevol & Hevol' & Hviews).
  assert (inv' = inv) by congruence. assert (net' = net) by congruence.
  subst inv' net'.
  assert (Hp : daily_evolution st' = Some daily')
    by (inversion Hviews; reflexivity).
  destruct (pivot_table_ok _ _ _ _ Hdaily) as (agged & Hagg & ->).
  set (y_of := fun k => match pivot_column daily' k with
                        | Some y => y
                        | None => []
                        end).
  assert (Hcol : forall k, In k (pv_columns daily') ->
            pivot_column daily' k = Some (y_of k) /\
            Forall2
              (fun d v =>
                 exists q, v = Num q /\
                   (q == amount_under (d, k)
                           (combine (combine (map fst (rows df)) inv) net)
                         / 1000000)%Q)
              (pv_index daily') (y_of k)).
  { intros k Hk.
    destruct (pivot_column_values _ _ _ _ _ k Hagg Hdaily') as (y & Hy & HF).
    - exists k. split; [exact Hk | apply keq_refl].
    - unfold y_of. rewrite Hy. split; [reflexivity | exact HF]. }
  exists daily'. eexists. split; [exact Hp|].
  unfold create_daily_evolution_chart. rewrite Hp.
  rewrite (atraverse_built _
             (fun k => Scatter k (pv_index daily') (y_of k) (colors_get k))).
  - simpl. split; [reflexivity|]. simpl.
    apply Forall2_map_r_in. intros k Hk.
    exists (y_of k). split; [reflexivity|]. apply (Hcol k Hk).
  - intros k Hk. destruct (Hcol k Hk) as [-> _]. reflexivity.
Qed.

Lemma daily_chart_points_witness :
  exists fig,
    create_daily_evolution_chart scenario_done = Built fig /\
    List.length (fig_traces fig) = 3%nat.
Proof.
  destruct (daily_chart_points scenario_clean scenario_done scenario_table
              [Str "RETAIL"; Str "FOREIGNERS"; Str "LOCALS"]
              [Num 2000000; Num (-1000000); Num 500000]
              eq_refl eq_refl eq_refl)
    as (p & fig & Hp & Hfig & HF).
  - vm_compute. reflexivity.
  - exists fig. split; [exact Hfig|].
    rewrite <- (Forall2_same_length _ _ _ HF).
    vm_compute in Hp. inversion Hp. reflexivity.
Defined.

(** ** The sector chart *)

Lemma pair_keq_both {A B} `{KeyLaws A} `{KeyLaws B} (a a' : A) (b b' : B) :
  keq a a' = true -> keq b b' = true -> keq (a, b) (a', b') = true.
Proof.
  intros Ea Eb. apply keq_true in Ea, Eb. apply keq_true.
  simpl. rewrite Ea. exact Eb.
Qed.

Lemma concat_nils {A B} (l : list A) :
  List.concat (map (fun _ : A => @nil B) l) = [].
Proof. induction l as [|x l IH]; simpl; auto. Qed.

Section SectorChart.
Variable str_float : Q -> string.

(** X8. After [_process_data], the callback [update_sector_chart] never
    raises, whether the dropdown hands it a sector, another text or
    number, or nothing.  For a selected sector it
    draws one line per investor type that has a column with that sector in
    the sector pivot, no two lines for one type and none for a type
    without such a column; each line runs over the pivot's dates and its
    point at a date is the sum of the net amounts of the rows of that
    date, type and sector, divided by a million.  For a sector that is in
    no column, and for a cleared selection, the figure has no trace. *)
Theorem sector_chart_traces (st st' : Dashboard) (df : DataFrame)
        (inv sec net : list cell) (selected : option cell) :
  data st = Some df ->
  getitem df "INV TYPE" = Ok inv -> getitem df "SECTOR" = Ok sec ->
  getitem df "NET R$" = Ok net ->
  _process_data st = (Ok tt, st') ->
  exists p fig,
    evol_sector st' = Some p /\
    update_sector_chart str_float st' selected = Built fig /\
    match selected with
    | None => fig_traces fig = []
    | Some s =>
        exists invs,
          ForallOrdPairs (fun a b => keq a b = false) invs /\
          (forall k, In k (pv_columns p) -> keq (snd k) s = true ->
                     exists i, In i invs /\ keq i (fst k) = true) /\
          Forall2
            (fun i tr =>
               (exists k, In k (pv_columns p) /\ keq k (i, s) = true) /\
               exists y,
                 tr = Scatter i (pv_index p) y (colors_get i) /\
                 Forall2
                   (fun d v =>
                      exists q, v = Num q /\
                        (q == amount_under (d, (i, s))
                                (combine (combine (map fst (rows df))
                                                  (combine inv sec)) net)
                              / 1000000)%Q)
                   (pv_index p) y)
            invs (fig_traces fig)
    end.
Proof.
  intros Hd Hi Hs Hn E.
  destruct (process_data_ok _ _ E) as (df' & Hd' & _ & Hv).
  assert (df' = df) by congruence. subst df'.
  destruct Hv as (inv' & sec' & net' & total & sums & scaled & s1 & tot &
                  s2 & vol & daily & daily' & evol & evol' & Hinv & Hsec &
                  Hnet & Htotal & Hsums & Hscaled & Hs1 & Htot & Hs2 &
                  Hvol & Hdaily & Hdaily' & Hevol & Hevol' & Hviews).
  assert (inv' = inv) by congruence. assert (sec' = sec) by congruence.
  assert (net' = net) by congruence. subst inv' sec' net'.
  assert (Hp : evol_sector st' = Some evol')
    by (inversion Hviews; reflexivity).
  destruct (pivot_table_ok _ _ _ _ Hevol) as (agged & Hagg & ->).
  exists evol'. unfold update_sector_chart. rewrite Hp.
  destruct selected as [s|].
  - set (keep := fun i : cell => existsb (keq (i, s)) (pv_columns evol')).
    set (y_of := fun i : cell => match pivot_column evol' (i, s) with
                                 | Some y => y
                                 | None => []
                                 end).
    set (line := fun i : cell =>
                   Scatter i (pv_index evol') (y_of i) (colors_get i)).
    assert (Hcol : forall i, keep i = true ->
              (exists k, In k (pv_columns evol') /\ keq k (i, s) = true) /\
              pivot_column evol' (i, s) = Some (y_of i) /\
              Forall2
                (fun d v =>
                   exists q, v = Num q /\
                     (q == amount_under (d, (i, s))
                             (combine (combine (map fst (rows df))
                                               (combine inv sec)) net)
                           / 1000000)%Q)
                (pv_index evol') (y_of i)).
    { intros i Hk. unfold keep in Hk. apply existsb_exists in Hk.
      destruct Hk as (k & Hin & Ek). rewrite keq_sym in Ek.
      assert (Hex : exists k, In k (pv_columns evol') /\ keq k (i, s) = true)
        by (exists k; auto).
      destruct (pivot_column_values _ _ _ _ _ (i, s) Hagg Hevol' Hex)
        as (y & Hy & HF).
      unfold y_of. rewrite Hy. auto. }
    eexists. split; [reflexivity|]. split.
    + rewrite (atraverse_built _
                 (fun i => if keep i then [line i] else [])).
      * simpl. reflexivity.
      * intros i _. fold (keep i). destruct (keep i) eqn:Ek; [|reflexivity].
        destruct (Hcol i Ek) as (_ & -> & _). reflexivity.
    + simpl. rewrite flat_map_singletons.
      exists (filter keep (unique (map fst (pv_columns evol')))).
      split; [apply ForallOrdPairs_filter, unique_distinct|]. split.
      * intros k Hk Ek.
        destruct (unique_cover (map fst (pv_columns evol')) (fst k))
          as (i & Hin & Ei); [apply in_map; exact Hk|].
        exists i. split; [|exact Ei]. apply filter_In. split; [exact Hin|].
        unfold keep. apply existsb_exists. exists k. split; [exact Hk|].
        destruct k as [ki ks]. apply pair_keq_both; [exact Ei|].
        simpl in Ek. rewrite keq_sym. exact Ek.
      * apply Forall2_map_r_in. intros i Hin. apply filter_In in Hin.
        destruct Hin as [_ Hk]. destruct (Hcol i Hk) as (Hex & _ & HF).
        split; [exact Hex|]. exists (y_of i). split; [reflexivity | exact HF].
  - eexists. split; [reflexivity|]. split.
    + rewrite (atraverse_built _ (fun _ => [])) by reflexivity.
      simpl. reflexivity.
    + simpl. apply concat_nils.
Qed.
End SectorChart.

Lemma sector_chart_traces_witness :
  exists fig,
    update_sector_chart (fun _ => "") scenario_done (Some (Str "BANK"))
    = Built fig /\
    List.length (fig_traces fig) = 2%nat.
Proof.
  assert (E : _process_data scenario_clean = (Ok tt, scenario_done))
    by (vm_compute; reflexivity).
  destruct (sector_chart_traces (fun _ => "") scenario_clean scenario_done
              scenario_table
              [Str "RETAIL"; Str "FOREIGNERS"; Str "LOCALS"]
              [Str "BANK"; Str "Others"; Str "BANK"]
              [Num 2000000; Num (-1000000); Num 500000]
              (Some (Str "BANK")) eq_refl eq_refl eq_refl eq_refl E)
    as (p & fig & Hp & Hfig & _).
  exists fig. split; [exact Hfig|].
  pose proof Hfig as Hc. vm_compute in Hc. inversion Hc. reflexivity.
Defined.

(** ** The bar chart *)

Lemma filter_split {A} (pa pb pc : A -> bool) (m : list A) :
  (forall r, In r m -> pc r = pa r || pb r) ->
  (forall r, In r m -> pa r && pb r = false) ->
  Permutation (filter pa m ++ filter pb m) (filter pc m).
Proof.
  induction m as [|r m IH]; simpl; intros Hc Hd; [constructor|].
  assert (IH' : Permutation (filter pa m ++ filter pb m) (filter pc m))
    by (apply IH; intros; [apply Hc | apply Hd]; auto).
  pose proof (Hc r (or_introl eq_refl)) as Ec.
  pose proof (Hd r (or_introl eq_refl)) as Ed.
  destruct (pa r), (pb r); simpl in *; try discriminate; rewrite Ec.
  - constructor. exact IH'.
  - apply Permutation_sym, Permutation_cons_app, Permutation_sym. exact IH'.
  - exact IH'.
Qed.

Lemma flat_map_map_agree {A B C} (f : B -> list C) (g : A -> B)
      (h : A -> list C) (l : list A) :
  (forall x, In x l -> f (g x) = h x) ->
  flat_map f (map g l) = flat_map h l.
Proof.
  induction l as [|x l IH]; simpl; intros Hall; [reflexivity|].
  rewrite Hall by auto. rewrite IH by auto. reflexivity.
Qed.

Lemma existsb_keq_l (a b : cell) (l : list cell) :
  keq a b = true -> existsb (keq a) l = existsb (keq b) l.
Proof.
  intros E. induction l as [|x l IH]; simpl; [reflexivity|].
  rewrite (keq_l _ _ x E), IH. reflexivity.
Qed.

(** The rows under the investor types met first in [l] and not in [seen],
    type by type, are the rows whose type is in [l] and not in [seen]. *)
Lemma unique_from_partition (m : list SummaryRow) (l seen : list cell) :
  Forall (fun c => isna c = false) l ->
  Permutation
    (flat_map (fun c => filter (fun r => cell_eqb (sr_inv r) c) m)
              (unique_from seen l))
    (filter (fun r => existsb (keq (sr_inv r)) l
                      && negb (existsb (keq (sr_inv r)) seen)) m).
Proof.
  intros Hl. revert seen. induction Hl as [|c l Hc _ IH]; intros seen; simpl.
  - rewrite filter_none; [constructor | reflexivity].
  - destruct (existsb (keq c) seen) eqn:Es.
    + rewrite (filter_ext_in _
                 (fun r => existsb (keq (sr_inv r)) l
                           && negb (existsb (keq (sr_inv r)) seen)));
        [apply IH|].
      intros r _. destruct (keq (sr_inv r) c) eqn:E; simpl; [|reflexivity].
      rewrite (existsb_keq_l _ _ seen E), Es. simpl.
      rewrite andb_false_r. reflexivity.
    + simpl. eapply Permutation_trans.
      * apply Permutation_app_head. apply (IH (c :: seen)).
      * apply filter_split.
        -- intros r _. rewrite (cell_eqb_keq _ _ Hc). simpl.
           destruct (keq (sr_inv r) c) eqn:E; simpl.
           ++ rewrite (existsb_keq_l _ _ seen E), Es. reflexivity.
           ++ reflexivity.
        -- intros r _. rewrite (cell_eqb_keq _ _ Hc). simpl.
           destruct (keq (sr_inv r) c); simpl; [|reflexivity].
           rewrite andb_false_r. reflexivity.
Qed.

Lemma unique_partition (m : list SummaryRow) :
  Forall (fun r => isna (sr_inv r) = false) m ->
  Permutation
    (flat_map (fun c => filter (fun r => cell_eqb (sr_inv r) c) m)
              (unique (map sr_inv m)))
    m.
Proof.
  intros Hm. unfold unique.
  assert (Hl : Forall (fun c => isna c = false) (map sr_inv m))
    by (apply Forall_map; exact Hm).
  pose proof (unique_from_partition m (map sr_inv m) [] Hl) as Hp.
  rewrite (filter_all _ m) in Hp; [exact Hp|].
  intros r Hr. simpl. rewrite andb_true_r. apply existsb_exists.
  exists (sr_inv r). split; [apply in_map; exact Hr | apply keq_refl].
Qed.

Lemma cell_eqb_str (c : cell) (s : string) :
  cell_eqb c (Str s) = true -> c = Str s.
Proof.
  destruct c as [|t|q]; simpl; try discriminate.
  intros E. apply String.eqb_eq in E. congruence.
Qed.

Lemma colors_get_valid (s : string) :
  In s valid_investors ->
  In (colors_get (Str s)) ["#1f77b4"; "#ff7f0e"; "#2ca02c"].
Proof.
  unfold valid_investors. simpl.
  intros [<-|[<-|[<-|[]]]]; simpl; auto.
Qed.

(** The investor types of a canonical table are three texts. *)
Lemma canonical_inv_valid (df : DataFrame) (inv : list cell) :
  canonical df -> getitem df "INV TYPE" = Ok inv ->
  Forall (fun c => exists s, c = Str s /\ In s valid_investors) inv.
Proof.
  intros [_ Hall] Hg. destruct (getitem_ok _ _ _ Hg) as (p & Hp & ->).
  apply Forall_forall. intros c Hc. apply in_map_iff in Hc.
  destruct Hc as (r & <- & Hr). rewrite Forall_forall in Hall.
  destruct (Hall r Hr) as [_ Hv]. rewrite (at_col_nth _ _ _ _ Hp) in Hv.
  apply isin_cell_true. exact Hv.
Qed.

(** The keys of the rows of the sector summary are pairs of the table. *)
Lemma summary_row_pair (inv sec net : list cell)
      (sums : list (cell * cell * cell)) (scaled : list SummaryRow)
      (r : SummaryRow) :
  groupby_sum (combine inv sec) net = Ok sums ->
  summary_scale (summary_of sums) = Ok scaled ->
  In r scaled -> In (sr_inv r, sr_sector r) (combine inv sec).
Proof.
  intros Hsums Hscaled Hr.
  pose proof (summary_scale_ok _ _ Hscaled) as HF.
  unfold summary_of in HF. apply Forall2_map_l in HF.
  destruct (Forall2_in_r _ _ _ _ HF Hr) as ([[c s] v] & He & Hi & Hs & _).
  simpl in Hi, Hs. rewrite Hi, Hs.
  assert (Hk : In (c, s) (map fst sums))
    by (apply in_map_iff; exists (c, s, v); auto).
  destruct (group_key_live _ _ _ _ Hsums Hk) as [Hl _].
  apply in_map_iff in Hl. destruct Hl as ([k v'] & Hkv & Hl). simpl in Hkv.
  subst k. unfold live in Hl. apply filter_In in Hl. destruct Hl as [Hl _].
  eapply in_combine_l. exact Hl.
Qed.

(** X9. After [_process_data] on a canonical table,
    [create_net_flow_chart] draws one group of bars per investor type of the
    sector summary: the bars of all groups together are the rows of the
    summary, each row in one group; no group is empty, no two groups have
    the same type, and every group has the colour the palette gives its
    type, never the fallback colour. *)
Theorem net_flow_chart_bars (st st' : Dashboard) (df : DataFrame) :
  data st = Some df -> canonical df ->
  _process_data st = (Ok tt, st') ->
  exists summary fig,
    net_sector_summary st' = Some summary /\
    create_net_flow_chart st' = Built fig /\
    Permutation (flat_map bar_rows (fig_traces fig)) summary /\
    (exists names,
       ForallOrdPairs (fun a b => a <> b) names /\
       Forall2 (fun s tr =>
                  In s valid_investors /\
                  exists x y,
                    tr = Bar (Str s) x y (colors_get (Str s)) /\
                    x <> [] /\ List.length x = List.length y /\
                    colors_get (Str s) <> "#d62728")
               names (fig_traces fig)).
Proof.
  intros Hd Hcan E.
  destruct (process_data_ok _ _ E) as (df' & Hd' & _ & Hv).
  assert (df' = df) by congruence. subst df'.
  destruct Hv as (inv & sec & net & total & sums & scaled & s1 & tot & s2 &
                  vol & daily & daily' & evol & evol' & Hinv & Hsec & Hnet &
                  Htotal & Hsums & Hscaled & _ & _ & _ & _ & _ & _ & _ & _ &
                  Hviews).
  assert (Hsum : net_sector_summary st' = Some scaled)
    by (inversion Hviews; reflexivity).
  assert (Hvalid : forall r, In r scaled ->
            exists s, sr_inv r = Str s /\ In s valid_investors).
  { intros r Hr.
    pose proof (summary_row_pair _ _ _ _ _ _ Hsums Hscaled Hr) as Hp.
    apply in_combine_l in Hp.
    pose proof (canonical_inv_valid _ _ Hcan Hinv) as Hall.
    rewrite Forall_forall in Hall. exact (Hall _ Hp). }
  assert (Hnotna : Forall (fun r => isna (sr_inv r) = false) scaled).
  { apply Forall_forall. intros r Hr. destruct (Hvalid r Hr) as (s & -> & _).
    reflexivity. }
  set (group := fun c => filter (fun r => cell_eqb (sr_inv r) c) scaled).
  set (bar := fun c => Bar c (map sr_sector (group c)) (map sr_net (group c))
                           (colors_get c)).
  assert (Hrows : forall c, In c (map sr_inv scaled) ->
                            bar_rows (bar c) = group c).
  { intros c Hc. apply in_map_iff in Hc. destruct Hc as (r0 & <- & Hr0).
    destruct (Hvalid r0 Hr0) as (s & Es & _). rewrite Es.
    unfold bar, bar_rows. rewrite combine_map, map_map. simpl.
    rewrite <- (map_id (group (Str s))) at 2. apply map_ext_in.
    intros r Hr. unfold group in Hr. apply filter_In in Hr.
    destruct Hr as [_ Hr]. apply cell_eqb_str in Hr.
    destruct r as [ri rs rn]. simpl in *. congruence. }
  exists scaled. eexists. split; [exact Hsum|].
  unfold create_net_flow_chart. rewrite Hsum.
  split; [reflexivity|]. simpl. fold group. fold bar.
  split.
  - rewrite (flat_map_map_agree bar_rows bar group).
    + apply unique_partition. exact Hnotna.
    + intros c Hc. apply Hrows. eapply unique_from_incl. exact Hc.
  - set (text := fun c => match c with Str s => s | _ => "" end).
    exists (map text (unique (map sr_inv scaled))). split.
    + pose proof (unique_distinct (map sr_inv scaled)) as Hdis.
      assert (Hstr : Forall (fun c => exists s, c = Str s)
                            (unique (map sr_inv scaled))).
      { apply Forall_forall. intros c Hc.
        apply unique_from_incl, in_map_iff in Hc.
        destruct Hc as (r & <- & Hr). destruct (Hvalid r Hr) as (s & -> & _).
        eauto. }
      induction Hdis as [|c l Hc _ IH]; simpl; constructor.
      * inversion Hstr as [|? ? (s & ->) Hl]; subst.
        rewrite Forall_forall in *. intros t Ht. apply in_map_iff in Ht.
        destruct Ht as (c' & <- & Hc'). destruct (Hl c' Hc') as (s' & ->).
        simpl. specialize (Hc _ Hc'). intros ->.
        rewrite keq_refl in Hc. discriminate.
      * apply IH. inversion Hstr; assumption.
    + rewrite Forall2_map_l. apply Forall2_map_r_in. intros c Hc.
      apply unique_from_incl in Hc. apply in_map_iff in Hc as Hc'.
      destruct Hc' as (r & Er & Hr). destruct (Hvalid r Hr) as (s & Es & Hs).
      rewrite <- Er. clear Hc Er c. rewrite Es. simpl.
      split; [exact Hs|].
      exists (map sr_sector (group (Str s))), (map sr_net (group (Str s))).
      split; [reflexivity|]. split.
      * assert (Hin : In r (group (Str s))).
        { unfold group. apply filter_In. split; [exact Hr|]. rewrite Es.
          simpl. apply String.eqb_refl. }
        destruct (group (Str s)); [contradiction | discriminate].
      * split; [rewrite !length_map; reflexivity|].
        pose proof (colors_get_valid s Hs) as Hcol. simpl in Hcol.
        destruct Hcol as [<-|[<-|[<-|[]]]]; discriminate.
Qed.

Lemma net_flow_chart_bars_witness :
  canonical scenario_table /\
  exists summary fig,
    net_sector_summary scenario_done = Some summary /\
    create_net_flow_chart scenario_done = Built fig /\
    Permutation (flat_map bar_rows (fig_traces fig)) summary.
Proof.
  split; [exact scenario_table_canonical|].
  assert (E : _process_data scenario_clean = (Ok tt, scenario_done))
    by (vm_compute; reflexivity).
  destruct (net_flow_chart_bars scenario_clean scenario_done scenario_table
              eq_refl scenario_table_canonical E)
    as (summary & fig & Hs & Hf & Hp & _).
  exists summary, fig. auto.
Defined.

(** ** The pie chart *)

Lemma qsum_Forall2_all {A B} (R : A -> B -> Prop) (f : A -> Q) (f' : B -> Q)
      (l : list A) (l' : list B) :
  Forall2 R l l' ->
  (forall x y, In x l -> R x y -> (f x == f' y)%Q) ->
  (qsum (map f l) == qsum (map f' l'))%Q.
Proof.
  induction 1 as [|x y l l' Hxy _ IH]; simpl; intros HR; [reflexivity|].
  rewrite (HR x y (or_introl eq_refl) Hxy).
  rewrite IH; [reflexivity|]. intros a b Ha. apply HR. right. exact Ha.
Qed.

Lemma snd_combine {A B} (l : list A) (l' : list B) :
  List.length l = List.length l' -> map snd (combine l l') = l'.
Proof.
  revert l'. induction l as [|a l IH]; intros [|b l']; simpl; intros Hl;
    try discriminate; [reflexivity|].
  rewrite IH by lia. reflexivity.
Qed.

(** X10. After [_process_data] on a canonical table,
    [create_volume_pie_chart] draws one slice per investor type of the
    table, the types in key order and without repetition; every slice is a
    number, and the slices add up to the sum of the [TOTAL] column divided by
    a million: no traded volume is lost or counted twice. *)
Theorem volume_pie_total (st st' : Dashboard) (df : DataFrame)
        (inv total : list cell) :
  data st = Some df -> canonical df ->
  getitem df "INV TYPE" = Ok inv -> getitem df "TOTAL" = Ok total ->
  _process_data st = (Ok tt, st') ->
  exists labels values fig,
    create_volume_pie_chart st' = Built fig /\
    fig_traces fig = [Pie labels values] /\
    StronglySorted klt labels /\
    (forall c, In c inv -> exists l, In l labels /\ keq l c = true) /\
    (forall l, In l labels -> In l inv) /\
    List.length labels = List.length values /\
    Forall (fun v => is_num v = true) values /\
    (qsum (map num values) == qsum (map num total) / 1000000)%Q.
Proof.
  intros Hd Hcan Hi Ht E.
  destruct (process_data_ok _ _ E) as (df' & Hd' & _ & Hv).
  assert (df' = df) by congruence. subst df'.
  destruct Hv as (inv' & sec & net & total' & sums & scaled & s1 & tot & s2 &
                  vol & daily & daily' & evol & evol' & Hinv & Hsec & Hnet &
                  Htotal & Hsums & Hscaled & Hs1 & Htot & Hs2 & Hvol & _ & _ &
                  _ & _ & Hviews).
  assert (inv' = inv) by congruence. assert (total' = total) by congruence.
  subst inv' total'.
  assert (Hp : volume_total_by_type st' = Some vol)
    by (inversion Hviews; reflexivity).
  pose proof (series_scale_ok _ _ Hvol) as HF.
  pose proof (canonical_getitem_notna _ _ _ Hcan Hinv) as Ninv.
  pose proof (getitem_length _ _ _ Hinv) as Linv.
  pose proof (getitem_length _ _ _ Htotal) as Ltotal.
  assert (Hlen : List.length inv = List.length total) by congruence.
  assert (Hkeys : map fst vol = map fst s2).
  { symmetry. eapply Forall2_map_eq; [exact HF|]. simpl.
    intros a b [Hab _]. congruence. }
  destruct (groupby_sum_ok _ _ _ Hs2) as [Hg _].
  assert (Hval : forall e x, In e s2 -> scale_cell (snd e) = Ok x ->
            exists q, x = Num (q / 1000000) /\
                      (q == amount_under (fst e) (combine inv total))%Q).
  { intros [k s] x He Hx. simpl in *.
    destruct (group_entry _ _ _ _ _ _ Hs2 He Hx) as (_ & q & _ & -> & Hq & _).
    exists q. auto. }
  exists (map fst vol), (map snd vol). eexists.
  unfold create_volume_pie_chart. rewrite Hp.
  split; [reflexivity|]. split; [reflexivity|].
  split; [rewrite Hkeys, Hg; apply sort_uniq_strongly_sorted|].
  split.
  { intros c Hc.
    destruct (In_nth_error _ _ Hc) as (i & Hi').
    assert (Hlt : (i < List.length total)%nat)
      by (rewrite <- Hlen; apply nth_error_Some; congruence).
    apply nth_error_Some in Hlt.
    destruct (nth_error total i) as [v|] eqn:Hv'; [clear Hlt | congruence].
    assert (Hin : In (c, v) (combine inv total)).
    { apply (nth_error_In _ i). clear - Hi' Hv'.
      revert i total Hi' Hv'. induction inv as [|a inv IH];
        intros [|i] [|b total] Ha Hb; simpl in *; try discriminate.
      - congruence.
      - apply IH; assumption. }
    assert (Hna : kna (fst (c, v)) = false).
    { simpl. rewrite Forall_forall in Ninv. apply Ninv. exact Hc. }
    destruct (group_key_cover _ _ _ _ Hs2 Hin Hna) as (e & He & Ee).
    exists (fst e). split; [|exact Ee].
    rewrite Hkeys. apply in_map. exact He. }
  split.
  { intros l Hl. rewrite Hkeys in Hl.
    destruct (group_key_live _ _ _ _ Hs2 Hl) as [Hlive _].
    apply in_map_iff in Hlive. destruct Hlive as ([k v] & <- & Hkv).
    unfold live in Hkv. apply filter_In in Hkv. destruct Hkv as [Hkv _].
    simpl. eapply in_combine_l. exact Hkv. }
  split; [rewrite !length_map; reflexivity|].
  split.
  { apply Forall_forall. intros x Hx. apply in_map_iff in Hx.
    destruct Hx as (e' & <- & He').
    destruct (Forall2_in_r _ _ _ _ HF He') as (e & He & _ & Hs).
    destruct (Hval e _ He Hs) as (q & -> & _). reflexivity. }
  rewrite map_map.
  rewrite <- (qsum_Forall2_all _
                (fun e => amount_under (fst e) (combine inv total) / 1000000)
                (fun e' => num (snd e')) s2 vol HF)%Q.
  - rewrite (qsum_scale (fun e => amount_under (fst e) (combine inv total))).
    apply Qmult_comp; [|reflexivity].
    rewrite <- (map_map fst (fun g => amount_under g (combine inv total))).
    rewrite <- (filter_all (fun _ => true) (map fst s2)) by reflexivity.
    rewrite (group_partition (map fst s2) (fun _ => true)
                             (combine inv total)).
    + rewrite (filter_all _ (combine inv total)) by reflexivity.
      rewrite <- (map_map snd num), (snd_combine _ _ Hlen). reflexivity.
    + rewrite Hg. apply sort_uniq_strongly_sorted.
    + reflexivity.
    + intros r Hr.
      assert (Hna : kna (fst r) = false).
      { rewrite Forall_forall in Ninv. apply Ninv.
        destruct r as [k v]. eapply in_combine_l. exact Hr. }
      destruct (group_key_cover _ _ _ _ Hs2 Hr Hna) as (e & He & Ee).
      exists (fst e). split; [apply in_map; exact He | exact Ee].
  - intros e e' He [_ Hs]. destruct (Hval e _ He Hs) as (q & -> & Hq).
    simpl. rewrite Hq. reflexivity.
Qed.

Lemma volume_pie_total_witness :
  canonical scenario_table /\
  exists values fig,
    create_volume_pie_chart scenario_done = Built fig /\
    fig_traces fig
    = [Pie [Str "FOREIGNERS"; Str "LOCALS"; Str "RETAIL"] values] /\
    (qsum (map num values) == 13 # 2)%Q.
Proof.
  split; [exact scenario_table_canonical|].
  assert (E : _process_data scenario_clean = (Ok tt, scenario_done))
    by (vm_compute; reflexivity).
  destruct (volume_pie_total scenario_clean scenario_done scenario_table
              [Str "RETAIL"; Str "FOREIGNERS"; Str "LOCALS"]
              [Num 5000000; Num 1000000; Num 500000]
              eq_refl scenario_table_canonical eq_refl eq_refl E)
    as (labels & values & fig & Hf & Ht & _ & _ & _ & _ & _ & Hsum).
  pose proof Hf as Hc. vm_compute in Hc. inversion Hc as [Hfig]. clear Hc.
  subst fig. vm_compute in Ht. inversion Ht as [[Hl Hvals]]. clear Ht.
  eexists. eexists. split; [exact Hf|]. split; [reflexivity|].
  vm_compute. reflexivity.
Defined.

(** * The summary section *)

(** The sector summary [_process_data] stores holds numbers only. *)
Lemma summary_numeric (inv sec net : list cell)
      (sums : list (cell * cell * cell)) (scaled : list SummaryRow) :
  groupby_sum (combine inv sec) net = Ok sums ->
  summary_scale (summary_of sums) = Ok scaled ->
  numeric_summary scaled.
Proof.
  intros Hsums Hscaled. apply Forall_forall. intros r Hr.
  pose proof (summary_scale_ok _ _ Hscaled) as HF.
  unfold summary_of in HF. apply Forall2_map_l in HF.
  destruct (Forall2_in_r _ _ _ _ HF Hr) as ([k v] & He & _ & _ & Hx).
  simpl in Hx.
  destruct (group_entry _ _ _ _ _ _ Hsums He Hx) as (_ & q & _ & -> & _).
  reflexivity.
Qed.

Lemma top_bottom_run (st : Dashboard) (summary sorted : list SummaryRow)
      (c : cell) (n : Z) :
  net_sector_summary st = Some summary ->
  sort_values_desc (filter (fun r => cell_eqb (sr_inv r) c) summary)
  = Ok sorted ->
  get_top_bottom_sectors st c n = Ok (head n sorted, tail n sorted).
Proof.
  intros Hs E. unfold get_top_bottom_sectors. rewrite Hs, E. reflexivity.
Qed.

Lemma head_head_3 {A} (l : list A) : head 3 (head 3 l) = firstn 3 l.
Proof.
  unfold head. change (0 <=? 3)%Z with true. cbv beta iota.
  rewrite firstn_firstn. reflexivity.
Qed.

Lemma tail_tail_3 {A} (l : list A) :
  tail 3 (tail 3 l) = skipn (List.length l - 3) l.
Proof.
  unfold tail. change (0 <=? 3)%Z with true. cbv beta iota.
  change (Z.to_nat 3) with 3%nat. rewrite length_skipn.
  replace (List.length l - (List.length l - 3) - 3)%nat with 0%nat by lia.
  reflexivity.
Qed.

Lemma firstn_within {A} (l : list A) (n : nat) : incl (firstn n l) l.
Proof.
  intros x Hx. rewrite <- (firstn_skipn n l). apply in_or_app. left. exact Hx.
Qed.

Lemma skipn_within {A} (l : list A) (n : nat) : incl (skipn n l) l.
Proof.
  intros x Hx. rewrite <- (firstn_skipn n l). apply in_or_app. right. exact Hx.
Qed.

Lemma py_join_texts (sep : string) (l : list cell) :
  Forall (fun c => exists s, c = Str s) l ->
  py_join sep l = Ok (String.concat sep (map cell_text l)).
Proof.
  intros Hl. unfold py_join.
  rewrite (traverse_all_ok _ cell_text); [reflexivity|].
  intros c Hc. rewrite Forall_forall in Hl.
  destruct (Hl c Hc) as (s & ->). reflexivity.
Qed.

Lemma keq_str (c : cell) (t : string) : keq c (Str t) = true -> c = Str t.
Proof.
  destruct c as [|s|q]; unfold keq; simpl; try discriminate.
  destruct (String.compare s t) eqn:E; try discriminate.
  apply String.compare_eq_iff in E. congruence.
Qed.

Section Lookup.
Context {K : Type} `{KeyLaws K}.

Lemma lookup_key_some {V} (k : K) (l : list (K * V)) :
  (exists e, In e l /\ keq (fst e) k = true) ->
  exists v, lookup_key k l = Some v.
Proof.
  induction l as [|[k' v'] l IH]; simpl; intros (e & He & Ek);
    [contradiction|].
  destruct (keq k' k) eqn:E; [eauto|].
  destruct He as [<-|He]; [simpl in Ek; congruence|].
  apply IH. eauto.
Qed.
End Lookup.

(** The entry of a scaled series under a text key of the table. *)
Lemma series_get_present (inv vals : list cell) (g t : list (cell * cell))
      (name : string) :
  List.length inv = List.length vals ->
  groupby_sum inv vals = Ok g -> series_scale g = Ok t ->
  In (Str name) inv ->
  exists q, series_get t name = Ok (Num q) /\
            (q == amount_under (Str name) (combine inv vals) / 1000000)%Q.
Proof.
  intros Hlen Hg Ht Hin.
  destruct (in_combine_same_l inv vals _ Hlen Hin) as (v & Hv).
  destruct (group_key_cover _ _ _ _ Hg Hv eq_refl) as (e & He & Ee).
  destruct (Forall2_in_l _ _ _ _ (series_scale_ok _ _ Ht) He)
    as (e' & He' & Hk & _).
  destruct (lookup_key_some (Str name) t) as (x & Hx).
  { exists e'. split; [exact He'|]. rewrite Hk. exact Ee. }
  destruct (lookup_key_in _ _ _ Hx) as (k' & Hin' & Ek').
  apply keq_str in Ek'. subst k'.
  destruct (series_entry _ _ _ _ _ _ Hg Ht Hin') as (_ & _ & q & -> & Hq).
  exists q. unfold series_get. rewrite Hx. auto.
Qed.

Lemma series_get_absent (inv vals : list cell) (g t : list (cell * cell))
      (name : string) :
  groupby_sum inv vals = Ok g -> series_scale g = Ok t ->
  ~ In (Str name) inv ->
  series_get t name = Raise (KeyError name).
Proof.
  intros Hg Ht Hno. unfold series_get.
  destruct (lookup_key (Str name) t) as [x|] eqn:Hx; [|reflexivity].
  exfalso. apply Hno.
  destruct (lookup_key_in _ _ _ Hx) as (k' & Hin' & Ek').
  apply keq_str in Ek'. subst k'.
  destruct (series_entry _ _ _ _ _ _ Hg Ht Hin') as (_ & Hk & _).
  destruct (group_key_live _ _ _ _ Hg Hk) as [Hl _].
  apply in_map_iff in Hl. destruct Hl as ([k v] & Ek & Hl). simpl in Ek.
  subst k. unfold live in Hl. apply filter_In in Hl. destruct Hl as [Hl _].
  eapply in_combine_l. exact Hl.
Qed.

Section SummarySection.
Variable format_1f : Q -> string.

(** The section once the two rankings and the three totals are known. *)
Lemma summary_section_run (st : Dashboard)
      (summary locals foreigners : list SummaryRow)
      (totals : list (cell * cell)) (ql qf qr : Q) :
  net_sector_summary st = Some summary ->
  total_net_by_type st = Some totals ->
  sort_values_desc
    (filter (fun r => cell_eqb (sr_inv r) (Str "LOCALS")) summary)
  = Ok locals ->
  sort_values_desc
    (filter (fun r => cell_eqb (sr_inv r) (Str "FOREIGNERS")) summary)
  = Ok foreigners ->
  series_get totals "LOCALS" = Ok (Num ql) ->
  series_get totals "FOREIGNERS" = Ok (Num qf) ->
  series_get totals "RETAIL" = Ok (Num qr) ->
  Forall (fun r => exists s, sr_sector r = Str s) locals ->
  Forall (fun r => exists s, sr_sector r = Str s) foreigners ->
  exists html,
    _create_summary_section format_1f st = Ok html /\
    paragraphs html
    = [("🏛️ Locals: R$ " ++ format_1f ql ++ "M")%string;
       ("🌍 Foreigners: R$ " ++ format_1f qf ++ "M")%string;
       ("🏪 Retail: R$ " ++ format_1f qr ++ "M")%string;
       ("📈 Most Bought: "
          ++ String.concat ", "
               (map cell_text (map sr_sector (firstn 3 locals))))%string;
       ("📉 Most Sold: "
          ++ String.concat ", "
               (map cell_text
                    (map sr_sector
                         (skipn (List.length locals - 3) locals))))%string;
       ("📈 Most Bought: "
          ++ String.concat ", "
               (map cell_text (map sr_sector (firstn 3 foreigners))))%string;
       ("📉 Most Sold: "
          ++ String.concat ", "
               (map cell_text
                    (map sr_sector
                         (skipn (List.length foreigners - 3)
                                foreigners))))%string].
Proof.
  intros Hs Ht El Ef Hl Hf Hr Tl Tf.
  assert (Texts : forall (l l' : list SummaryRow),
             Forall (fun r => exists s, sr_sector r = Str s) l ->
             incl l' l ->
             Forall (fun c => exists s, c = Str s) (map sr_sector l')).
  { intros l l' Hall Hincl. apply Forall_forall. intros c Hc.
    apply in_map_iff in Hc. destruct Hc as (r & <- & Hr').
    rewrite Forall_forall in Hall. apply Hall, Hincl, Hr'. }
  unfold _create_summary_section.
  rewrite (top_bottom_run st summary locals _ 3 Hs El).
  rewrite (top_bottom_run st summary foreigners _ 3 Hs Ef).
  simpl rbind at 1. simpl rbind at 1. rewrite Ht.
  rewrite Hl, Hf, Hr. simpl format_cell. simpl rbind at 1.
  rewrite !head_head_3, !tail_tail_3.
  rewrite (py_join_texts _ _ (Texts locals _ Tl (firstn_within _ _))).
  rewrite (py_join_texts _ _ (Texts locals _ Tl (skipn_within _ _))).
  rewrite (py_join_texts _ _ (Texts foreigners _ Tf (firstn_within _ _))).
  rewrite (py_join_texts _ _ (Texts foreigners _ Tf (skipn_within _ _))).
  eexists. split; reflexivity.
Qed.
End SummarySection.

Section SummaryOutcomes.
Variable format_1f : Q -> string.

(** X11. After [_process_data] on a canonical table,
    [_create_summary_section] raises the key error of the first of
    [LOCALS], [FOREIGNERS], [RETAIL] (in this order) that no row of the
    table has as its investor type: the section, and with it the page, can
    only be built from a table in which all three types occur. *)
Theorem summary_section_missing_type (st st' : Dashboard) (df : DataFrame)
        (inv : list cell) (before after : list string) (t : string) :
  data st = Some df -> canonical df ->
  getitem df "INV TYPE" = Ok inv ->
  _process_data st = (Ok tt, st') ->
  ["LOCALS"; "FOREIGNERS"; "RETAIL"] = before ++ t :: after ->
  Forall (fun s => In (Str s) inv) before ->
  ~ In (Str t) inv ->
  _create_summary_section format_1f st' = Raise (KeyError t).
Proof.
  intros Hd Hcan Hi E Hsplit Hbefore Hno.
  destruct (process_data_ok _ _ E) as (df' & Hd' & _ & Hv).
  assert (df' = df) by congruence. subst df'.
  destruct Hv as (inv' & sec & net & total & sums & scaled & s1 & tot & s2 &
                  vol & daily & daily' & evol & evol' & Hinv & Hsec & Hnet &
                  Htotal & Hsums & Hscaled & Hs1 & Htot & _ & _ & _ & _ &
                  _ & _ & Hviews).
  assert (inv' = inv) by congruence. subst inv'.
  assert (Hsum : net_sector_summary st' = Some scaled)
    by (inversion Hviews; reflexivity).
  assert (Htt : total_net_by_type st' = Some tot)
    by (inversion Hviews; reflexivity).
  pose proof (summary_numeric _ _ _ _ _ Hsums Hscaled) as Hnum.
  assert (Hlen : List.length inv = List.length net).
  { rewrite (getitem_length _ _ _ Hinv), (getitem_length _ _ _ Hnet).
    reflexivity. }
  destruct (sort_values_desc_ok _
              (numeric_summary_filter
                 (fun r => cell_eqb (sr_inv r) (Str "LOCALS")) _ Hnum))
    as (locals & El & _).
  destruct (sort_values_desc_ok _
              (numeric_summary_filter
                 (fun r => cell_eqb (sr_inv r) (Str "FOREIGNERS")) _ Hnum))
    as (foreigners & Ef & _).
  unfold _create_summary_section.
  rewrite (top_bottom_run st' scaled locals _ 3 Hsum El).
  rewrite (top_bottom_run st' scaled foreigners _ 3 Hsum Ef).
  simpl rbind at 1. simpl rbind at 1. rewrite Htt.
  destruct before as [|b1 [|b2 [|b3 before]]]; simpl in Hsplit;
    inversion Hsplit; subst; clear Hsplit.
  - rewrite (series_get_absent _ _ _ _ _ Hs1 Htot Hno). reflexivity.
  - inversion Hbefore as [|? ? H1 _]; subst.
    destruct (series_get_present _ _ _ _ _ Hlen Hs1 Htot H1) as (q1 & -> & _).
    rewrite (series_get_absent _ _ _ _ _ Hs1 Htot Hno). reflexivity.
  - inversion Hbefore as [|? ? H1 Hb']; subst.
    inversion Hb' as [|? ? H2 _]; subst.
    destruct (series_get_present _ _ _ _ _ Hlen Hs1 Htot H1) as (q1 & -> & _).
    destruct (series_get_present _ _ _ _ _ Hlen Hs1 Htot H2) as (q2 & -> & _).
    rewrite (series_get_absent _ _ _ _ _ Hs1 Htot Hno). reflexivity.
  - destruct before; discriminate.
Qed.

(** X12. After [_process_data] on a canonical table in which the three
    investor types occur and the sectors are texts,
    [_create_summary_section] builds its section.  Its three totals are
    the formatted sums of the net amounts of each type, divided by a
    million.  For locals and for foreigners, "Most Bought" lists the
    sectors of the first three rows of the type's rows arranged by
    descending net amount, and "Most Sold" those of the last three rows
    of the same arrangement, the most sold one last; with three sectors
    or fewer both lines list the same sectors in the same order. *)
Theorem summary_section_lines (st st' : Dashboard) (df : DataFrame)
        (inv sec net : list cell) :
  data st = Some df -> canonical df ->
  getitem df "INV TYPE" = Ok inv -> getitem df "SECTOR" = Ok sec ->
  getitem df "NET R$" = Ok net ->
  _process_data st = (Ok tt, st') ->
  In (Str "LOCALS") inv -> In (Str "FOREIGNERS") inv ->
  In (Str "RETAIL") inv ->
  Forall (fun c => exists s, c = Str s) sec ->
  exists summary locals foreigners ql qf qr html,
    net_sector_summary st' = Some summary /\
    Permutation
      (filter (fun r => cell_eqb (sr_inv r) (Str "LOCALS")) summary) locals /\
    StronglySorted ge_net locals /\
    Permutation
      (filter (fun r => cell_eqb (sr_inv r) (Str "FOREIGNERS")) summary)
      foreigners /\
    StronglySorted ge_net foreigners /\
    (ql == amount_under (Str "LOCALS") (combine inv net) / 1000000)%Q /\
    (qf == amount_under (Str "FOREIGNERS") (combine inv net) / 1000000)%Q /\
    (qr == amount_under (Str "RETAIL") (combine inv net) / 1000000)%Q /\
    _create_summary_section format_1f st' = Ok html /\
    paragraphs html
    = [("🏛️ Locals: R$ " ++ format_1f ql ++ "M")%string;
       ("🌍 Foreigners: R$ " ++ format_1f qf ++ "M")%string;
       ("🏪 Retail: R$ " ++ format_1f qr ++ "M")%string;
       ("📈 Most Bought: "
          ++ String.concat ", "
               (map cell_text (map sr_sector (firstn 3 locals))))%string;
       ("📉 Most Sold: "
          ++ String.concat ", "
               (map cell_text
                    (map sr_sector
                         (skipn (List.length locals - 3) locals))))%string;
       ("📈 Most Bought: "
          ++ String.concat ", "
               (map cell_text (map sr_sector (firstn 3 foreigners))))%string;
       ("📉 Most Sold: "
          ++ String.concat ", "
               (map cell_text
                    (map sr_sector
                         (skipn (List.length foreigners - 3)
                                foreigners))))%string] /\
    ((List.length locals <= 3)%nat ->
     firstn 3 locals = skipn (List.length locals - 3) locals) /\
    ((List.length foreigners <= 3)%nat ->
     firstn 3 foreigners = skipn (List.length foreigners - 3) foreigners).
Proof.
  intros Hd Hcan Hi Hs Hn E HL HF HR Htext.
  destruct (process_data_ok _ _ E) as (df' & Hd' & _ & Hv).
  assert (df' = df) by congruence. subst df'.
  destruct Hv as (inv' & sec' & net' & total & sums & scaled & s1 & tot &
                  s2 & vol & daily & daily' & evol & evol' & Hinv & Hsec &
                  Hnet & Htotal & Hsums & Hscaled & Hs1 & Htot & _ & _ & _ &
                  _ & _ & _ & Hviews).
  assert (inv' = inv) by congruence. assert (sec' = sec) by congruence.
  assert (net' = net) by congruence. subst inv' sec' net'.
  assert (Hsum : net_sector_summary st' = Some scaled)
    by (inversion Hviews; reflexivity).
  assert (Htt : total_net_by_type st' = Some tot)
    by (inversion Hviews; reflexivity).
  pose proof (summary_numeric _ _ _ _ _ Hsums Hscaled) as Hnum.
  assert (Hlen : List.length inv = List.length net).
  { rewrite (getitem_length _ _ _ Hinv), (getitem_length _ _ _ Hnet).
    reflexivity. }
  destruct (sort_values_desc_ok _
              (numeric_summary_filter
                 (fun r => cell_eqb (sr_inv r) (Str "LOCALS")) _ Hnum))
    as (locals & El & Pl & Sl).
  destruct (sort_values_desc_ok _
              (numeric_summary_filter
                 (fun r => cell_eqb (sr_inv r) (Str "FOREIGNERS")) _ Hnum))
    as (foreigners & Ef & Pf & Sf).
  destruct (series_get_present _ _ _ _ _ Hlen Hs1 Htot HL) as (ql & Gl & Ql).
  destruct (series_get_present _ _ _ _ _ Hlen Hs1 Htot HF) as (qf & Gf & Qf).
  destruct (series_get_present _ _ _ _ _ Hlen Hs1 Htot HR) as (qr & Gr & Qr).
  assert (Hsec_text : forall r, In r scaled -> exists s, sr_sector r = Str s).
  { intros r Hr.
    pose proof (summary_row_pair _ _ _ _ _ _ Hsums Hscaled Hr) as Hp.
    apply in_combine_r in Hp. rewrite Forall_forall in Htext.
    exact (Htext _ Hp). }
  assert (Tl : Forall (fun r => exists s, sr_sector r = Str s) locals).
  { apply Forall_forall. intros r Hr. apply Hsec_text.
    apply Permutation_sym in Pl.
    pose proof (Permutation_in _ Pl Hr) as Hin.
    apply filter_In in Hin. tauto. }
  assert (Tf : Forall (fun r => exists s, sr_sector r = Str s) foreigners).
  { apply Forall_forall. intros r Hr. apply Hsec_text.
    apply Permutation_sym in Pf.
    pose proof (Permutation_in _ Pf Hr) as Hin.
    apply filter_In in Hin. tauto. }
  destruct (summary_section_run format_1f st' scaled locals foreigners tot
              ql qf qr Hsum Htt El Ef Gl Gf Gr Tl Tf) as (html & Hh & Hp).
  exists scaled, locals, foreigners, ql, qf, qr, html.
  repeat (split; [assumption|]).
  split; intros Hle.
  - rewrite firstn_all2 by exact Hle.
    replace (List.length locals - 3)%nat with 0%nat by lia. reflexivity.
  - rewrite firstn_all2 by exact Hle.
    replace (List.length foreigners - 3)%nat with 0%nat by lia. reflexivity.
Qed.
End SummaryOutcomes.

Lemma summary_section_missing_type_witness :
  canonical scenario_table /\
  _create_summary_section (fun _ => "")
    (snd (_process_data
            (with_data (mkDF (columns scenario_table)
                             (firstn 2 (rows scenario_table))) scenario_clean)))
  = Raise (KeyError "LOCALS").
Proof.
  split; [exact scenario_table_canonical|].
  assert (Hcan : canonical (mkDF (columns scenario_table)
                                 (firstn 2 (rows scenario_table)))).
  { destruct scenario_table_canonical as [Hwf Hall]. split.
    - unfold wf_frame in *. simpl. inversion Hwf as [|? ? H1 Hwf1]; subst.
      inversion Hwf1; subst. repeat constructor; assumption.
    - simpl. inversion Hall as [|? ? H1 Hall1]; subst.
      inversion Hall1; subst. repeat constructor; assumption. }
  apply (summary_section_missing_type (fun _ => "")
           (with_data (mkDF (columns scenario_table)
                            (firstn 2 (rows scenario_table))) scenario_clean)
           _ _ [Str "RETAIL"; Str "FOREIGNERS"] [] ["FOREIGNERS"; "RETAIL"]
           "LOCALS" eq_refl Hcan eq_refl).
  - vm_compute. reflexivity.
  - reflexivity.
  - constructor.
  - simpl. intros [H|[H|[]]]; discriminate.
Defined.

Lemma summary_section_lines_witness :
  canonical scenario_table /\
  exists html,
    _create_summary_section (fun _ => "0.0") scenario_done = Ok html /\
    List.length (paragraphs html) = 7%nat.
Proof.
  split; [exact scenario_table_canonical|].
  assert (E : _process_data scenario_clean = (Ok tt, scenario_done))
    by (vm_compute; reflexivity).
  destruct (summary_section_lines (fun _ => "0.0") scenario_clean scenario_done
              scenario_table
              [Str "RETAIL"; Str "FOREIGNERS"; Str "LOCALS"]
              [Str "BANK"; Str "Others"; Str "BANK"]
              [Num 2000000; Num (-1000000); Num 500000]
              eq_refl scenario_table_canonical eq_refl eq_refl eq_refl E)
    as (summary & locals & foreigners & ql & qf & qr & html & _ & _ & _ & _ &
        _ & _ & _ & _ & Hh & Hp & _).
  - simpl. auto.
  - simpl. auto.
  - simpl. auto.
  - repeat constructor; eauto.
  - exists html. split; [exact Hh|]. rewrite Hp. reflexivity.
Defined.

(** * The application *)

Lemma daily_chart_built (st : Dashboard) (p : Pivot cell) :
  daily_evolution st = Some p ->
  exists fig, create_daily_evolution_chart st = Built fig.
Proof.
  intros Hp. unfold create_daily_evolution_chart. rewrite Hp.
  set (y_of := fun k => match pivot_column p k with
                        | Some y => y
                        | None => []
                        end).
  rewrite (atraverse_built _
             (fun k => Scatter k (pv_index p) (y_of k) (colors_get k))).
  - simpl. eauto.
  - intros k Hk. unfold y_of, pivot_column.
    destruct (position_some k (pv_columns p)) as (j & ->);
      [exists k; split; [exact Hk | apply keq_refl] | reflexivity].
Qed.

Lemma pair_keq_second {A B} `{KeyLaws A} `{KeyLaws B} (x y : A * B) :
  keq x y = true -> keq (snd x) (snd y) = true.
Proof.
  unfold keq. simpl. destruct (kcmp (fst x) (fst y)); auto; discriminate.
Qed.

Lemma combine_three {A B C D} (f : A -> B) (g : A -> C) (h : A -> D)
      (l : list A) :
  combine (map f l) (combine (map g l) (map h l))
  = map (fun x => (f x, (g x, h x))) l.
Proof.
  rewrite (combine_map g h), (combine_map f (fun x => (g x, h x))).
  reflexivity.
Qed.

(** The columns of the sector pivot are the (investor type, sector) pairs
    of the dated rows. *)
Lemma sector_columns_dated (df : DataFrame) (inv sec net : list cell)
      (agged : list (label * (cell * cell) * cell))
      (evol' : Pivot (cell * cell)) :
  canonical df ->
  getitem df "INV TYPE" = Ok inv -> getitem df "SECTOR" = Ok sec ->
  getitem df "NET R$" = Ok net ->
  groupby_sum (combine (map fst (rows df)) (combine inv sec)) net = Ok agged ->
  pivot_scale (pivot_fillna (Num 0) (unstack agged)) = Ok evol' ->
  StronglySorted klt (pv_columns evol') /\
  (forall k, In k (pv_columns evol') ->
     exists d, In (d, k) (combine (map fst (rows df)) (combine inv sec)) /\
               isnat d = false) /\
  (forall d k, In (d, k) (combine (map fst (rows df)) (combine inv sec)) ->
     isnat d = false ->
     exists k', In k' (pv_columns evol') /\ keq k' k = true).
Proof.
  intros Hcan Hinv Hsec Hnet Hagg Hs.
  destruct (pivot_scale_ok _ _ _ Hs) as (_ & Hc & _).
  destruct (scaled_pivot_shape _ _ Hs) as (_ & Sc & _).
  pose proof (canonical_getitem_notna _ _ _ Hcan Hinv) as Ninv.
  pose proof (canonical_getitem_notna _ _ _ Hcan Hsec) as Nsec.
  pose proof (getitem_length _ _ _ Hinv) as Linv.
  pose proof (getitem_length _ _ _ Hsec) as Lsec.
  pose proof (getitem_length _ _ _ Hnet) as Lnet.
  split; [exact Sc|]. split.
  - intros k Hk. rewrite Hc in Hk.
    destruct (unstack_columns_live _ _ _ _ _ Hagg Hk) as (_ & d & Hd).
    destruct (group_key_live _ _ _ _ Hagg Hd) as [Hl Hna].
    exists d. split.
    + apply in_map_iff in Hl. destruct Hl as ([k0 v] & Ek & Hl).
      simpl in Ek. subst k0. unfold live in Hl. apply filter_In in Hl.
      destruct Hl as [Hl _]. eapply in_combine_l. exact Hl.
    + simpl in Hna. apply orb_false_iff in Hna. tauto.
  - intros d [c s] Hin Hd.
    assert (Hna : kna (d, (c, s)) = false).
    { simpl. rewrite Hd. simpl. apply in_combine_r in Hin.
      rewrite Forall_forall in Ninv, Nsec.
      rewrite (Ninv c), (Nsec s); [reflexivity | | ].
      - eapply in_combine_r. exact Hin.
      - eapply in_combine_l. exact Hin. }
    assert (Hlen : List.length (combine (map fst (rows df)) (combine inv sec))
                   = List.length net).
    { rewrite !length_combine, length_map. lia. }
    destruct (unstack_covers _ _ _ _ d (c, s) Hagg Hlen Hin Hna) as [_ Hk].
    rewrite Hc. exact Hk.
Qed.

Lemma summary_section_no_dropdown (format_1f : Q -> string) (st : Dashboard)
      (html : Html) :
  _create_summary_section format_1f st = Ok html -> dropdowns html = [].
Proof.
  unfold _create_summary_section.
  destruct (get_top_bottom_sectors st (Str "LOCALS") 3) as [[tl bl]|];
    simpl; [|discriminate].
  destruct (get_top_bottom_sectors st (Str "FOREIGNERS") 3) as [[tf bf]|];
    simpl; [|discriminate].
  destruct (total_net_by_type st) as [totals|]; [|discriminate].
  repeat match goal with
         | |- rbind ?r _ = Ok _ -> _ =>
             destruct r as [?|?]; simpl; [|discriminate]
         end.
  intros E. inversion E. reflexivity.
Qed.

Section CreateApp.
Variable conv : cell -> option Z.
Variable format_1f : Q -> string.
Variable str_float : Q -> string.

(** X13. What [create_app] does after a successful load.  Whatever
    [_create_summary_section] raises, [create_app] raises too: it has no
    handler of its own.  With the section built, [create_app] raises an
    index error when no row of the canonical table has a trade date, the
    sector dropdown having no option to select; with a dated row it
    returns the application, whose callback is [update_sector_chart] on
    the loaded object and whose paragraphs are the time line followed by
    those of the section.  The options of the dropdown are then the
    sectors of the dated rows, none twice, and the selected one is the
    sector of the least (investor type, sector) pair of the dated rows.
    In all three cases the object is as [load_data] left it. *)
Theorem create_app_outcomes (raw canon : DataFrame) (now : string)
        (st0 st' : Dashboard) (inv sec : list cell) :
  wf_frame raw ->
  load_data conv (Ok raw) st0 = (true, st') ->
  data st' = Some canon ->
  getitem canon "INV TYPE" = Ok inv -> getitem canon "SECTOR" = Ok sec ->
  (forall e, _create_summary_section format_1f st' = Raise e ->
     create_app conv format_1f str_float (Ok raw) now st0
     = (Crash (Pipeline e), st')) /\
  (forall html, _create_summary_section format_1f st' = Ok html ->
     (Forall (fun r => fst r = NaT) (rows canon) ->
      create_app conv format_1f str_float (Ok raw) now st0
      = (Crash IndexError, st')) /\
     ((exists r, In r (rows canon) /\ fst r <> NaT) ->
      exists app first others c,
        create_app conv format_1f str_float (Ok raw) now st0
        = (Built app, st') /\
        app_title app = "Genial Investor Flow" /\
        app_callback app = Some (update_sector_chart str_float st') /\
        paragraphs (app_layout app)
        = ("Dados atualizados em: " ++ now)%string :: paragraphs html /\
        dropdowns (app_layout app)
        = [(map (fun s => (s, s)) (first :: others), first)] /\
        ForallOrdPairs (fun a b => keq a b = false) (first :: others) /\
        (forall s, In s (first :: others) ->
           exists d c',
             In (d, (c', s))
                (combine (map fst (rows canon)) (combine inv sec)) /\
             isnat d = false) /\
        (forall d c' s,
           In (d, (c', s))
              (combine (map fst (rows canon)) (combine inv sec)) ->
           isnat d = false ->
           exists o, In o (first :: others) /\ keq o s = true) /\
        (exists d, In (d, (c, first))
                      (combine (map fst (rows canon)) (combine inv sec)) /\
                   isnat d = false) /\
        (forall d k,
           In (d, k) (combine (map fst (rows canon)) (combine inv sec)) ->
           isnat d = false -> kcmp (c, first) k <> Gt))).
Proof.
  intros Hwf Hload Hd Hi Hs.
  destruct (load_data_true conv _ _ _ Hload) as (raw' & s1 & Hraw & Ec & Ep).
  inversion Hraw; subst raw'. clear Hraw.
  destruct (clean_data_canonical conv (with_data raw st0) s1 raw eq_refl Hwf Ec)
    as (canon' & Hd1 & Hcan & _).
  destruct (process_data_ok _ _ Ep) as (df & Hdf & Hdf' & Hv).
  assert (df = canon) by congruence. subst df.
  assert (canon' = canon) by congruence. subst canon'.
  destruct Hv as (inv' & sec' & net & total & sums & scaled & ss1 & tot &
                  s2 & vol & daily & daily' & evol & evol' & Hinv & Hsec &
                  Hnet & Htotal & Hsums & Hscaled & Hs1 & Htot & Hs2 &
                  Hvol & Hdaily & Hdaily' & Hevol & Hevol' & Hviews).
  assert (inv' = inv) by congruence. assert (sec' = sec) by congruence.
  subst inv' sec'.
  assert (Hsum : net_sector_summary st' = Some scaled)
    by (inversion Hviews; reflexivity).
  assert (Hday : daily_evolution st' = Some daily')
    by (inversion Hviews; reflexivity).
  assert (Hpie : volume_total_by_type st' = Some vol)
    by (inversion Hviews; reflexivity).
  assert (Hev : evol_sector st' = Some evol')
    by (inversion Hviews; reflexivity).
  destruct (daily_chart_built st' daily' Hday) as (dfig & Hdfig).
  destruct (pivot_table_ok _ _ _ _ Hevol) as (agged & Hagg & ->).
  destruct (sector_columns_dated canon inv sec net agged evol'
              Hcan Hinv Hsec Hnet Hagg Hevol') as (Sc & Hcols & Hcover).
  assert (Hrun : create_app conv format_1f str_float (Ok raw) now st0
                 = (abind (of_result (_create_summary_section format_1f st'))
                      (fun summary =>
                         match unique (map snd (pv_columns evol')) with
                         | [] => Crash IndexError
                         | first :: _ =>
                             Built
                               (mkApp "Genial Investor Flow"
                                  (Div
                                     [Div [H1 "Genial - Investor Flow Dashboard";
                                           P ("Dados atualizados em: " ++ now)];
                                      Tabs "tabs" "tab-1"
                                        [Tab "📊 Net by Investor Type" "tab-1"
                                           [Div [Graph
                                                   (match create_net_flow_chart st' with
                                                    | Built f => f
                                                    | Crash _ => dfig
                                                    end);
                                                 summary]];
                                         Tab "📈 Daily Evolution" "tab-2"
                                           [Div [Graph dfig;
                                                 Graph
                                                   (match create_volume_pie_chart st' with
                                                    | Built f => f
                                                    | Crash _ => dfig
                                                    end)]];
                                         Tab "🔍 Sector Analysis" "tab-3"
                                           [Div [H3 "Sector Flow Over Time";
                                                 Dropdown "sector-dropdown"
                                                   (map (fun s => (s, s))
                                                        (unique (map snd (pv_columns evol'))))
                                                   first;
                                                 GraphSlot "sector-evolution"]]]])
                                  (Some (update_sector_chart str_float st')))
                         end), st')).
  { unfold create_app. rewrite Hload. cbv beta iota. simpl negb.
    cbv beta iota. f_equal.
    unfold create_net_flow_chart, create_volume_pie_chart.
    rewrite Hsum, Hpie. simpl abind at 1.
    destruct (_create_summary_section format_1f st') as [html|e];
      [|reflexivity].
    simpl. rewrite Hdfig. simpl. rewrite Hev.
    destruct (unique (map snd (pv_columns evol'))); reflexivity. }
  split.
  - intros e He. rewrite Hrun, He. reflexivity.
  - intros html Hh. rewrite Hrun, Hh. simpl abind. split.
    + intros Hnat.
      assert (Hnil : pv_columns evol' = []).
      { destruct (pv_columns evol') as [|k ks] eqn:Ek; [reflexivity|].
        destruct (Hcols k (or_introl eq_refl)) as (d & Hin & Hdn).
        apply in_combine_l in Hin. apply in_map_iff in Hin.
        destruct Hin as (r & Er & Hr). rewrite Forall_forall in Hnat.
        rewrite (Hnat r Hr) in Er. subst d. discriminate. }
      rewrite Hnil. reflexivity.
    + intros (r & Hr & Hdated).
      destruct (getitem_ok _ _ _ Hinv) as (pI & _ & Einv).
      destruct (getitem_ok _ _ _ Hsec) as (pS & _ & Esec).
      assert (Hin : In (fst r, (nth pI (snd r) NaN, nth pS (snd r) NaN))
                       (combine (map fst (rows canon)) (combine inv sec))).
      { rewrite Einv, Esec, combine_three.
        apply in_map_iff. exists r. auto. }
      assert (Hdn : isnat (fst r) = false)
        by (destruct (fst r); auto; contradiction).
      destruct (Hcover _ _ Hin Hdn) as (k' & Hk' & _).
      destruct (pv_columns evol') as [|k ks] eqn:Ek; [contradiction|].
      change (unique (map snd (k :: ks)))
        with (snd k :: unique_from [snd k] (map snd ks)).
      eexists. exists (snd k), (unique_from [snd k] (map snd ks)), (fst k).
      split; [reflexivity|]. split; [reflexivity|].
      split; [reflexivity|].
      split; [simpl; rewrite !app_nil_r; reflexivity|].
      split;
        [simpl; rewrite (summary_section_no_dropdown _ _ _ Hh); reflexivity|].
      split; [apply (unique_distinct (map snd (k :: ks)))|].
      split.
      { intros s Hs'.
        apply (unique_from_incl [] (map snd (k :: ks))) in Hs'.
        apply in_map_iff in Hs'. destruct Hs' as ([c' s'] & Es & Hk).
        simpl in Es. subst s'.
        destruct (Hcols _ Hk) as (d & Hd' & Hdn').
        exists d, c'. auto. }
      split.
      { intros d c' s Hin' Hdn'.
        destruct (Hcover _ _ Hin' Hdn') as (k2 & Hk2 & Ek2).
        destruct (unique_cover (map snd (k :: ks)) (snd k2))
          as (o & Ho & Eo); [apply in_map; exact Hk2|].
        exists o. split; [exact Ho|].
        apply pair_keq_second in Ek2. simpl in Ek2.
        rewrite (keq_r _ _ o Ek2) in Eo. exact Eo. }
      split.
      { destruct (Hcols k (or_introl eq_refl)) as (d & Hd' & Hdn').
        exists d. destruct k as [c0 s0]. auto. }
      { intros d k2 Hin' Hdn'.
        destruct (Hcover _ _ Hin' Hdn') as (k3 & Hk3 & Ek3).
        apply keq_true in Ek3.
        rewrite <- (kcmp_eq_r _ _ _ Ek3).
        replace (fst k, snd k) with k by (destruct k; reflexivity).
        destruct Hk3 as [<-|Hk3].
        - rewrite kcmp_refl. discriminate.
        - inversion Sc as [|? ? _ Hall]; subst.
          rewrite Forall_forall in Hall. specialize (Hall _ Hk3).
          unfold klt in Hall. rewrite Hall. discriminate. }
Qed.

End CreateApp.

Lemma create_app_outcomes_witness :
  wf_frame scenario_raw /\
  load_data stamp_of_number (Ok scenario_raw) init = (true, scenario_done) /\
  exists app,
    create_app stamp_of_number (fun _ => "0.0") (fun _ => "")
               (Ok scenario_raw) "03/11/2026 10:00" init
    = (Built app, scenario_done) /\
    List.length (dropdowns (app_layout app)) = 1%nat.
Proof.
  assert (Hwf : wf_frame scenario_raw) by (repeat constructor).
  assert (Hload : load_data stamp_of_number (Ok scenario_raw) init
                  = (true, scenario_done)) by (vm_compute; reflexivity).
  assert (Hh : exists html,
             _create_summary_section (fun _ => "0.0") scenario_done = Ok html)
    by (vm_compute; eexists; reflexivity).
  destruct Hh as (html & Hh).
  split; [exact Hwf|]. split; [exact Hload|].
  destruct (create_app_outcomes stamp_of_number (fun _ => "0.0") (fun _ => "")
              scenario_raw scenario_table "03/11/2026 10:00" init
              scenario_done
              [Str "RETAIL"; Str "FOREIGNERS"; Str "LOCALS"]
              [Str "BANK"; Str "Others"; Str "BANK"]
              Hwf Hload eq_refl eq_refl eq_refl) as [_ Hok].
  destruct (Hok html Hh) as [_ Hbuilt].
  destruct Hbuilt as (app & first & others & c & Happ & _ & _ & _ & Hdrop & _).
  - exists (Stamp 1, [Str "BANK"; Str "Others"; Str "Others"; Str "RETAIL";
                      Num 3500000; Num 1500000; Num 2000000; Num 5000000]).
    split; [left; reflexivity | discriminate].
  - exists app. split; [exact Happ|]. rewrite Hdrop. reflexivity.
Defined.

(** Without a workbook the page is the error page, and an object loaded
    before keeps its table and views. *)
Example create_app_without_workbook :
  create_app stamp_of_number (fun _ => "0.0") (fun _ => "")
             (Raise FileNotFoundError) "03/11/2026 10:00" scenario_done
  = (Built (mkApp "Genial Investor Flow" error_page None), scenario_done).
Proof. reflexivity. Qed.

(** The scenario without any trade date loads, and [create_app] then stops
    at the dropdown. *)
Example create_app_dateless :
  load_data stamp_of_number (Ok dateless_raw) init = (true, dateless_done) /\
  create_app stamp_of_number (fun _ => "0.0") (fun _ => "")
             (Ok dateless_raw) "03/11/2026 10:00" init
  = (Crash IndexError, dateless_done).
Proof. split; vm_compute; reflexivity. Qed.

(** * Rows of other accounts *)






Section OtherAccounts.
Variable conv : cell -> option Z.


End OtherAccounts.


(** * The file pattern *)

Lemma string_length_app (a b : string) :
  String.length (a ++ b) = (String.length a + String.length b)%nat.
Proof. induction a as [|c a IH]; simpl; congruence. Qed.

Lemma string_app_assoc (a b c : string) :
  ((a ++ b) ++ c = a ++ (b ++ c))%string.
Proof. induction a as [|x a IH]; simpl; congruence. Qed.

Lemma substring_whole (s : string) : substring 0 (String.length s) s = s.
Proof. induction s as [|c s IH]; simpl; congruence. Qed.

Lemma substring_past (a b : string) (j m : nat) :
  substring (String.length a + j) m (a ++ b) = substring j m b.
Proof. induction a as [|c a IH]; simpl; auto. Qed.

Lemma substring_split (s : string) (k : nat) :
  (k <= String.length s)%nat ->
  s = (substring 0 k s ++ substring k (String.length s - k) s)%string.
Proof.
  revert k. induction s as [|c s IH]; intros [|k] Hk; simpl in *;
    try lia; try reflexivity.
  - rewrite substring_whole. reflexivity.
  - rewrite <- (IH k) by lia. reflexivity.
Qed.

(** X16. The entries [load_data] chooses from are those whose name is
    [Brokeragem], then any text (none included), then [.xlsx], capitals
    mattering: the pattern asks for nothing more and accepts nothing
    less. *)
Theorem glob_match_names (name : string) :
  glob_match name = true <->
  exists mid, name = ("Brokeragem" ++ mid ++ ".xlsx")%string.
Proof.
  unfold glob_match, ends_with. split.
  - intros E. apply andb_true_iff in E. destruct E as [E Hlen].
    apply andb_true_iff in E. destruct E as [Hpre Hsuf].
    apply Nat.leb_le in Hlen. apply String.eqb_eq in Hsuf.
    apply prefix_correct in Hpre.
    change (String.length "Brokeragem") with 10%nat in *.
    change (String.length ".xlsx") with 5%nat in *.
    pose proof (substring_split name 10 ltac:(lia)) as H1.
    rewrite Hpre in H1.
    remember (substring 10 (String.length name - 10) name) as rest eqn:Er.
    clear Er.
    assert (Hrest : String.length rest = (String.length name - 10)%nat).
    { apply (f_equal String.length) in H1. rewrite string_length_app in H1.
      simpl in H1. lia. }
    pose proof (substring_split rest (String.length rest - 5) ltac:(lia))
      as H2.
    replace (String.length rest - (String.length rest - 5))%nat with 5%nat
      in H2 by lia.
    pose proof (substring_past "Brokeragem" rest (String.length rest - 5) 5)
      as Hp.
    rewrite <- H1 in Hp.
    replace (String.length "Brokeragem" + (String.length rest - 5))%nat
      with (String.length name - 5)%nat in Hp by (simpl; lia).
    rewrite Hsuf in Hp. rewrite <- Hp in H2.
    exists (substring 0 (String.length rest - 5) rest).
    rewrite <- H2. exact H1.
  - intros (mid & ->).
    apply andb_true_iff. split; [apply andb_true_iff; split|].
    + apply prefix_correct. simpl.
      destruct (mid ++ ".xlsx")%string; reflexivity.
    + apply String.eqb_eq.
      rewrite <- (string_app_assoc "Brokeragem" mid ".xlsx").
      rewrite string_length_app.
      replace (String.length ("Brokeragem" ++ mid) + String.length ".xlsx"
               - String.length ".xlsx")%nat
        with (String.length ("Brokeragem" ++ mid) + 0)%nat by lia.
      rewrite substring_past. apply substring_whole.
    + apply Nat.leb_le. rewrite !string_length_app. simpl. lia.
Qed.

(** * The entry point *)

Section MainSettings.
Variable conv : cell -> option Z.
Variable format_1f : Q -> string.
Variable str_float : Q -> string.
Variable py_int : string -> option Z.
Variable lower : string -> string.

(** X17. The script never honours [DEBUG]: two environments that differ
    in that variable only give the same outcome.  When the script reaches
    [app.run], the application is the one [create_app] built from a fresh
    object; with a non-empty [RENDER] it runs without debugging on
    [0.0.0.0] and on the port [PORT] names (8050 without [PORT]), printing
    nothing; otherwise it runs with debugging on [127.0.0.1] and on port
    8050 whatever [PORT] names, after three printed lines. *)
Theorem main_run_settings (environ environ' : string -> option string)
        (src : result DataFrame) (now : string) :
  (forall key, key <> "DEBUG" -> environ key = environ' key) ->
  main conv format_1f str_float py_int lower environ src now
  = main conv format_1f str_float py_int lower environ' src now /\
  forall run,
    main conv format_1f str_float py_int lower environ src now = Built run ->
    fst (create_app conv format_1f str_float src now init)
    = Built (run_app run) /\
    match environ "RENDER" with
    | Some (String _ _) =>
        run_debug run = false /\ run_host run = "0.0.0.0" /\
        run_printed run = [] /\
        match environ "PORT" with
        | None => run_port run = 8050%Z
        | Some text => py_int text = Some (run_port run)
        end
    | _ =>
        run_debug run = true /\ run_host run = "127.0.0.1" /\
        run_port run = 8050%Z /\ List.length (run_printed run) = 3%nat
    end.
Proof.
  intros Hsame. split.
  - unfold main.
    rewrite <- (Hsame "PORT") by discriminate.
    rewrite <- (Hsame "RENDER") by discriminate.
    reflexivity.
  - intros run. unfold main.
    destruct (create_app conv format_1f str_float src now init)
      as [[app|e] st]; simpl; [|discriminate].
    destruct (environ "PORT") as [text|] eqn:Hport.
    + destruct (py_int text) as [n|] eqn:Hint; simpl; [|discriminate].
      destruct (environ "RENDER") as [[|c r]|]; intros E; inversion E;
        simpl; auto.
    + simpl.
      destruct (environ "RENDER") as [[|c r]|]; intros E; inversion E;
        simpl; auto.
Qed.
End MainSettings.

Lemma main_run_settings_witness :
  main stamp_of_number (fun _ => "0.0") (fun _ => "") (fun _ => None)
       (fun s => s)
       (fun key => if String.eqb key "DEBUG" then Some "true" else None)
       (Ok scenario_raw) "03/11/2026 10:00"
  = main stamp_of_number (fun _ => "0.0") (fun _ => "") (fun _ => None)
         (fun s => s) (fun _ => None) (Ok scenario_raw) "03/11/2026 10:00".
Proof.
  apply (main_run_settings stamp_of_number (fun _ => "0.0") (fun _ => "")
           (fun _ => None) (fun s => s)
           (fun key => if String.eqb key "DEBUG" then Some "true" else None)
           (fun _ => None) (Ok scenario_raw) "03/11/2026 10:00").
  intros key Hkey. destruct (String.eqb key "DEBUG") eqn:E; [|reflexivity].
  apply String.eqb_eq in E. contradiction.
Defined.

(** * Top and bottom apart *)

Lemma StronglySorted_across {A} (R : A -> A -> Prop) (l1 l2 : list A) :
  StronglySorted R (l1 ++ l2) ->
  forall a b, In a l1 -> In b l2 -> R a b.
Proof.
  induction l1 as [|x l1 IH]; simpl; intros Hs a b Ha Hb; [contradiction|].
  inversion Hs as [|? ? Hs' Hall]; subst.
  destruct Ha as [<-|Ha].
  - rewrite Forall_forall in Hall. apply Hall. apply in_or_app. right. exact Hb.
  - exact (IH Hs' a b Ha Hb).
Qed.

(** X18. With at least [2 n] sectors under an investor type ([n] not
    negative), the two lists of [get_top_bottom_sectors] do not overlap:
    the descending arrangement of the type's rows is the top list, then
    the rows of neither list, then the bottom list; both lists have [n]
    rows and every row of the top list has a net amount not below that of
    every row of the bottom list. *)
Theorem top_bottom_apart (st : Dashboard) (summary : list SummaryRow)
        (c : cell) (n : Z) :
  net_sector_summary st = Some summary -> numeric_summary summary ->
  (0 <= n)%Z ->
  (2 * Z.to_nat n
   <= List.length (filter (fun r => cell_eqb (sr_inv r) c) summary))%nat ->
  exists top middle bottom,
    get_top_bottom_sectors st c n = Ok (top, bottom) /\
    Permutation (filter (fun r => cell_eqb (sr_inv r) c) summary)
                (top ++ middle ++ bottom) /\
    StronglySorted ge_net (top ++ middle ++ bottom) /\
    List.length top = Z.to_nat n /\ List.length bottom = Z.to_nat n /\
    forall a b, In a top -> In b bottom -> ge_net a b.
Proof.
  intros Hs Hnum Hn Hcount.
  destruct (sort_values_desc_ok _ (numeric_summary_filter
                                     (fun r => cell_eqb (sr_inv r) c) _ Hnum))
    as (sorted & E & Hp & Hsorted).
  pose proof (Permutation_length Hp) as Hlen. rewrite Hlen in Hcount.
  set (k := Z.to_nat n) in *.
  exists (firstn k sorted),
         (firstn (List.length sorted - 2 * k) (skipn k sorted)),
         (skipn (List.length sorted - k) sorted).
  assert (Hsplit : firstn k sorted
                   ++ firstn (List.length sorted - 2 * k) (skipn k sorted)
                   ++ skipn (List.length sorted - k) sorted
                   = sorted).
  { replace (skipn (List.length sorted - k) sorted)
      with (skipn (List.length sorted - 2 * k) (skipn k sorted)).
    - rewrite (firstn_skipn (List.length sorted - 2 * k) (skipn k sorted)).
      apply firstn_skipn.
    - rewrite skipn_skipn. f_equal. lia. }
  split.
  { unfold get_top_bottom_sectors. rewrite Hs, E. simpl. unfold head, tail.
    apply Z.leb_le in Hn. rewrite Hn. reflexivity. }
  rewrite Hsplit. split; [exact Hp|]. split; [exact Hsorted|].
  split; [rewrite length_firstn; lia|].
  split; [rewrite length_skipn; lia|].
  intros a b Ha Hb. rewrite <- Hsplit in Hsorted. rewrite app_assoc in Hsorted.
  apply (StronglySorted_across _ _ _ Hsorted a b).
  - apply in_or_app. left. exact Ha.
  - exact Hb.
Qed.

Lemma top_bottom_apart_witness :
  exists top bottom,
    get_top_bottom_sectors tie_board (Str "LOCALS") 1 = Ok (top, bottom) /\
    List.length top = 1%nat /\ List.length bottom = 1%nat /\
    forall a b, In a top -> In b bottom -> ge_net a b.
Proof.
  destruct (top_bottom_apart tie_board tie_summary (Str "LOCALS") 1 eq_refl)
    as (top & middle & bottom & E & _ & _ & Ht & Hb & Hge).
  - repeat constructor.
  - lia.
  - simpl. lia.
  - exists top, bottom. auto.
Defined.

(** * The daily pivot against the totals *)

Lemma filter_filter {A} (p q : A -> bool) (l : list A) :
  filter p (filter q l) = filter (fun x => q x && p x) l.
Proof.
  induction l as [|a l IH]; simpl; auto.
  destruct (q a); simpl; [destruct (p a)|]; congruence.
Qed.

Lemma keq_pair_split {A B} `{Key A} `{Key B} (a a' : A) (b b' : B) :
  keq (a, b) (a', b') = keq a a' && keq b b'.
Proof.
  unfold keq. simpl. destruct (kcmp a a'); destruct (kcmp b b'); reflexivity.
Qed.

Lemma amount_under_map {A K} `{Key K} (F : A -> K * cell) (key : K)
      (l : list A) :
  amount_under key (map F l)
  = qsum (map (fun r => num (snd (F r)))
              (filter (fun r => keq (fst (F r)) key) l)).
Proof.
  unfold amount_under. rewrite filter_map_comm, map_map. reflexivity.
Qed.

(** X19. After [_process_data] on a canonical table whose rows all have a
    trade date, every column of the daily pivot adds up to the entry of its
    investor type in the total-net view: over the dates, the line of a type
    in the daily chart sums to the total the summary section shows for
    it. *)
Theorem daily_column_total (st st' : Dashboard) (df : DataFrame) :
  data st = Some df -> canonical df ->
  Forall (fun r => isnat (fst r) = false) (rows df) ->
  _process_data st = (Ok tt, st') ->
  exists daily tot,
    daily_evolution st' = Some daily /\ total_net_by_type st' = Some tot /\
    forall k, In k (pv_columns daily) ->
      exists y k' v,
        pivot_column daily k = Some y /\
        List.length y = List.length (pv_index daily) /\
        In (k', Num v) tot /\ keq k' k = true /\
        (qsum (map num y) == v)%Q.
Proof.
  intros Hd Hcan Hdated E.
  destruct (process_data_ok _ _ E) as (df' & Hd' & _ & Hv).
  assert (df' = df) by congruence. subst df'.
  destruct Hv as (inv & sec & net & total & sums & scaled & s1 & tot & s2 &
                  vol & daily & daily' & evol & evol' & Hinv & Hsec & Hnet &
                  Htotal & Hsums & Hscaled & Hs1 & Htot & _ & _ & Hdaily &
                  Hdaily' & _ & _ & Hviews).
  exists daily', tot.
  split; [inversion Hviews; reflexivity|].
  split; [inversion Hviews; reflexivity|].
  destruct (pivot_table_ok _ _ _ _ Hdaily) as (agged & Hagg & ->).
  destruct (pivot_scale_ok _ _ _ Hdaily') as (Hidx & Hcols & _).
  destruct (scaled_pivot_shape _ _ Hdaily') as (Si & _ & _ & _).
  pose proof (canonical_getitem_notna _ _ _ Hcan Hinv) as Ninv.
  destruct (getitem_ok _ _ _ Hinv) as (pI & _ & Einv).
  destruct (getitem_ok _ _ _ Hnet) as (pN & _ & Enet).
  set (date := fun r : label * list cell => fst r) in *.
  set (type := fun r : label * list cell => nth pI (snd r) NaN) in *.
  set (amount := fun r : label * list cell => nth pN (snd r) NaN) in *.
  assert (Ekv : combine (combine (map fst (rows df)) inv) net
                = map (fun r => ((date r, type r), amount r)) (rows df)).
  { rewrite Einv, Enet. rewrite (combine_map fst type).
    rewrite (combine_map (fun r => (fst r, type r)) amount). reflexivity. }
  assert (Eiv : combine inv net = map (fun r => (type r, amount r)) (rows df)).
  { rewrite Einv, Enet. apply combine_map. }
  assert (Eki : combine (map fst (rows df)) inv
                = map (fun r => (date r, type r)) (rows df)).
  { rewrite Einv. apply (combine_map fst type). }
  assert (Hlen : List.length (combine (map fst (rows df)) inv)
                 = List.length net).
  { rewrite Eki, Enet, !length_map. reflexivity. }
  intros k Hk.
  destruct (pivot_column_values _ _ _ _ _ k Hagg Hdaily') as (y & Hy & HF);
    [exists k; split; [exact Hk | apply keq_refl]|].
  (* the type is one of the table's *)
  assert (Hkin : In k inv).
  { rewrite Hcols in Hk.
    destruct (unstack_columns_live _ _ _ _ _ Hagg Hk) as (_ & d & Hdk).
    destruct (group_key_live _ _ _ _ Hagg Hdk) as [Hl _].
    apply in_map_iff in Hl. destruct Hl as ([k0 x] & Ek & Hl). simpl in Ek.
    subst k0. unfold live in Hl. apply filter_In in Hl. destruct Hl as [Hl _].
    apply in_combine_l in Hl. eapply in_combine_r. exact Hl. }
  assert (Hlen' : List.length inv = List.length net)
    by (rewrite Einv, Enet, !length_map; reflexivity).
  destruct (in_combine_same_l inv net k Hlen' Hkin) as (x & Hx).
  assert (Hkna : kna (fst (k, x)) = false).
  { simpl. rewrite Forall_forall in Ninv. apply Ninv. exact Hkin. }
  destruct (group_key_cover _ _ _ _ Hs1 Hx Hkna) as (e & He & Ee).
  destruct (Forall2_in_l _ _ _ _ (series_scale_ok _ _ Htot) He)
    as ([k' x'] & He' & Hk' & _).
  simpl in Hk', Ee. subst k'.
  destruct (series_entry _ _ _ _ _ _ Hs1 Htot He') as (_ & _ & v & -> & Hv).
  exists y, (fst e), v.
  split; [exact Hy|].
  split; [symmetry; exact (Forall2_same_length _ _ _ HF)|].
  split; [exact He'|]. split; [exact Ee|].
  rewrite Hv, (amount_under_keq _ _ _ Ee).
  rewrite <- (qsum_Forall2_all _
                (fun d => amount_under (d, k)
                            (combine (combine (map fst (rows df)) inv) net)
                          / 1000000)%Q
                (fun c => num c) _ _ HF).
  2:{ intros d c _ (q & -> & Hq). simpl. rewrite Hq. reflexivity. }
  rewrite (qsum_scale (fun d => amount_under (d, k)
                                  (combine (combine (map fst (rows df)) inv)
                                           net))).
  apply Qmult_comp; [|reflexivity].
  set (rows_k := filter (fun r => keq (type r) k) (rows df)).
  set (kvk := map (fun r => (date r, amount r)) rows_k).
  rewrite (qsum_map_ext _ (fun d => amount_under d kvk)).
  - rewrite <- (filter_all (fun _ => true) (pv_index daily')) by reflexivity.
    rewrite (group_partition (pv_index daily') (fun _ => true) kvk Si).
    + rewrite (filter_all _ kvk) by reflexivity.
      rewrite Eiv, amount_under_map. unfold kvk. rewrite map_map. reflexivity.
    + reflexivity.
    + intros r Hr. unfold kvk in Hr. apply in_map_iff in Hr.
      destruct Hr as (r0 & <- & Hr0). unfold rows_k in Hr0.
      apply filter_In in Hr0. destruct Hr0 as [Hr0 _]. simpl.
      rewrite Hidx.
      assert (Hin : In (date r0, type r0) (combine (map fst (rows df)) inv))
        by (rewrite Eki; apply in_map_iff; exists r0; auto).
      assert (Hna : kna (date r0, type r0) = false).
      { rewrite Forall_forall in Hdated, Ninv.
        assert (Hdt : isnat (date r0) = false) by exact (Hdated r0 Hr0).
        assert (Hty : isna (type r0) = false)
          by (apply Ninv; rewrite Einv; apply in_map; exact Hr0).
        change (isnat (date r0) || isna (type r0) = false).
        rewrite Hdt, Hty. reflexivity. }
      destruct (unstack_covers _ _ _ _ _ _ Hagg Hlen Hin Hna) as [Hd0 _].
      exact Hd0.
  - intros d _. rewrite Ekv, amount_under_map. unfold kvk.
    rewrite amount_under_map. simpl. unfold rows_k. rewrite filter_filter.
    rewrite (filter_ext (fun r => keq (type r) k && keq (date r) d)
                        (fun r => keq (date r, type r) (d, k))).
    + reflexivity.
    + intros r. rewrite keq_pair_split. apply andb_comm.
Qed.

Lemma daily_column_total_witness :
  canonical scenario_table /\
  exists daily y,
    daily_evolution scenario_done = Some daily /\
    pivot_column daily (Str "RETAIL") = Some y /\
    (qsum (map num y) == 2)%Q.
Proof.
  split; [exact scenario_table_canonical|].
  assert (E : _process_data scenario_clean = (Ok tt, scenario_done))
    by (vm_compute; reflexivity).
  destruct (daily_column_total scenario_clean scenario_done scenario_table
              eq_refl scenario_table_canonical)
    as (daily & tot & Hdaily & Htot & Hall).
  - repeat constructor.
  - exact E.
  - vm_compute in Hdaily. inversion Hdaily as [Ed]. clear Hdaily.
    destruct (Hall (Str "RETAIL")) as (y & k' & v & Hy & _ & _ & _ & _).
    + rewrite <- Ed. simpl. auto.
    + eexists. exists y. split; [reflexivity|]. rewrite Ed.
      split; [exact Hy|].
      rewrite <- Ed in Hy. vm_compute in Hy. inversion Hy.
      vm_compute. reflexivity.
Defined.
